(** * YouTube transcript service: a shallow embedding and its properties

    The development embeds the two implementations of the service,

    - [server/services/youtube_service_fixed.py] (the yt-dlp / transcript-API
      version, module [Fixed]) and
    - [server/services/youtube_service (copy).py] (the pytube version, module
      [Pytube]),

    and states the properties of the specification over them.

    Conventions.  Python [str] values are [string]s at the interfaces and
    [list ascii] inside the text primitives of [PyStr]; a character stands
    for a code point below 256, and the character classes ([str.isspace],
    [\d], [\w]) are those of Python on that range.  Python [int]s are [Z].
    Code that talks to the outside world (yt-dlp, whisper, OpenAI, the HTTP
    mirrors, the filesystem) runs in the monad [M] of module [Effects]: a
    state monad over [World] whose results are a value or a raised exception.
    The external backends are fields of a record of actions of that monad
    ([Fixed.Backends]), and the methods that [process_youtube_url] calls on
    [self] are fields of [Self.t], so that a statement quantifies over every
    behaviour of the collaborators: returning, raising, changing the world.
    The files are the map [fs] of the world.  [os_remove] removes a file
    that exists; the removals of the pytube version go through
    [os_remove_on], the removal on a machine that may refuse it, because one
    of them stands where no handler catches its exception.

    Layout: the definitions come first ([PyStr], [Captions], [Effects],
    [Fixed], [Pytube], [Urls], [Doubles], then [SrtDocs], [FixedMethods] and
    [PytubeMethods] for the methods the orchestrators call, and the scripted
    collaborators of [PytubeScenarios] and [Scenarios]), then runs on concrete
    inputs, then the facts, each group closed by the properties it serves. *)

From Stdlib Require Import String Ascii List ZArith Lia Bool.
From stdpp Require Import gmap strings.
Import ListNotations.
Open Scope string_scope.

(* ===================================================================== *)
(** * Python string primitives *)
(* ===================================================================== *)

Module PyStr.
Local Open Scope list_scope.

Definition text := list ascii.

(** [str.isspace] on one character, which is also what [str.strip] removes
    and what the regular expression class [\s] matches on [str] patterns:
    TAB, LF, VT, FF, CR, FS, GS, RS, US, SPACE, NEL and NBSP. *)
Definition is_space (c : ascii) : bool :=
  let n := nat_of_ascii c in
  (((9 <=? n) && (n <=? 13)) || ((28 <=? n) && (n <=? 32))
  || (n =? 133) || (n =? 160))%nat.

(** The regular expression class [\d]. *)
Definition is_digit (c : ascii) : bool :=
  let n := nat_of_ascii c in ((48 <=? n) && (n <=? 57))%nat.

Definition is_char (a : ascii) (c : ascii) : bool := Ascii.eqb a c.

Definition is_empty (s : text) : bool :=
  match s with [] => true | _ => false end.

(** A regular expression that is a fixed sequence of character classes,
    matched at the start of the subject: [re.match(r'^c1c2...cn', s)]. *)
Fixpoint match_prefix (pat : list (ascii -> bool)) (s : text) : bool :=
  match pat with
  | [] => true
  | p :: pat' =>
      match s with
      | [] => false
      | c :: s' => p c && match_prefix pat' s'
      end
  end.

(** [re.search] for such a pattern: it matches at some position. *)
Fixpoint search (pat : list (ascii -> bool)) (s : text) : bool :=
  match s with
  | [] => match_prefix pat []
  | _ :: s' => match_prefix pat s || search pat s'
  end.

(** [s.startswith(p)] and [p in s]. *)
Definition startswith (p s : text) : bool := match_prefix (map is_char p) s.
Definition contains (p s : text) : bool := search (map is_char p) s.
Definition endswith (p s : text) : bool := startswith (rev p) (rev s).

(** [s.split(sep)] for a non-empty separator.  [split_go sep skip s]
    returns the field under construction and the fields after it; [skip]
    counts the characters of a separator occurrence still to be consumed. *)
Fixpoint split_go (sep : text) (skip : nat) (s : text) : text * list text :=
  match s with
  | [] => ([], [])
  | c :: s' =>
      match skip with
      | S k => split_go sep k s'
      | O =>
          if startswith sep s
          then ([], let (f, fs) := split_go sep (length sep - 1) s' in f :: fs)
          else let (f, fs) := split_go sep 0 s' in (c :: f, fs)
      end
  end.

Definition split (sep s : text) : list text :=
  let (f, fs) := split_go sep 0 s in f :: fs.

(** [sep.join(ls)]. *)
Fixpoint join (sep : text) (ls : list text) : text :=
  match ls with
  | [] => []
  | l :: ls' =>
      match ls' with
      | [] => l
      | _ :: _ => l ++ sep ++ join sep ls'
      end
  end.

(** [s.lstrip()], [s.rstrip()] and [s.strip()]. *)
Fixpoint lstrip (s : text) : text :=
  match s with
  | [] => []
  | c :: s' => if is_space c then lstrip s' else s
  end.

Definition rstrip (s : text) : text := rev (lstrip (rev s)).
Definition strip (s : text) : text := rstrip (lstrip s).

(** [re.sub(r'\s+', ' ', s)]: every maximal run of whitespace becomes one
    space.  [in_run] says that the previous character was whitespace. *)
Fixpoint sub_ws (in_run : bool) (s : text) : text :=
  match s with
  | [] => []
  | c :: s' =>
      if is_space c
      then (if in_run then sub_ws true s' else " "%char :: sub_ws true s')
      else c :: sub_ws false s'
  end.

(** The end anchor [$]: the end of the subject, or just before a newline
    that is its last character. *)
Definition at_end (s : text) : bool :=
  match s with
  | [] => true
  | [c] => Ascii.eqb c "010"%char
  | _ => false
  end.

(** [re.match(r'^\d{2}:\d{2}', s)] and [re.match(r'^\d{2}:\d{2}:\d{2}', s)]. *)
Definition re_mmss : text -> bool :=
  match_prefix [is_digit; is_digit; is_char ":"%char; is_digit; is_digit].
Definition re_hhmmss : text -> bool :=
  match_prefix [is_digit; is_digit; is_char ":"%char; is_digit; is_digit;
                is_char ":"%char; is_digit; is_digit].

(** [re.match(r'^-->$', s)]. *)
Definition re_arrow (s : text) : bool :=
  match s with
  | a :: b :: c :: s' =>
      is_char "-"%char a && is_char "-"%char b && is_char ">"%char c && at_end s'
  | _ => false
  end.

(** [re.match(r'^\d+$', s)]. *)
Fixpoint digits_to_end (s : text) : bool :=
  match s with
  | [] => true
  | c :: s' => if is_digit c then digits_to_end s' else at_end s
  end.
Definition re_index (s : text) : bool :=
  match s with
  | c :: s' => is_digit c && digits_to_end s'
  | [] => false
  end.

(** The regular expression class [\w] on [str] patterns: [str.isalnum] or
    the underscore. *)
Definition is_word (c : ascii) : bool :=
  let n := nat_of_ascii c in
  (((48 <=? n) && (n <=? 57)) || ((65 <=? n) && (n <=? 90))
   || ((97 <=? n) && (n <=? 122)) || (n =? 95)
   || (n =? 170) || (n =? 178) || (n =? 179) || (n =? 181)
   || (n =? 185) || (n =? 186) || ((188 <=? n) && (n <=? 190))
   || ((192 <=? n) && (n <=? 214)) || ((216 <=? n) && (n <=? 246))
   || (248 <=? n))%nat.

(** The longest prefix whose characters are in a class, and what follows. *)
Fixpoint take_while (p : ascii -> bool) (s : text) : text :=
  match s with
  | [] => []
  | c :: s' => if p c then c :: take_while p s' else []
  end.

Fixpoint drop_while (p : ascii -> bool) (s : text) : text :=
  match s with
  | [] => []
  | c :: s' => if p c then drop_while p s' else s
  end.

(** The pattern and the text agree as far as both go: an occurrence of the
    pattern may start here, whatever follows the text. *)
Fixpoint compatible (pat : list (ascii -> bool)) (s : text) : bool :=
  match pat, s with
  | p :: pat', c :: s' => p c && compatible pat' s'
  | _, _ => true
  end.

(** No occurrence of the pattern can start inside the text. *)
Fixpoint clear_of (pat : list (ascii -> bool)) (s : text) : bool :=
  match s with
  | [] => true
  | _ :: s' => negb (compatible pat s) && clear_of pat s'
  end.

(** A pattern none of whose classes accepts the space. *)
Definition rejects_space (pat : list (ascii -> bool)) : Prop :=
  Forall (fun p => p " "%char = false) pat.

(** A pattern none of whose classes accepts a whitespace character. *)
Definition solid_pattern (pat : list (ascii -> bool)) : Prop :=
  Forall (fun p => forall c, p c = true -> is_space c = false) pat.

(** The text starts with a character that is not whitespace. *)
Definition starts_solid (s : text) : bool :=
  match s with
  | c :: _ => negb (is_space c)
  | [] => false
  end.

(** What [strip] returns: the empty text, or one with a solid character
    at both ends. *)
Definition stripped (s : text) : Prop :=
  s = [] \/ (starts_solid s = true /\ starts_solid (rev s) = true).

(** Python's [len] and the conversions to the interface type. *)
Definition len (s : string) : Z := Z.of_nat (String.length s).
Definition chars (s : string) : text := list_ascii_of_string s.
Definition str (s : text) : string := string_of_list_ascii s.

(** [s * n]. *)
Fixpoint str_mul (s : string) (n : nat) : string :=
  match n with
  | O => ""
  | S n' => (s ++ str_mul s n')%string
  end.

End PyStr.

(* ===================================================================== *)
(** * Caption markup parsing *)
(* ===================================================================== *)

(** The three parsing rules of [get_full_transcript_with_enhanced_yt_dlp]
    (lines 453-473 of the yt-dlp version); the mirror strategy repeats the
    same three rules in line (lines 586-620 and 666-700). *)
Module Captions.
Import PyStr.
Local Open Scope list_scope.

Definition NL : text := ["010"%char].
Definition SP : text := [" "%char].
Definition WEBVTT : text := chars "WEBVTT".

(** The condition of line 459. *)
Definition vtt_keep (line : text) : bool :=
  negb (is_empty line) && negb (startswith WEBVTT line)
  && negb (re_mmss line) && negb (re_hhmmss line) && negb (re_arrow line).

(** The condition of line 468. *)
Definition srt_keep (line : text) : bool :=
  negb (is_empty line) && negb (re_index line)
  && negb (re_mmss line) && negb (re_arrow line).

(** [lines = []; for line in content.split('\n'): line = line.strip();
    if keep(line): lines.append(line)]. *)
Definition collect (keep : text -> bool) (content : text) : list text :=
  fold_left
    (fun lines line =>
       let line := strip line in
       if keep line then lines ++ [line] else lines)
    (split NL content) [].

Definition parse_vtt_text (content : text) : text :=
  join SP (collect vtt_keep content).
Definition parse_srt_text (content : text) : text :=
  join SP (collect srt_keep content).
Definition parse_generic_text (content : text) : text :=
  sub_ws false content.

Definition parse_vtt (content : string) : string :=
  str (parse_vtt_text (chars content)).
Definition parse_srt (content : string) : string :=
  str (parse_srt_text (chars content)).
Definition parse_generic (content : string) : string :=
  str (parse_generic_text (chars content)).

(** The dispatch on the file extension (lines 453, 462 and 471). *)
Definition parse_subtitles (subtitle_file content : string) : string :=
  if endswith (chars ".vtt") (chars subtitle_file) then parse_vtt content
  else if endswith (chars ".srt") (chars subtitle_file) then parse_srt content
  else parse_generic content.

(** A digit directly followed by a colon, anywhere in the text. *)
Definition digits_colon : list (ascii -> bool) := [is_digit; is_char ":"%char].
Definition has_digits_colon (s : string) : bool := search digits_colon (chars s).


(** ** WebVTT documents, line by line *)

(** The kinds of line of a WebVTT document: the header, a cue timing
    (a line that starts with [MM:SS] or [HH:MM:SS]), a lone cue arrow, a
    blank line and a line of cue text. *)
Inductive VttLine : Type :=
| VttHeader (rest : text)
| VttTiming (t : text)
| VttArrow
| VttBlank (ws : text)
| VttText (t : text).

Definition vtt_render (l : VttLine) : text :=
  match l with
  | VttHeader rest => WEBVTT ++ rest
  | VttTiming t => t
  | VttArrow => chars "-->"
  | VttBlank ws => ws
  | VttText t => t
  end.

Definition vtt_document (ls : list VttLine) : string :=
  str (join NL (map vtt_render ls)).

Fixpoint vtt_texts (ls : list VttLine) : list text :=
  match ls with
  | [] => []
  | VttText t :: ls' => t :: vtt_texts ls'
  | _ :: ls' => vtt_texts ls'
  end.

(** The text holds no newline. *)
Definition one_line (t : text) : bool := negb (existsb (is_char "010"%char) t).

(** A line of the kinds above, cue text being any text that is not empty. *)
Definition vtt_line_ok (l : VttLine) : bool :=
  match l with
  | VttHeader rest => one_line rest
  | VttTiming t => one_line t && re_mmss t
  | VttArrow => true
  | VttBlank ws => one_line ws && forallb is_space ws
  | VttText t => one_line t && negb (is_empty t)
  end.

(** Cue text that no rule of the parser touches: no whitespace at its ends,
    and it does not look like a header, a timing or an arrow. *)
Definition plain_text (t : text) : bool :=
  starts_solid t && starts_solid (rev t)
  && negb (startswith WEBVTT t) && negb (re_mmss t) && negb (re_arrow t).

(** A document in which a line of cue text mentions a time of day, and
    another one starts with it. *)
Definition vtt_sample : list VttLine :=
  [VttHeader [];
   VttTiming (chars "00:00:01.000 --> 00:00:04.000");
   VttText (chars "See you at 10:30");
   VttTiming (chars "00:00:04.000 --> 00:00:06.000");
   VttText (chars "10:30 works for me")].

(** A document as a caption file has it, with blank lines between the cues. *)
Definition vtt_plain_sample : list VttLine :=
  [VttHeader []; VttBlank [];
   VttTiming (chars "00:01.000 --> 00:04.000");
   VttText (chars "Hello there"); VttBlank (chars "  ");
   VttTiming (chars "00:00:04.000 --> 00:00:06.000");
   VttArrow; VttText (chars "General Kenobi")].

End Captions.

(* ===================================================================== *)
(** * Exceptions, the world and the monad of effects *)
(* ===================================================================== *)

Module Effects.

(** The subclasses of [Exception] that the code distinguishes, and
    [Error] for any other one. *)
Inductive exn : Type :=
| ImportError
| AttributeError
| IndexError
| OSError
| Error (msg : string).

Definition is_ImportError (e : exn) : bool :=
  match e with ImportError => true | _ => false end.

(** The part of the outside world the service acts on: the files (path to
    contents) and the record of the calls made on its collaborators, in
    order, which is what a test double observes. *)
Record World : Type := mkWorld {
  fs : gmap string string;
  calls : list string
}.

Inductive res (A : Type) : Type :=
| Ok (a : A)
| Raise (e : exn).
Arguments Ok {A} a.
Arguments Raise {A} e.

Definition M (A : Type) : Type := World -> res A * World.

Definition ret {A} (a : A) : M A := fun w => (Ok a, w).
Definition raise {A} (e : exn) : M A := fun w => (Raise e, w).
Definition bind {A B} (c : M A) (k : A -> M B) : M B :=
  fun w => match c w with
           | (Ok a, w') => k a w'
           | (Raise e, w') => (Raise e, w')
           end.

(** [try: c  except E as e: h e], for the exceptions that [catches]
    selects; the others propagate. *)
Definition try_except_when {A} (catches : exn -> bool)
    (c : M A) (h : exn -> M A) : M A :=
  fun w => match c w with
           | (Ok a, w') => (Ok a, w')
           | (Raise e, w') => if catches e then h e w' else (Raise e, w')
           end.

(** [try: c  except Exception as e: h e]. *)
Definition try_except {A} (c : M A) (h : exn -> M A) : M A :=
  try_except_when (fun _ => true) c h.

(** [try: c  finally: f].  The cleanup runs on every exit of [c]; an
    exception of the cleanup replaces the outcome of [c]. *)
Definition try_finally {A} (c : M A) (f : M unit) : M A :=
  fun w => match c w with
           | (r, w') =>
               match f w' with
               | (Ok _, w'') => (r, w'')
               | (Raise e, w'') => (Raise e, w'')
               end
           end.

Declare Scope py_scope.
Delimit Scope py_scope with py.
Notation "'let*' x := c 'in' k" := (bind c (fun x => k))
  (at level 10, x name, c at level 100, k at level 200) : py_scope.
Notation "'let*' ' ( x , y ) := c 'in' k" := (bind c (fun '(x, y) => k))
  (at level 10, x name, y name, c at level 100, k at level 200) : py_scope.
Local Open Scope py_scope.

(** [for x in l: r = f(x); if r is a return value: return r]. *)
Fixpoint first_some {A B} (f : A -> M (option B)) (l : list A) : M (option B) :=
  match l with
  | [] => ret None
  | x :: l' =>
      let* r := f x in
      match r with
      | Some b => ret (Some b)
      | None => first_some f l'
      end
  end.

(** [[x for x in l if p(x)]] for an effectful test. *)
Fixpoint filterM {A} (p : A -> M bool) (l : list A) : M (list A) :=
  match l with
  | [] => ret []
  | x :: l' =>
      let* b := p x in
      let* r := filterM p l' in
      ret (if b then x :: r else r)
  end.

(** ** The filesystem *)

(** [os.path.exists]; the empty path names no file. *)
Definition path_exists (w : World) (path : string) : bool :=
  negb (String.eqb path "") && bool_decide (is_Some (fs w !! path)).

Definition os_path_exists (path : string) : M bool :=
  fun w => (Ok (path_exists w path), w).

(** [os.remove]. *)
Definition os_remove (path : string) : M unit :=
  fun w => if path_exists w path
           then (Ok tt, mkWorld (delete path (fs w)) (calls w))
           else (Raise OSError, w).

(** [os.remove] on a machine that may refuse the removal of a path that
    exists (a directory, a file in use, a missing permission): [refuses path w]
    is the exception of the refusal of [path] in the state [w] of the
    machine, which leaves the file where it is; a path that is not refused
    is removed as by [os_remove]. *)
Definition os_remove_on (refuses : string -> World -> option exn)
    (path : string) : M unit :=
  fun w => match refuses path w with
           | Some e => (Raise e, w)
           | None => os_remove path w
           end.

(** [open(path).read()]. *)
Definition read_file (path : string) : M string :=
  fun w => match fs w !! path with
           | Some content => if String.eqb path "" then (Raise OSError, w)
                             else (Ok content, w)
           | None => (Raise OSError, w)
           end.

(** A test double for a method: it records its name and returns [out]. *)
Definition fake {A B} (name : string) (out : B) : A -> M B :=
  fun _ w => (Ok out, mkWorld (fs w) (calls w ++ [name])).

(** ** Python truthiness and items shared by both implementations *)

(** [bool(s)] for an optional string: [None] and [''] are false. *)
Definition truthy (o : option string) : bool :=
  match o with
  | Some s => negb (String.eqb s "")
  | None => false
  end.

(** [o and len(o) > n]. *)
Definition longer_than (n : Z) (o : option string) : bool :=
  match o with
  | Some s => negb (String.eqb s "") && (n <? PyStr.len s)%Z
  | None => false
  end.

(** The metadata dictionary.  An optional field is [None] when the key is
    absent or holds [None]. *)
Record Metadata : Type := mkMetadata {
  title : string;
  author : option string;
  length_seconds : option Z;
  views : option Z;
  publish_date : option string;
  video_id : option string;
  thumbnail_url : option string;
  source_url : string;
  error : option string
}.

(** [{"title": "Unknown", "source_url": video_url}]. *)
Definition minimal_metadata (video_url : string) : Metadata :=
  mkMetadata "Unknown" None None None None None None video_url None.

(** [d.get(key, default)] on an optional field. *)
Definition get_or {A} (o : option A) (default : A) : A :=
  match o with Some a => a | None => default end.

End Effects.

(* ===================================================================== *)
(** * The yt-dlp / transcript-API implementation *)
(* ===================================================================== *)

(** [server/services/youtube_service_fixed.py]. *)
Module Fixed.
Import PyStr Captions Effects.
Local Open Scope py_scope.

Definition nl : string := String "010"%char "".

(** [p in s], [s.split(sep)], [s.startswith(p)], [s.endswith(p)]. *)
Definition str_in (p s : string) : bool := contains (chars p) (chars s).
Definition str_split (sep s : string) : list string :=
  map str (split (chars sep) (chars s)).
Definition str_startswith (p s : string) : bool := startswith (chars p) (chars s).
Definition str_endswith (p s : string) : bool := endswith (chars p) (chars s).

(** [l[i]]. *)
Definition index (l : list string) (i : nat) : M string :=
  match nth_error l i with
  | Some x => ret x
  | None => raise IndexError
  end.

(** The info dictionary of the video-extraction backend; a field is [None]
    when its key is absent.  [i_subtitles] maps a language code to its
    track list as [str] prints it. *)
Record Info : Type := mkInfo {
  i_title : option string;
  i_uploader : option string;
  i_duration : option Z;
  i_view_count : option Z;
  i_upload_date : option string;
  i_id : option string;
  i_thumbnail : option string;
  i_description : option string;
  i_subtitles : option (gmap string string)
}.

(** The three option sets the service builds a [YoutubeDL] with. *)
Inductive YdlOpts : Type :=
| MetadataOpts (user_agent : string)
| FlatOpts
| SubtitleOpts (outtmpl user_agent : string).

(** A caption descriptor and the payloads of the mirror endpoints. *)
Record CaptionItem : Type := mkCaptionItem {
  c_label : option string;
  c_languageCode : option string;
  c_url : option string
}.

Record VideoDetails : Type := mkVideoDetails {
  v_title : option string;
  v_description : option string;
  v_captions : option (list CaptionItem)   (* [None]: absent or not a list *)
}.

Record Response : Type := mkResponse {
  status_code : Z;
  body : string
}.

(** The collaborators of the service.  Each one may return, raise or
    change the world. *)
Record Backends : Type := mkBackends {
  temp_dir : string;
  invidious_instances : list string;
  user_agents : list string;
  (** [random.choice(self.user_agents)] and [random.shuffle]. *)
  get_random_user_agent : M string;
  shuffle : list string -> M (list string);
  (** [hashlib.md5(os.urandom(8)).hexdigest()[:8]]. *)
  random_id : M string;
  (** [YoutubeDL(opts).extract_info(url, download=False)]; [None] is a
      false result. *)
  extract_info : YdlOpts -> string -> M (option Info);
  (** [download_audio_from_youtube], which wraps [YoutubeDL.download]. *)
  download_audio_from_youtube : string -> M (option string);
  (** [import whisper] and [whisper.load_model("base").transcribe(path)];
      the result is the ["text"] entry when there is one. *)
  import_whisper : M unit;
  whisper_transcribe : string -> M (option string);
  (** [from openai import OpenAI], [os.environ.get("OPENAI_API_KEY")] and
      [client.audio.transcriptions.create] on the opened file. *)
  import_openai : M unit;
  environ_api_key : M (option string);
  openai_transcribe : string -> string -> M (option string);
  (** [requests.get(url, headers, timeout)] with the user agent and the
      referer of the headers, and [response.json()] for the two endpoints
      ([None]: the payload is not a list). *)
  requests_get : string -> string -> string -> M Response;
  json_captions : string -> M (option (list CaptionItem));
  json_video : string -> M VideoDetails
}.

Section Service.
Variable B : Backends.

(** [transcribe_audio], lines 273-342. *)
Definition transcribe_audio (audio_path : string) : M (option string) :=
  try_finally
    (try_except
       (try_except_when is_ImportError
          (let* _ := import_whisper B in
           let* result := whisper_transcribe B audio_path in
           match result with
           | Some transcription => ret (Some transcription)
           | None => ret None
           end)
          (fun _ =>
             try_except
               (let* _ := import_openai B in
                let* api_key := environ_api_key B in
                if negb (truthy api_key) then ret None
                else
                  let* audio_file := read_file audio_path in
                  let* transcription :=
                    openai_transcribe B (get_or api_key "") audio_file in
                  match transcription with
                  | Some t => ret (Some t)
                  | None => ret None
                  end)
               (fun _ => ret None)))
       (fun _ => ret None))
    (try_except
       (let* present := os_path_exists audio_path in
        if negb (String.eqb audio_path "") && present
        then os_remove audio_path
        else ret tt)
       (fun _ => ret tt)).

(** [extract_video_id], lines 738-787. *)
Definition extract_video_id (youtube_url : string) : M (option string) :=
  let fallback : M (option string) :=
    let* found :=
      try_except
        (let* info := extract_info B FlatOpts youtube_url in
         match info with
         | Some i => match i_id i with
                     | Some id => ret (Some id)
                     | None => ret None
                     end
         | None => ret None
         end)
        (fun _ => ret None) in
    ret found in
  try_except
    (if str_in "youtu.be/" youtube_url then
       let* a := index (str_split "youtu.be/" youtube_url) 1 in
       let* b := index (str_split "?" a) 0 in
       let* video_id := index (str_split "&" b) 0 in
       ret (Some video_id)
     else if str_in "youtube.com/watch" youtube_url then
       if str_in "v=" youtube_url then
         let* a := index (str_split "v=" youtube_url) 1 in
         let* video_id := index (str_split "&" a) 0 in
         ret (Some video_id)
       else fallback
     else if str_in "youtube.com/embed/" youtube_url then
       let* a := index (str_split "embed/" youtube_url) 1 in
       let* b := index (str_split "?" a) 0 in
       let* video_id := index (str_split "&" b) 0 in
       ret (Some video_id)
     else if str_in "youtube.com/v/" youtube_url then
       let* a := index (str_split "v/" youtube_url) 1 in
       let* b := index (str_split "?" a) 0 in
       let* video_id := index (str_split "&" b) 0 in
       ret (Some video_id)
     else fallback)
    (fun _ => ret None).

(** *** The subtitle/download strategy *)

(** [f"Title: {title}\n\nDescription: {description}"] (lines 502 and 717). *)
Definition composite (title description : string) : string :=
  "Title: " ++ title ++ nl ++ nl ++ "Description: " ++ description.

(** The stub of lines 508 and 897. *)
Definition stub (title author : string) : string :=
  "Title: " ++ title ++ nl ++ "Author: " ++ author ++ nl ++ nl
  ++ "Unable to extract content from this YouTube video.".

(** The metadata dictionary built from a true [info] (lines 412-421 and
    820-829). *)
Definition metadata_of_info (info : Info) (video_url : string) : Metadata :=
  mkMetadata (get_or (i_title info) "Unknown")
             (Some (get_or (i_uploader info) "Unknown"))
             (Some (get_or (i_duration info) 0%Z))
             (Some (get_or (i_view_count info) 0%Z))
             (i_upload_date info) (i_id info) (i_thumbnail info)
             video_url None.

(** The default metadata of lines 400-404. *)
Definition default_metadata (video_url : string) : Metadata :=
  mkMetadata "Unknown" (Some "Unknown") None None None None None video_url None.

Definition subtitle_exts : list string :=
  ["vtt"; "srt"; "ttml"; "srv1"; "srv2"; "srv3"].
Definition subtitle_langs : list string :=
  ["en"; "en-US"; "en-GB"; "en-CA"; "en-AU"].

(** The candidate file names of lines 437-439, in the order of the two
    loops. *)
Definition subtitle_candidates (subtitle_path : string) : list string :=
  flat_map
    (fun ext =>
       map (fun lang => subtitle_path ++ "." ++ lang ++ "." ++ ext)
           subtitle_langs)
    subtitle_exts.

(** STEP 4 and the minimal stub, lines 495-508. *)
Definition description_fallback (info : option Info) (metadata : Metadata)
  : string :=
  let title :=
    match info with
    | Some i => get_or (i_title i) ""
    | None => Effects.title metadata
    end in
  let description :=
    match info with
    | Some i => get_or (i_description i) ""
    | None => ""
    end in
  if negb (String.eqb title "") && negb (String.eqb description "")
     && (100 <? len description)%Z
  then composite title description
  else stub (Effects.title metadata) (get_or (author metadata) "Unknown").

(** STEP 3, lines 483-493: the function result when the audio phase
    produces one. *)
Definition audio_phase (video_url : string) : M (option string) :=
  let* audio_path := download_audio_from_youtube B video_url in
  let* present := os_path_exists (get_or audio_path "") in
  if truthy audio_path && present then
    let* transcript := transcribe_audio (get_or audio_path "") in
    if longer_than 100 transcript then ret transcript else ret None
  else ret None.

(** STEP 2, lines 475-481. *)
Definition info_subtitles (info : option Info) : option string :=
  match info with
  | Some i =>
      match i_subtitles i with
      | Some subs =>
          if bool_decide (subs = ∅) then None
          else
            match List.filter (fun lang => bool_decide (is_Some (subs !! lang)))
                         subtitle_langs with
            | lang :: _ =>
                Some ("Transcript from subtitles: " ++ get_or (subs !! lang) "")
            | [] => None
            end
      | None => None
      end
  | None => None
  end.

(** [get_full_transcript_with_enhanced_yt_dlp], lines 344-512. *)
Definition get_full_transcript_with_enhanced_yt_dlp (video_url : string)
  : M (option string) :=
  try_except
    (let* rid := random_id B in
     let subtitle_path := temp_dir B ++ "/" ++ "subs-" ++ rid in
     let* user_agent := get_random_user_agent B in
     let* '(info, metadata) :=
       try_except
         (let* info := extract_info B (SubtitleOpts subtitle_path user_agent)
                                    video_url in
          match info with
          | Some i => ret (info, metadata_of_info i video_url)
          | None => ret (info, default_metadata video_url)
          end)
         (fun _ => ret (None, default_metadata video_url)) in
     let* video_id :=
       if truthy (video_id metadata) then ret (video_id metadata)
       else extract_video_id video_url in
     if negb (truthy video_id) then ret None
     else
       let* potential_subtitle_files :=
         filterM os_path_exists (subtitle_candidates subtitle_path) in
       match potential_subtitle_files with
       | subtitle_file :: _ =>
           let* content := read_file subtitle_file in
           ret (Some (parse_subtitles subtitle_file content))
       | [] =>
           match info_subtitles info with
           | Some t => ret (Some t)
           | None =>
               let* transcript := audio_phase video_url in
               match transcript with
               | Some t => ret (Some t)
               | None => ret (Some (description_fallback info metadata))
               end
           end
       end)
    (fun _ => ret None).

(** *** The mirror strategy *)

(** The format dispatch and the length gate of lines 586-620 (and
    666-700): the text to return, if the parse passes the gate. *)
Definition parse_caption (caption_url caption_content : string)
  : option string :=
  let gate (t : string) := if (100 <? len t)%Z then Some t else None in
  if str_endswith ".vtt" caption_url || str_in "format=vtt" caption_url
  then gate (parse_vtt caption_content)
  else if str_endswith ".srt" caption_url || str_in "format=srt" caption_url
  then gate (parse_srt caption_content)
  else gate (parse_generic caption_content).

(** One pass of the retry loop of lines 578-629. *)
Inductive attempt_outcome : Type :=
| Return (t : string)    (* [return combined_text] *)
| Break                  (* [break] *)
| Retry.                 (* next [attempt] *)

Fixpoint fetch_caption (attempts : nat) (instance user_agent caption_url : string)
  : M (option string) :=
  match attempts with
  | O => ret None
  | S attempts' =>
      let* o :=
        try_except
          (let* caption_response :=
             requests_get B caption_url user_agent instance in
           if (status_code caption_response =? 200)%Z then
             match parse_caption caption_url (body caption_response) with
             | Some t => ret (Return t)
             | None => ret Break
             end
           else ret Retry)
          (fun _ => ret Retry) in
      match o with
      | Return t => ret (Some t)
      | Break => ret None
      | Retry => fetch_caption attempts' instance user_agent caption_url
      end
  end.

(** [c.get('languageCode', '').startswith('en')]. *)
Definition english (c : CaptionItem) : bool :=
  str_startswith "en" (get_or (c_languageCode c) "").

(** The loop over the captions to try, lines 569-629 and 650-709.
    [usable] is the test on the item's url: the key is present (STEP 1)
    or its value is true (STEP 2). *)
Definition try_captions (usable : option string -> bool)
    (instance user_agent : string) (captions_to_try : list CaptionItem)
  : M (option string) :=
  first_some
    (fun caption_item =>
       if usable (c_url caption_item) then
         let caption_url := get_or (c_url caption_item) "" in
         let caption_url :=
           if str_startswith "/" caption_url
           then instance ++ caption_url else caption_url in
         fetch_caption 3 instance user_agent caption_url
       else ret None)
    captions_to_try.

(** STEP 1, lines 547-631, after the request: the processing of a
    response of the captions endpoint. *)
Definition captions_step (instance user_agent : string) (response : Response)
  : M (option string) :=
  if (status_code response =? 200)%Z then
    try_except
      (let* data := json_captions B (body response) in
       match data with
       | Some (item :: items) =>
           let data := item :: items in
           let english_captions :=
             List.filter (fun c => bool_decide (is_Some (c_label c)) && english c)
                    data in
           let captions_to_try :=
             match english_captions with [] => data | _ => english_captions end in
           try_captions (fun u => bool_decide (is_Some u))
                        instance user_agent captions_to_try
       | _ => ret None
       end)
      (fun _ => ret None)
  else ret None.

(** STEP 3, lines 711-717: the description of the video details as a
    last resort. *)
Definition details_description (data : VideoDetails) : option string :=
  match v_description data with
  | Some description =>
      if negb (String.eqb description "") && (200 <? len description)%Z
      then Some (composite (get_or (v_title data) "Unknown") description)
      else None
  | None => None
  end.

(** STEP 2 and STEP 3, lines 633-720. *)
Definition details_step (instance user_agent video_id : string)
  : M (option string) :=
  try_except
    (let* response :=
       requests_get B (instance ++ "/api/v1/videos/" ++ video_id)
                    user_agent instance in
     if (status_code response =? 200)%Z then
       let* data := json_video B (body response) in
       let* from_captions :=
         match v_captions data with
         | Some (c :: cs) =>
             let captions := c :: cs in
             let english_captions := List.filter english captions in
             let captions_to_try :=
               match english_captions with [] => captions | _ => english_captions end in
             try_captions truthy instance user_agent captions_to_try
         | _ => ret None
         end in
       match from_captions with
       | Some t => ret (Some t)
       | None => ret (details_description data)
       end
     else ret None)
    (fun _ => ret None).

(** The body of the loop over the user agents, lines 535-723. *)
Definition try_instance (video_id instance user_agent : string)
  : M (option string) :=
  try_except
    (let* response :=
       requests_get B (instance ++ "/api/v1/captions/" ++ video_id)
                    user_agent instance in
     let* from_captions := captions_step instance user_agent response in
     match from_captions with
     | Some t => ret (Some t)
     | None => details_step instance user_agent video_id
     end)
    (fun _ => ret None).

(** The loop over the mirrors, lines 530-729.  [random.shuffle] reorders
    [self.user_agents] in place, so the shuffle for a mirror starts from the
    order that the mirror before it left: [agents] is the list as the pass
    finds it. *)
Fixpoint mirror_loop (video_id : string) (instances agents : list string)
  : M (option string) :=
  match instances with
  | [] => ret None
  | instance :: instances' =>
      let* agents := shuffle B agents in
      let* found := first_some (try_instance video_id instance) agents in
      match found with
      | Some t => ret (Some t)
      | None => mirror_loop video_id instances' agents
      end
  end.

(** [get_transcript_from_invidious_with_enhanced_options], lines 514-736.
    [invidious_instances B] and [user_agents B] are the two lists of [self]
    as the call finds them. *)
Definition get_transcript_from_invidious_with_enhanced_options
    (video_id : string) : M (option string) :=
  try_except
    (let* instances := shuffle B (invidious_instances B) in
     mirror_loop video_id instances (user_agents B))
    (fun _ => ret None).

End Service.

(** *** The orchestrator *)

(** The methods of [self] that [process_youtube_url] calls. *)
Module Self.
Record t : Type := mk {
  extract_video_id : string -> M (option string);
  get_transcript_with_youtube_transcript_api : string -> M (option string);
  get_transcript_from_proxy_service : string -> M (option string);
  get_full_transcript_with_enhanced_yt_dlp : string -> M (option string);
  get_transcript_from_invidious_with_enhanced_options : string -> M (option string)
}.
End Self.

(** [metadata.get(...)] on a variable that may still be [None]. *)
Definition the_dict (metadata : option Metadata) : M Metadata :=
  match metadata with
  | Some md => ret md
  | None => raise AttributeError
  end.

(** The metadata block of [process_youtube_url], lines 799-836: the value of
    the variable [metadata] when the block is left. *)
Definition fetch_metadata (B : Backends) (video_url : string)
  : M (option Metadata) :=
  try_except
    (let* user_agent := get_random_user_agent B in
     let* info := extract_info B (MetadataOpts user_agent) video_url in
     match info with
     | Some i => ret (Some (metadata_of_info i video_url))
     | None => ret None
     end)
    (fun _ => ret (Some (minimal_metadata video_url))).

(** Lines 839-841: the id of the metadata, else the one of the URL. *)
Definition resolve_video_id (self : Self.t) (md : Metadata) (video_url : string)
  : M (option string) :=
  if truthy (video_id md) then ret (video_id md)
  else Self.extract_video_id self video_url.

(** Lines 849-898: the four methods in their order, then the partial
    content, then the fallback message. *)
Definition acquire (self : Self.t) (md : Metadata) (video_id video_url : string)
  : M (option string * Metadata) :=
  let* transcript_from_api :=
    Self.get_transcript_with_youtube_transcript_api self video_id in
  if longer_than 500 transcript_from_api then ret (transcript_from_api, md)
  else
  let* proxy_transcript := Self.get_transcript_from_proxy_service self video_id in
  if longer_than 500 proxy_transcript then ret (proxy_transcript, md)
  else
  let* full_transcript :=
    Self.get_full_transcript_with_enhanced_yt_dlp self video_url in
  if longer_than 500 full_transcript then ret (full_transcript, md)
  else
  let* enhanced_invidious_transcript :=
    Self.get_transcript_from_invidious_with_enhanced_options self video_id in
  if longer_than 500 enhanced_invidious_transcript
  then ret (enhanced_invidious_transcript, md)
  else if truthy transcript_from_api then ret (transcript_from_api, md)
  else if truthy proxy_transcript then ret (proxy_transcript, md)
  else if truthy full_transcript then ret (full_transcript, md)
  else if truthy enhanced_invidious_transcript
  then ret (enhanced_invidious_transcript, md)
  else
    let fallback_text := stub (title md) (get_or (author md) "Unknown") in
    ret (Some fallback_text, md).

(** [process_youtube_url], lines 789-898. *)
Definition process_youtube_url (B : Backends) (self : Self.t)
    (video_url : string) : M (option string * Metadata) :=
  let* metadata := fetch_metadata B video_url in
  let* md := the_dict metadata in
  let* video_id := resolve_video_id self md video_url in
  if negb (truthy video_id) then ret (None, md)
  else acquire self md (get_or video_id "") video_url.

(** The service object: the methods above on the given collaborators, the
    two transcript-API methods being collaborators themselves. *)
Definition service (B : Backends)
    (transcript_api proxy_service : string -> M (option string)) : Self.t :=
  Self.mk (extract_video_id B) transcript_api proxy_service
          (get_full_transcript_with_enhanced_yt_dlp B)
          (get_transcript_from_invidious_with_enhanced_options B).

End Fixed.

(* ===================================================================== *)
(** * The pytube implementation *)
(* ===================================================================== *)

(** [server/services/youtube_service (copy).py]. *)
Module Pytube.
Import PyStr Effects.
Local Open Scope py_scope.

(** [s[:n]]: the first [n] characters, or all but the last [-n] ones when
    [n] is negative. *)
Definition slice_to (n : Z) (s : string) : string :=
  if (0 <=? n)%Z then substring 0 (Z.to_nat n) s
  else substring 0 (String.length s - Z.to_nat (- n)) s.

(** The methods of [self] that [process_youtube_url] calls besides
    [summarize_transcript]; the chat-completion client: the content of
    the first choice of the response to the summarising prompt for a
    transcript, [None] when the response carries no content; and the
    refusals of [os.remove] on the machine, which the removals of lines 480
    and 491 meet. *)
Module Self.
Record t : Type := mk {
  get_video_metadata : string -> M Metadata;
  extract_video_id : string -> M (option string);
  download_audio : string -> M (option string);
  transcribe_audio : string -> M (option string);
  get_captions : string -> M (option string);
  get_youtube_transcript_api : string -> M (option string);
  chat_completion : string -> M (option string);
  refuses : string -> World -> option exn
}.
End Self.

(** The class [[^&\?\/]] of the patterns of [extract_video_id]. *)
Definition id_part (c : ascii) : bool :=
  negb (is_char "&"%char c || is_char "?"%char c || is_char "/"%char c).

(** A match of [(?:alt1|alt2|...)([^&\?\/]+)] at the start of the subject:
    its group. *)
Fixpoint match_alternatives (alts : list text) (s : text) : option text :=
  match alts with
  | [] => None
  | alt :: alts' =>
      if startswith alt s
      then match take_while id_part (skipn (List.length alt) s) with
           | [] => match_alternatives alts' s
           | group => Some group
           end
      else match_alternatives alts' s
  end.

(** [re.search(pattern, s)] for such a pattern: the group of the leftmost
    match. *)
Fixpoint search_alternatives (alts : list text) (s : text) : option text :=
  match match_alternatives alts s with
  | Some group => Some group
  | None =>
      match s with
      | [] => None
      | _ :: s' => search_alternatives alts s'
      end
  end.

(** The fourth pattern, [youtube\.com\/user\/\w+\/\w+\/[^&\?\/]+], which has
    no group: whether it matches somewhere. *)
Definition match_user (s : text) : bool :=
  startswith (chars "youtube.com/user/") s
  && (let s1 := skipn 17 s in
      negb (is_empty (take_while is_word s1))
      && match drop_while is_word s1 with
         | c :: s2 =>
             is_char "/"%char c
             && negb (is_empty (take_while is_word s2))
             && match drop_while is_word s2 with
                | d :: e :: _ => is_char "/"%char d && id_part e
                | _ => false
                end
         | [] => false
         end).

Fixpoint search_user (s : text) : bool :=
  match_user s
  || match s with
     | [] => false
     | _ :: s' => search_user s'
     end.

(** [extract_video_id], lines 236-271.  [video_id_of] is
    [YouTube(url).video_id] of pytube.  A match of the fourth pattern has no
    group 1, and the [IndexError] of [match.group(1)] is caught at line 269. *)
Definition extract_video_id (video_id_of : string -> M string)
    (youtube_url : string) : M (option string) :=
  let url := chars youtube_url in
  try_except
    (match search_alternatives
             [chars "youtube.com/watch?v="; chars "youtu.be/"] url with
     | Some group => ret (Some (str group))
     | None =>
     match search_alternatives [chars "youtube.com/embed/"] url with
     | Some group => ret (Some (str group))
     | None =>
     match search_alternatives [chars "youtube.com/v/"] url with
     | Some group => ret (Some (str group))
     | None =>
         if search_user url then raise IndexError
         else
           try_except
             (let* video_id := video_id_of youtube_url in ret (Some video_id))
             (fun _ => ret None)
     end end end)
    (fun _ => ret None).

(** [summarize_transcript], lines 149-184. *)
Definition summarize_transcript (self : Self.t) (transcript : string)
    (max_length : Z) : M string :=
  if (len transcript <=? max_length)%Z then ret transcript
  else
    try_except
      (let* summary := Self.chat_completion self transcript in
       match summary with
       | Some summary => ret summary
       | None => raise (Error "object of type 'NoneType' has no len()")
       end)
      (fun _ =>
         ret (slice_to max_length transcript ++ "... [truncated due to length]")).

(** The default of the [max_length] parameter. *)
Definition default_max_length : Z := 5000.


(** Method 1 of [process_youtube_url], lines 474-491: the processed text
    when the method returns, and [None] when the run goes on.  The removal
    of line 491 is in the handler, outside every [try]: an exception it
    raises leaves [process_youtube_url]. *)
Definition audio_method (self : Self.t) (audio_file : string)
  : M (option string) :=
  try_except
    (let* transcript := Self.transcribe_audio self audio_file in
     let* _ := os_remove_on (Self.refuses self) audio_file in
     if truthy transcript then
       let* processed_text :=
         summarize_transcript self (get_or transcript "") default_max_length in
       ret (Some processed_text)
     else ret None)
    (fun _ =>
       let* present := os_path_exists audio_file in
       if negb (String.eqb audio_file "") && present
       then let* _ := os_remove_on (Self.refuses self) audio_file in ret None
       else ret None).

(** [process_youtube_url], lines 447-513. *)
Definition process_youtube_url (self : Self.t) (video_url : string)
  : M (option string * Metadata) :=
  let* metadata := Self.get_video_metadata self video_url in
  let* video_id := Self.extract_video_id self video_url in
  if negb (truthy video_id) then ret (None, metadata)
  else
    let video_id := get_or video_id "" in
    let* audio_file := Self.download_audio self video_url in
    let* from_audio :=
      if truthy audio_file then audio_method self (get_or audio_file "")
      else ret None in
    match from_audio with
    | Some processed_text => ret (Some processed_text, metadata)
    | None =>
        let* captions := Self.get_captions self video_id in
        if truthy captions then
          let* processed_text :=
            summarize_transcript self (get_or captions "") default_max_length in
          ret (Some processed_text, metadata)
        else
          let* alt_transcript := Self.get_youtube_transcript_api self video_id in
          if truthy alt_transcript then
            let* processed_text :=
              summarize_transcript self (get_or alt_transcript "")
                                   default_max_length in
            ret (Some processed_text, metadata)
          else ret (None, metadata)
    end.

End Pytube.

(* ===================================================================== *)
(** * The supported URL shapes *)
(* ===================================================================== *)

Module Urls.
Import PyStr.

Inductive Shape : Type := ShortLink | Watch | Embed | OldEmbed.

Definition marker (sh : Shape) : string :=
  match sh with
  | ShortLink => "youtu.be/"
  | Watch => "youtube.com/watch?v="
  | Embed => "youtube.com/embed/"
  | OldEmbed => "youtube.com/v/"
  end.

(** What comes before the marker in the usual spellings of a URL. *)
Definition prefixes : list string :=
  [""; "http://"; "https://"; "http://www."; "https://www."; "https://m."].

(** The alphabet of video ids: letters, digits, hyphen and underscore. *)
Definition id_char (c : ascii) : bool :=
  let n := nat_of_ascii c in
  (((48 <=? n) && (n <=? 57)) || ((65 <=? n) && (n <=? 90))
   || ((97 <=? n) && (n <=? 122)) || (n =? 45) || (n =? 95))%nat.

Definition is_id (id : string) : bool := forallb id_char (chars id).

Definition is_watch (sh : Shape) : bool :=
  match sh with Watch => true | _ => false end.

(** The query suffix of a URL of the shape: nothing, or [&...], or [?...]
    where the shape has no [?] of its own, without a further path. *)
Definition suffix_ok (amp_only : bool) (suffix : text) : bool :=
  match suffix with
  | [] => true
  | c :: rest =>
      (is_char "&"%char c || (is_char "?"%char c && negb amp_only))
      && forallb (fun x => negb (is_char "/"%char x)) rest
  end.

Definition query_suffix (sh : Shape) (suffix : string) : bool :=
  suffix_ok (is_watch sh) (chars suffix).

Definition url (prefix : string) (sh : Shape) (id suffix : string) : string :=
  prefix ++ marker sh ++ id ++ suffix.

End Urls.

(* ===================================================================== *)
(** * Test doubles *)
(* ===================================================================== *)

(** Worlds and collaborators to run the service on, and the outcomes to
    compare a run with. *)
Module Doubles.
Import PyStr Effects Fixed.

Definition empty_world : World := mkWorld ∅ [].

(** The world with [names] added to the record of calls. *)
Definition called (names : list string) (w : World) : World :=
  mkWorld (fs w) (calls w ++ names).

(** A machine without network access: the extraction backend answers
    [info] from a cache, nothing downloads, no speech-to-text package is
    installed and every HTTP request fails. *)
Definition offline (info : option Info) : Backends :=
  mkBackends "/tmp/yt" ["https://mirror.example"] ["agent/1.0"]
    (ret "agent/1.0") (fun l => ret l) (ret "0a1b2c3d")
    (fun _ _ => ret info)
    (fun _ => ret None)
    (raise ImportError) (fun _ => ret None)
    (raise ImportError) (ret None) (fun _ _ => ret None)
    (fun _ _ _ => raise (Error "connection refused"))
    (fun _ => ret None)
    (fun _ => raise (Error "no payload")).

(** A machine with whisper installed, which recognises [heard]. *)
Definition with_whisper (heard : option string) : Backends :=
  mkBackends "/tmp/yt" [] ["agent/1.0"]
    (ret "agent/1.0") (fun l => ret l) (ret "0a1b2c3d")
    (fun _ _ => ret None)
    (fun _ => ret None)
    (ret tt) (fun _ => ret heard)
    (raise ImportError) (ret None) (fun _ _ => ret None)
    (fun _ _ _ => raise (Error "connection refused"))
    (fun _ => ret None)
    (fun _ => raise (Error "no payload")).

(** A mirror whose captions endpoint answers 404 and whose videos endpoint
    answers [details]. *)
Definition mirror_only (details : VideoDetails) : Backends :=
  mkBackends "/tmp/yt" ["https://mirror.example"] ["agent/1.0"]
    (ret "agent/1.0") (fun l => ret l) (ret "0a1b2c3d")
    (fun _ _ => ret None)
    (fun _ => ret None)
    (raise ImportError) (fun _ => ret None)
    (raise ImportError) (ret None) (fun _ _ => ret None)
    (fun url _ _ =>
       if str_in "/api/v1/videos/" url then ret (mkResponse 200 "{...}")
       else ret (mkResponse 404 ""))
    (fun _ => ret None)
    (fun _ => ret details).

Definition sample_url : string := "https://www.youtube.com/watch?v=dQw4w9WgXcQ".

(** An info dictionary with a description of [n] characters. *)
Definition sample_info (n : nat) : Info :=
  mkInfo (Some "A talk") (Some "A speaker") (Some 212%Z) (Some 1000%Z)
         (Some "20240101") (Some "dQw4w9WgXcQ") None
         (Some (str_mul "d" n)) None.

Definition sample_details (n : nat) : VideoDetails :=
  mkVideoDetails (Some "A talk") (Some (str_mul "d" n)) None.

(** The names under which the doubles of the four methods record a call. *)
Definition method1 : string := "get_transcript_with_youtube_transcript_api".
Definition method2 : string := "get_transcript_from_proxy_service".
Definition method3 : string := "get_full_transcript_with_enhanced_yt_dlp".
Definition method4 : string := "get_transcript_from_invidious_with_enhanced_options".

(** A service object made of doubles that return fixed transcripts. *)
Definition fakes (vid o1 o2 o3 o4 : option string) : Self.t :=
  Self.mk (fake "extract_video_id" vid)
          (fake method1 o1) (fake method2 o2) (fake method3 o3) (fake method4 o4).

(** A service object of the pytube version made of doubles, on a machine
    that refuses no removal. *)
Definition pytube_fakes (md : Metadata)
    (vid audio transcript captions alt summary : option string) : Pytube.Self.t :=
  Pytube.Self.mk (fake "get_video_metadata" md) (fake "extract_video_id" vid)
                 (fake "download_audio" audio) (fake "transcribe_audio" transcript)
                 (fake "get_captions" captions)
                 (fake "get_youtube_transcript_api" alt)
                 (fake "chat_completion" summary)
                 (fun _ _ => None).

(** The same service object on a machine where the transcriber fails with
    [e] and the audio file, which the download left at [audio], cannot be
    removed. *)
Definition pytube_locked (md : Metadata) (vid audio : string)
    (e denied : exn) : Pytube.Self.t :=
  Pytube.Self.mk (fake "get_video_metadata" md) (fake "extract_video_id" (Some vid))
                 (fun _ w => (Ok (Some audio),
                              mkWorld (<[audio := "ID3..."]> (fs w))
                                      (calls w ++ ["download_audio"])))
                 (fun _ => raise e)
                 (fake "get_captions" None)
                 (fake "get_youtube_transcript_api" None)
                 (fake "chat_completion" None)
                 (fun _ _ => Some denied).

(** The candidate of highest priority that is not empty. *)
Definition first_candidate (candidates : list (option string)) : option string :=
  match List.filter truthy candidates with
  | o :: _ => o
  | [] => None
  end.

(** The value [process_youtube_url] returns once the four methods have run
    and the first three have not passed the gate. *)
Definition settle (md : Metadata) (o1 o2 o3 o4 : option string) : option string :=
  if longer_than 500 o4 then o4
  else if existsb truthy [o1; o2; o3; o4] then first_candidate [o1; o2; o3; o4]
  else Some (stub (title md) (get_or (author md) "Unknown")).

End Doubles.

(* ===================================================================== *)
(** * SubRip documents *)
(* ===================================================================== *)

(** The kinds of line of a SubRip document, for the SRT rule of the caption
    parser: the number of a cue, a cue timing, a blank line and a line of
    cue text. *)
Module SrtDocs.
Import PyStr Captions.
Local Open Scope list_scope.

Inductive SrtLine : Type :=
| SrtIndex (n : text)
| SrtTiming (t : text)
| SrtBlank (ws : text)
| SrtText (t : text).

Definition srt_render (l : SrtLine) : text :=
  match l with
  | SrtIndex n => n
  | SrtTiming t => t
  | SrtBlank ws => ws
  | SrtText t => t
  end.

Definition srt_document (ls : list SrtLine) : string :=
  str (join NL (map srt_render ls)).

Fixpoint srt_texts (ls : list SrtLine) : list text :=
  match ls with
  | [] => []
  | SrtText t :: ls' => t :: srt_texts ls'
  | _ :: ls' => srt_texts ls'
  end.

Definition srt_line_ok (l : SrtLine) : bool :=
  match l with
  | SrtIndex n => negb (is_empty n) && forallb is_digit n
  | SrtTiming t => one_line t && re_mmss t
  | SrtBlank ws => one_line ws && forallb is_space ws
  | SrtText t => one_line t && negb (is_empty t)
  end.

(** Cue text that no test of line 468 touches: no whitespace at its ends,
    and it does not look like a cue number, a timing or an arrow. *)
Definition srt_plain_text (t : text) : bool :=
  starts_solid t && starts_solid (rev t)
  && negb (re_index t) && negb (re_mmss t) && negb (re_arrow t).

Definition srt_sample : list SrtLine :=
  [SrtIndex (chars "1");
   SrtTiming (chars "00:00:01,000 --> 00:00:04,000");
   SrtText (chars "Hello there"); SrtBlank [];
   SrtIndex (chars "2");
   SrtTiming (chars "00:00:05,000 --> 00:00:06,000");
   SrtText (chars "General Kenobi")].

End SrtDocs.

(* ===================================================================== *)
(** * The transcript-API strategies and the audio download *)
(* ===================================================================== *)

(** The remaining methods of [server/services/youtube_service_fixed.py]:
    [load_proxies], [get_random_proxy],
    [get_transcript_with_youtube_transcript_api],
    [get_transcript_from_proxy_service] and [download_audio_from_youtube]. *)
Module FixedMethods.
Import PyStr Effects Fixed.
Local Open Scope py_scope.

(** A proxy configuration, [{"http": ..., "https": ...}]. *)
Record Proxy : Type := mkProxy {
  http : string;
  https : string
}.

(** How [list_transcripts] is told to connect: plainly, with
    [proxies=proxy], or with [headers={'User-Agent': ...}]. *)
Inductive Via : Type :=
| Direct
| Proxies (proxy : Proxy)
| Headers (user_agent : string).

(** The transcript library and the random choice among the proxies.
    [transcript_list] and [transcript] are the library's objects;
    [is_NoTranscriptFound] tells the exceptions of the class
    [NoTranscriptFound]; [all_transcripts] is [list(transcript_list)];
    [fetch_text] is [transcript.fetch()] followed by [entry['text']] for
    every entry. *)
Record Api : Type := mkApi {
  transcript_list : Type;
  transcript : Type;
  is_NoTranscriptFound : exn -> bool;
  list_transcripts : string -> Via -> M transcript_list;
  find_transcript : transcript_list -> list string -> M transcript;
  find_generated_transcript : transcript_list -> list string -> M transcript;
  all_transcripts : transcript_list -> M (list transcript);
  language_code : transcript -> string;
  translate : transcript -> string -> M transcript;
  fetch_text : transcript -> M (list string);
  (** [self.proxies] and [random.choice]. *)
  proxies : list Proxy;
  choice : list Proxy -> M Proxy
}.

(** [load_proxies], lines 59-76: what [__init__] stores in [self.proxies]. *)
Definition load_proxies : list Proxy :=
  [mkProxy "http://proxy1.example.com:8080" "https://proxy1.example.com:8080";
   mkProxy "http://proxy2.example.com:8080" "https://proxy2.example.com:8080"].

(** [get_random_proxy], lines 82-91. *)
Definition get_random_proxy (A : Api) : M (option Proxy) :=
  match proxies A with
  | [] => ret None
  | _ :: _ => let* proxy := choice A (proxies A) in ret (Some proxy)
  end.

(** [sep.join(parts)] on strings. *)
Definition str_join (sep : string) (parts : list string) : string :=
  str (join (chars sep) (map chars parts)).

(** [full_transcript = transcript.fetch();
     text_parts = [entry['text'] for entry in full_transcript];
     return ' '.join(text_parts)]. *)
Definition joined (A : Api) (t : transcript A) : M (option string) :=
  let* text_parts := fetch_text A t in
  ret (Some (str_join " " text_parts)).

(** The last resort of both methods (lines 141-150 and 202-210): the first
    transcript of the list, translated when its language is not ['en']. *)
Definition last_resort (A : Api) (tl : transcript_list A) : M (option string) :=
  let* ts := all_transcripts A tl in
  let* t := match ts with
            | t :: _ => ret t
            | [] => raise IndexError
            end in
  let* t := if negb (String.eqb (language_code A t) "en")
            then translate A t "en" else ret t in
  joined A t.

(** [get_transcript_with_youtube_transcript_api], lines 93-159.  The first
    handler is for [NoTranscriptFound] only; both handlers of the outer
    statement log and fall through to [return None]. *)
Definition get_transcript_with_youtube_transcript_api (A : Api)
    (video_id : string) : M (option string) :=
  try_except
    (let* tl := list_transcripts A video_id Direct in
     try_except_when (is_NoTranscriptFound A)
       (let* t := find_transcript A tl ["en"] in joined A t)
       (fun _ =>
          try_except
            (let* t := find_generated_transcript A tl ["en"] in joined A t)
            (fun _ =>
               try_except
                 (let* t := find_transcript A tl ["en"; "en-US"; "en-GB"] in
                  joined A t)
                 (fun _ =>
                    try_except (last_resort A tl) (fun _ => ret None)))))
    (fun _ => ret None).

(** [get_transcript_from_proxy_service], lines 161-216.  When the last
    resort fails the function ends without a [return]. *)
Definition get_transcript_from_proxy_service (B : Backends) (A : Api)
    (video_id : string) : M (option string) :=
  try_except
    (let* proxy := get_random_proxy A in
     let* tl :=
       match proxy with
       | Some p => list_transcripts A video_id (Proxies p)
       | None =>
           let* user_agent := get_random_user_agent B in
           list_transcripts A video_id (Headers user_agent)
       end in
     try_except
       (let* t := find_transcript A tl ["en"] in joined A t)
       (fun _ =>
          try_except
            (let* t := find_generated_transcript A tl ["en"] in joined A t)
            (fun _ =>
               try_except (last_resort A tl) (fun _ => ret None))))
    (fun _ => ret None).

(** The service object with its own five methods. *)
Definition full_service (B : Backends) (A : Api) : Self.t :=
  service B (get_transcript_with_youtube_transcript_api A)
            (get_transcript_from_proxy_service B A).

(** [s.replace(old, new)] for a non-empty [old]: the fields between the
    occurrences of [old], joined by [new]. *)
Definition replace (old new s : string) : string :=
  str (join (chars new) (split (chars old) (chars s))).

(** [os.path.join(a, b)] for a relative [b]. *)
Definition os_path_join (a b : string) : string :=
  if String.eqb a "" then b
  else if str_endswith "/" a then a ++ b
  else a ++ "/" ++ b.

(** [download_audio_from_youtube], lines 218-271.  [ydl_download] is
    [YoutubeDL(ydl_opts).download([video_url])] for the output template and
    the user agent of the options. *)
Definition download_audio_from_youtube (B : Backends)
    (ydl_download : string -> string -> string -> M unit)
    (video_url : string) : M (option string) :=
  try_except
    (let* random_id := random_id B in
     let audio_path :=
       os_path_join (temp_dir B) ("audio-" ++ random_id ++ ".mp3") in
     let outtmpl := replace ".mp3" "" audio_path in
     let* user_agent := get_random_user_agent B in
     let* _ := ydl_download outtmpl user_agent video_url in
     let audio_path := replace ".mp3" "" audio_path ++ ".mp3" in
     let* present := os_path_exists audio_path in
     if present then ret (Some audio_path) else ret None)
    (fun _ => ret None).

End FixedMethods.

(* ===================================================================== *)
(** * The methods of the pytube implementation *)
(* ===================================================================== *)

(** The methods of [server/services/youtube_service (copy).py] that
    [process_youtube_url] calls: [get_video_metadata], [download_audio],
    [transcribe_audio], [get_captions] and [get_youtube_transcript_api].
    The pauses of the retry loops ([time.sleep]) leave the world alone and
    are not shown. *)
Module PytubeMethods.
Import PyStr Effects.
Local Open Scope py_scope.

(** A caption track of pytube: its language code and the property
    [xml_captions], which fetches the markup. *)
Record Caption : Type := mkCaption {
  code : string;
  xml_captions : M string
}.

(** A [track] element of the caption list: its attributes ([None] when
    absent) and the number of its child elements.  The truth value of an
    element is that it has children. *)
Record Track : Type := mkTrack {
  lang_code : option string;
  name : option string;
  children : nat
}.

(** The collaborators: pytube ([YouTube(url)], the attributes and the
    streams of the object), pydub, the OpenAI client, [requests], the XML
    and JSON decoders, and [str] on an exception.
    [yt_publish_date] is [None] for a false value and the [str] of the
    date otherwise; [first_audio_stream] is
    [yt.streams.filter(only_audio=True).order_by('abr').desc().first()];
    [convert_to_mp3 a b] is [AudioSegment.from_file(a).export(b, format="mp3")];
    [client_transcribe] is the [text] of
    [client.audio.transcriptions.create] on the contents of the file;
    [xml_texts] and [xml_tracks] are [ET.fromstring] followed by
    [findall('.//text')] (the [text] of each element) and
    [findall('.//track')]; [json_caption_lines] is the ['captions'] entry
    of the decoded payload ([None] when absent), each line being its
    ['text'] entry ([None] when absent); [refuses] gives the removals that
    the machine refuses. *)
Record Backends : Type := mkBackends {
  yt : Type;
  stream : Type;
  temp_dir : string;
  new_youtube : string -> M yt;
  yt_title : yt -> M string;
  yt_author : yt -> M string;
  yt_length : yt -> M Z;
  yt_views : yt -> M Z;
  yt_publish_date : yt -> M (option string);
  yt_video_id : yt -> M string;
  yt_thumbnail_url : yt -> M string;
  yt_captions : yt -> M (list Caption);
  first_audio_stream : yt -> M (option stream);
  stream_download : stream -> string -> M string;
  convert_to_mp3 : string -> string -> M unit;
  client_transcribe : string -> M string;
  chat_completion : string -> M (option string);
  requests_get : string -> M Fixed.Response;
  xml_texts : string -> M (list (option string));
  xml_tracks : string -> M (list Track);
  json_video : string -> M Fixed.VideoDetails;
  json_caption_lines : string -> M (option (list (option string)));
  str_of_exn : exn -> string;
  refuses : string -> World -> option exn
}.

Section Service.
Variable P : Backends.

(** *** [get_video_metadata], lines 186-234 *)

(** The dictionary display of lines 209-218, whose values are read in
    order; [yt.publish_date] is read for the test and again for [str]. *)
Definition read_metadata (y : yt P) (video_url : string) : M Metadata :=
  let* title := yt_title P y in
  let* author := yt_author P y in
  let* length := yt_length P y in
  let* views := yt_views P y in
  let* dated := yt_publish_date P y in
  let* publish_date :=
    match dated with
    | Some _ =>
        let* date := yt_publish_date P y in ret (Some (get_or date "None"))
    | None => ret None
    end in
  let* video_id := yt_video_id P y in
  let* thumbnail_url := yt_thumbnail_url P y in
  ret (mkMetadata title (Some author) (Some length) (Some views) publish_date
                  (Some video_id) (Some thumbnail_url) video_url None).

(** The retry loop of lines 207-224: [metadata] keeps its value when an
    attempt raises. *)
Fixpoint metadata_attempts (attempts : nat) (y : yt P) (video_url : string)
    (metadata : Metadata) : M Metadata :=
  match attempts with
  | O => ret metadata
  | S attempts' =>
      let* r := try_except
                  (let* m := read_metadata y video_url in ret (Some m))
                  (fun _ => ret None) in
      match r with
      | Some m => ret m
      | None => metadata_attempts attempts' y video_url metadata
      end
  end.

Definition get_video_metadata (video_url : string) : M Metadata :=
  try_except
    (let* y := new_youtube P video_url in
     metadata_attempts 3 y video_url (minimal_metadata video_url))
    (fun e =>
       ret (mkMetadata "Unknown" None None None None None None video_url
                       (Some (str_of_exn P e)))).

(** *** [transcribe_audio], lines 120-147 *)

Definition transcribe_audio (audio_file : string) : M (option string) :=
  try_except
    (let* audio := read_file audio_file in
     let* text := client_transcribe P audio in
     ret (Some text))
    (fun _ => ret None).

(** *** [download_audio], lines 34-118 *)

(** The last dot of a path: what precedes it and what starts at it. *)
Fixpoint last_dot (s : text) : option (text * text) :=
  match s with
  | [] => None
  | c :: s' =>
      match last_dot s' with
      | Some (b, e) => Some (c :: b, e)
      | None => if is_char "."%char c then Some ([], s) else None
      end
  end.

(** [os.path.splitext]: the extension starts at the last dot of the last
    component, unless only dots precede it there. *)
Definition splitext_text (p : text) : text * text :=
  match last_dot p with
  | Some (b, e) =>
      let filename := rev (take_while (fun c => negb (is_char "/"%char c)) (rev b)) in
      if existsb (is_char "/"%char) e then (p, [])
      else if existsb (fun c => negb (is_char "."%char c)) filename then (b, e)
      else (p, [])
  | None => (p, [])
  end.

Definition splitext (p : string) : string * string :=
  let (b, e) := splitext_text (chars p) in (str b, str e).

(** [str.lower] on one character and on a string. *)
Definition lower_char (c : ascii) : ascii :=
  let n := nat_of_ascii c in
  if (((65 <=? n) && (n <=? 90)) || ((192 <=? n) && (n <=? 214))
      || ((216 <=? n) && (n <=? 222)))%nat
  then ascii_of_nat (n + 32) else c.

Definition lower (s : string) : string := str (map lower_char (chars s)).

(** The loop of lines 54-62: the title and the length are only logged. *)
Fixpoint info_attempts (attempts : nat) (y : yt P) : M unit :=
  match attempts with
  | O => ret tt
  | S attempts' =>
      let* got := try_except
                    (let* _ := yt_title P y in
                     let* _ := yt_length P y in
                     ret true)
                    (fun _ => ret false) in
      if got then ret tt else info_attempts attempts' y
  end.

(** The loop of lines 69-76: it ends at the first stream. *)
Fixpoint stream_attempts (attempts : nat) (y : yt P) : M (option (stream P)) :=
  match attempts with
  | O => ret None
  | S attempts' =>
      let* s := try_except (first_audio_stream P y) (fun _ => ret None) in
      match s with
      | Some st => ret (Some st)
      | None => stream_attempts attempts' y
      end
  end.

(** The loop of lines 84-91: it ends at the first download that returns. *)
Fixpoint download_attempts (attempts : nat) (st : stream P) : M (option string) :=
  match attempts with
  | O => ret None
  | S attempts' =>
      let* r := try_except
                  (let* f := stream_download P st (temp_dir P) in ret (Some f))
                  (fun _ => ret None) in
      match r with
      | Some f => ret (Some f)
      | None => download_attempts attempts' st
      end
  end.

(** Lines 97-114: the conversion of the downloaded file. *)
Definition to_mp3 (audio_file : string) : M (option string) :=
  let (base, ext) := splitext audio_file in
  let mp3_file := base ++ ".mp3" in
  if negb (String.eqb (lower ext) ".mp3") then
    try_except
      (let* _ := convert_to_mp3 P audio_file mp3_file in
       let* _ := os_remove_on (refuses P) audio_file in
       ret (Some mp3_file))
      (fun _ => ret (Some audio_file))
  else ret (Some audio_file).

Definition download_audio (video_url : string) : M (option string) :=
  try_except
    (let* y := new_youtube P video_url in
     let* _ := info_attempts 3 y in
     let* audio_stream := stream_attempts 3 y in
     match audio_stream with
     | None => ret None
     | Some st =>
         let* audio_file := download_attempts 3 st in
         if negb (truthy audio_file) then ret None
         else to_mp3 (get_or audio_file "")
     end)
    (fun _ => ret None).

(** *** [get_captions], lines 273-370 *)

(** [' '.join(lines)] for the lines of lines 309-312 and 354-357. *)
Definition caption_text (texts : list (option string)) : string :=
  str (join (chars " ")
         (map (fun t => strip (chars (get_or t "")))
              (List.filter truthy texts))).

Definition text_of_xml (xml : string) : M string :=
  let* texts := xml_texts P xml in ret (caption_text texts).

(** Lines 287-315, without their handler. *)
Definition pytube_captions (video_id : string) : M (option string) :=
  let* y := new_youtube P ("https://www.youtube.com/watch?v=" ++ video_id) in
  let* captions := yt_captions P y in
  match captions with
  | [] => ret None
  | first :: _ =>
      let caption_track :=
        match List.filter (fun c => Fixed.str_startswith "en" (code c)) captions with
        | en_caption :: _ => en_caption
        | [] => first
        end in
      let* xml := xml_captions caption_track in
      let* text := text_of_xml xml in
      ret (Some text)
  end.

(** Lines 321-360, without their handler. *)
Definition timedtext (video_id : string) : M (option string) :=
  let* response :=
    requests_get P ("https://www.youtube.com/api/timedtext?v=" ++ video_id
                    ++ "&type=list") in
  if (Fixed.status_code response =? 200)%Z then
    let* tracks := xml_tracks P (Fixed.body response) in
    let track_elem :=
      match List.filter
              (fun t => Fixed.str_startswith "en" (get_or (lang_code t) ""))
              tracks with
      | track :: _ => Some track
      | [] => match tracks with
              | track :: _ => Some track
              | [] => None
              end
      end in
    match track_elem with
    | Some track =>
        if (0 <? children track)%nat then
          let caption_url :=
            "https://www.youtube.com/api/timedtext?v=" ++ video_id
            ++ "&lang=" ++ get_or (lang_code track) "None"
            ++ "&name=" ++ get_or (name track) "" in
          let* caption_response := requests_get P caption_url in
          if (Fixed.status_code caption_response =? 200)%Z then
            let* text := text_of_xml (Fixed.body caption_response) in
            ret (Some text)
          else ret None
        else ret None
    | None => ret None
    end
  else ret None.

Definition get_captions (video_id : string) : M (option string) :=
  try_except
    (let* from_pytube :=
       try_except (pytube_captions video_id) (fun _ => ret None) in
     match from_pytube with
     | Some text => ret (Some text)
     | None =>
         let* from_request :=
           try_except (timedtext video_id) (fun _ => ret None) in
         match from_request with
         | Some text => ret (Some text)
         | None => ret None
         end
     end)
    (fun _ => ret None).

(** *** [get_youtube_transcript_api], lines 372-445 *)

Definition instances : list string :=
  ["https://invidious.snopyta.org"; "https://invidious.kavin.rocks";
   "https://vid.puffyan.us"; "https://yt.artemislena.eu"].

(** Lines 404-429: the text of the captions, when there is one. *)
Definition instance_captions (video_id instance : string)
    (data : Fixed.VideoDetails) : M (option string) :=
  match Fixed.v_captions data with
  | Some (first :: rest) =>
      let captions := first :: rest in
      let caption :=
        match List.filter Fixed.english captions with
        | en :: _ => en
        | [] => first
        end in
      let caption_url :=
        instance ++ "/api/v1/captions/" ++ video_id ++ "?label="
        ++ get_or (Fixed.c_label caption) "None" in
      let* caption_response := requests_get P caption_url in
      if (Fixed.status_code caption_response =? 200)%Z then
        let* caption_data := json_caption_lines P (Fixed.body caption_response) in
        match caption_data with
        | Some entries =>
            match List.filter (fun l => bool_decide (is_Some l)) entries with
            | [] => ret None
            | lines =>
                ret (Some (str (join (chars " ")
                                  (map (fun l => chars (get_or l "")) lines))))
            end
        | None => ret None
        end
      else ret None
  | _ => ret None
  end.

(** The body of the loop over the instances, lines 395-439. *)
Definition try_instance (video_id instance : string) : M (option string) :=
  try_except
    (let* response :=
       requests_get P (instance ++ "/api/v1/videos/" ++ video_id) in
     if (Fixed.status_code response =? 200)%Z then
       let* data := json_video P (Fixed.body response) in
       let* from_captions := instance_captions video_id instance data in
       match from_captions with
       | Some text => ret (Some text)
       | None =>
           let title := get_or (Fixed.v_title data) "" in
           let description := get_or (Fixed.v_description data) "" in
           if negb (String.eqb title "") && negb (String.eqb description "")
           then ret (Some (Fixed.composite title description))
           else ret None
       end
     else ret None)
    (fun _ => ret None).

Definition get_youtube_transcript_api (video_id : string) : M (option string) :=
  try_except
    (first_some (try_instance video_id) instances)
    (fun _ => ret None).

(** The service object. *)
Definition service : Pytube.Self.t :=
  Pytube.Self.mk
    get_video_metadata
    (Pytube.extract_video_id
       (fun youtube_url =>
          let* y := new_youtube P youtube_url in yt_video_id P y))
    download_audio transcribe_audio get_captions get_youtube_transcript_api
    (chat_completion P) (refuses P).

End Service.

End PytubeMethods.

(* ===================================================================== *)
(** * Collaborators of the pytube implementation *)
(* ===================================================================== *)

Module PytubeScenarios.
Import PyStr Effects PytubeMethods.

(** A machine on which pytube is broken, no audio tool is installed and the
    OpenAI client is not configured, while every HTTP request is answered
    with status 200 and the decoders give [tracks], [texts] and [details]. *)
Definition online (tracks : list Track) (texts : list (option string))
    (details : Fixed.VideoDetails) : Backends :=
  mkBackends unit unit "/tmp/yt"
    (fun _ => raise (Error "HTTP Error 400: Bad Request"))
    (fun _ => raise AttributeError) (fun _ => raise AttributeError)
    (fun _ => raise AttributeError) (fun _ => raise AttributeError)
    (fun _ => raise AttributeError) (fun _ => raise AttributeError)
    (fun _ => raise AttributeError) (fun _ => raise AttributeError)
    (fun _ => raise AttributeError)
    (fun _ _ => raise OSError)
    (fun _ _ => raise OSError)
    (fun _ => raise (Error "no API key"))
    (fun _ => raise (Error "no API key"))
    (fun _ => ret (Fixed.mkResponse 200 "..."))
    (fun _ => ret texts)
    (fun _ => ret tracks)
    (fun _ => ret details)
    (fun _ => ret None)
    (fun e => match e with Error msg => msg | _ => "error" end)
    (fun _ _ => None).

(** A machine on which pytube works and the download leaves
    [/tmp/yt/audio.mp3], while the OpenAI client is not configured and the
    file cannot be removed. *)
Definition read_only : Backends :=
  mkBackends unit unit "/tmp/yt"
    (fun _ => ret tt)
    (fun _ => ret "A talk") (fun _ => ret "A speaker")
    (fun _ => ret 212%Z) (fun _ => ret 1000%Z)
    (fun _ => ret None) (fun _ => ret "dQw4w9WgXcQ")
    (fun _ => ret "https://i.ytimg.com/vi/dQw4w9WgXcQ/hq720.jpg")
    (fun _ => ret [])
    (fun _ => ret (Some tt))
    (fun _ dir w =>
       (Ok (dir ++ "/audio.mp3")%string,
        mkWorld (<[(dir ++ "/audio.mp3")%string := "ID3..."]> (fs w)) (calls w)))
    (fun _ _ => raise OSError)
    (fun _ => raise (Error "no API key"))
    (fun _ => raise (Error "no API key"))
    (fun _ => raise (Error "connection refused"))
    (fun _ => ret [])
    (fun _ => ret [])
    (fun _ => raise (Error "no payload"))
    (fun _ => ret None)
    (fun e => match e with Error msg => msg | _ => "error" end)
    (fun _ _ => Some (Error "PermissionError")).

End PytubeScenarios.

(* ===================================================================== *)
(** * Scripted collaborators *)
(* ===================================================================== *)

(** Collaborators that follow a script and record what they are asked. *)
Module Scenarios.
Import PyStr Effects Fixed FixedMethods.

(** An HTTP client that records the URL of every request in the world and
    answers the request made after [n] recorded calls with [script n]. *)
Definition scripted (script : nat -> res Response)
  : string -> string -> string -> M Response :=
  fun url _ _ w =>
    (script (List.length (calls w)), mkWorld (fs w) (calls w ++ [url])).

(** A request that the retry loops count as failed: it raised, or its
    status is not 200. *)
Definition failed (r : res Response) : bool :=
  match r with
  | Ok response => negb (status_code response =? 200)%Z
  | Raise _ => true
  end.

(** The requests of a retry loop with [budget] attempts that starts after
    [n] recorded calls: it stops at the first answer that did not fail. *)
Fixpoint requests_made (script : nat -> res Response) (n budget : nat) : nat :=
  match budget with
  | O => O
  | S budget' =>
      if failed (script n) then S (requests_made script (S n) budget') else 1
  end.

(** A client whose first request times out, whose second one is refused
    and which answers from then on, with a caption text that is too short. *)
Definition flaky : nat -> res Response :=
  fun n => match n with
           | 0 => Raise (Error "timeout")
           | 1 => Ok (mkResponse 503 "")
           | _ => Ok (mkResponse 200 "too short")
           end.

(** Mirrors behind a scripted HTTP client, with a fixed reordering in place
    of the shuffle. *)
Definition mirrors (perm : list string -> list string)
    (instances agents : list string) (script : nat -> res Response)
    (captions : option (list CaptionItem)) (details : VideoDetails) : Backends :=
  mkBackends "/tmp/yt" instances agents
    (ret "agent/1.0") (fun l => ret (perm l)) (ret "0a1b2c3d")
    (fun _ _ => ret None)
    (fun _ => ret None)
    (raise ImportError) (fun _ => ret None)
    (raise ImportError) (ret None) (fun _ _ => ret None)
    (scripted script)
    (fun _ => ret captions)
    (fun _ => ret details).

(** The URLs of the two endpoints of a mirror. *)
Definition captions_url (video_id instance : string) : string :=
  instance ++ "/api/v1/captions/" ++ video_id.
Definition videos_url (video_id instance : string) : string :=
  instance ++ "/api/v1/videos/" ++ video_id.

(** An HTTP client that follows a script as [scripted] does and records,
    for every request, the user agent it was made with and the URL. *)
Definition request_line (url user_agent : string) : string :=
  user_agent ++ " GET " ++ url.

Definition recording (script : nat -> res Response)
  : string -> string -> string -> M Response :=
  fun url user_agent _ w =>
    (script (List.length (calls w)),
     mkWorld (fs w) (calls w ++ [request_line url user_agent])).

(** The (mirror, user agent) pairs in the order of the two loops of lines
    530-534, for the reordering [perm] in place of [random.shuffle]: the
    agents of a mirror are those of the mirror before it, reordered once
    more. *)
Fixpoint visits (perm : list string -> list string)
    (instances agents : list string) : list (string * string) :=
  match instances with
  | [] => []
  | instance :: instances' =>
      map (pair instance) (perm agents) ++ visits perm instances' (perm agents)
  end.

(** The requests of a pair whose requests all fail, when the first of them
    is the one after [n] recorded calls: the captions endpoint, and the
    videos endpoint unless the first request raised. *)
Definition pair_requests (script : nat -> res Response) (video_id : string)
    (n : nat) (visit : string * string) : list string :=
  let (instance, user_agent) := visit in
  request_line (captions_url video_id instance) user_agent
  :: match script n with
     | Raise _ => []
     | Ok _ => [request_line (videos_url video_id instance) user_agent]
     end.

Fixpoint trace (script : nat -> res Response) (video_id : string) (n : nat)
    (pairs : list (string * string)) : list string :=
  match pairs with
  | [] => []
  | visit :: pairs' =>
      let here := pair_requests script video_id n visit in
      here ++ trace script video_id (n + List.length here) pairs'
  end.

(** A client that refuses its first request, whose second and third
    requests time out, and which refuses every request from then on. *)
Definition failing : nat -> res Response :=
  fun n => match n with
           | 1 | 2 => Raise (Error "timeout")
           | _ => Ok (mkResponse 503 "")
           end.

(** Mirrors behind the recording client, with a fixed reordering in place
    of the shuffle. *)
Definition observed_mirrors (perm : list string -> list string)
    (instances agents : list string) (script : nat -> res Response) : Backends :=
  mkBackends "/tmp/yt" instances agents
    (ret "agent/1.0") (fun l => ret (perm l)) (ret "0a1b2c3d")
    (fun _ _ => ret None)
    (fun _ => ret None)
    (raise ImportError) (fun _ => ret None)
    (raise ImportError) (ret None) (fun _ _ => ret None)
    (recording script)
    (fun _ => ret None)
    (fun _ => raise (Error "no payload")).

(** Moving the first element to the end. *)
Definition rotate (l : list string) : list string :=
  match l with
  | [] => []
  | x :: l' => l' ++ [x]
  end.




(** A yt-dlp that writes the audio next to its output template. *)
Definition ydl_writes : string -> string -> string -> M unit :=
  fun outtmpl _ _ w =>
    (Ok tt, mkWorld (<[(outtmpl ++ ".mp3")%string := "ID3..."]> (fs w)) (calls w)).

(** A transcript library over a catalogue of two transcripts, the manual
    English one and the generated English one, each given by its text
    entries or by the exception that looking it up raises. *)
Definition no_transcript_found : exn := Error "NoTranscriptFound".

Definition catalogue (manual generated : res (list string)) : Api :=
  mkApi unit (list string)
    (fun e => match e with
              | Error msg => String.eqb msg "NoTranscriptFound"
              | _ => false
              end)
    (fun _ _ => ret tt)
    (fun _ _ w => (manual, w))
    (fun _ _ w => (generated, w))
    (fun _ => ret [])
    (fun _ => "en")
    (fun t _ => ret t)
    (fun t => ret t)
    load_proxies
    (fun l => match l with
              | p :: _ => ret p
              | [] => raise IndexError
              end).

End Scenarios.

Import PyStr Captions Effects Doubles.

(* ===================================================================== *)
(** * Runs on concrete inputs *)
(* ===================================================================== *)

(** The primitives agree with Python on the cases that distinguish them. *)
Example split_ex :
  map str (split (chars "v=") (chars "a?v=ID&v=x")) = ["a?"; "ID&"; "x"]
  /\ map str (split (chars "aa") (chars "aaa")) = [""; "a"]
  /\ map str (split (chars "aa") (chars "aaaa")) = [""; ""; ""]
  /\ map str (split NL []) = [""].
Proof. repeat split. Qed.

Example strip_ex :
  str (strip (chars "  a b  ")) = "a b" /\ str (strip (chars "   ")) = "".
Proof. split; reflexivity. Qed.

Example anchors_ex :
  re_arrow (chars "-->" ++ NL)%list = true
  /\ re_arrow (chars "-->" ++ NL ++ NL)%list = false
  /\ re_index (chars "12" ++ NL)%list = true
  /\ re_index NL = false.
Proof. repeat split. Qed.

Example parse_vtt_ex :
  parse_vtt ("WEBVTT" ++ str NL ++ str NL ++ "00:00:01.000 --> 00:00:04.000" ++ str NL
             ++ "  Hello there " ++ str NL ++ str NL ++ "00:04 --> 00:06" ++ str NL ++ "General Kenobi")
  = "Hello there General Kenobi".
Proof. vm_compute. reflexivity. Qed.

Example parse_srt_ex :
  parse_srt ("1" ++ str NL ++ "00:00:01,000 --> 00:00:04,000" ++ str NL
             ++ "Hello there" ++ str NL ++ str NL ++ "2" ++ str NL
             ++ "00:00:05,000 --> 00:00:06,000" ++ str NL ++ "General Kenobi")
  = "Hello there General Kenobi".
Proof. vm_compute. reflexivity. Qed.

Example parse_generic_ex :
  parse_generic (" a " ++ str NL ++ "  b  ") = " a b ".
Proof. vm_compute. reflexivity. Qed.

Example slice_to_ex :
  Pytube.slice_to 2 "abc" = "ab" /\ Pytube.slice_to 5 "abc" = "abc"
  /\ Pytube.slice_to (-1) "abc" = "ab" /\ Pytube.slice_to (-5) "abc" = "".
Proof. repeat split. Qed.

(** With whisper installed, the transcription is returned and the audio
    file is gone; without any speech-to-text package, [None] is returned and
    the file is gone as well. *)
Example transcribe_audio_ex :
  let w := mkWorld {[ "/tmp/yt/audio-0a1b2c3d.mp3" := "ID3..." ]} [] in
  Fixed.transcribe_audio (with_whisper (Some "hello")) "/tmp/yt/audio-0a1b2c3d.mp3" w
  = (Ok (Some "hello"), empty_world)
  /\ Fixed.transcribe_audio (offline None) "/tmp/yt/audio-0a1b2c3d.mp3" w
     = (Ok None, empty_world).
Proof. split; vm_compute; reflexivity. Qed.

(** The orchestrator on doubles: the third strategy passes the gate. *)
Example process_youtube_url_ex :
  Fixed.process_youtube_url (offline (Some (sample_info 0)))
    (fakes None (Some "short") None (Some (str_mul "c" 800)) None)
    sample_url empty_world
  = (Ok (Some (str_mul "c" 800),
         Fixed.metadata_of_info (sample_info 0) sample_url),
     called [method1; method2; method3] empty_world).
Proof. vm_compute. reflexivity. Qed.

(** The id resolver of the pytube version on a URL of the fourth pattern. *)
Example pytube_user_pattern_ex :
  Pytube.extract_video_id (fun _ => ret "never")
    "https://www.youtube.com/user/someone/videos/clip" empty_world
  = (Ok None, empty_world).
Proof. vm_compute. reflexivity. Qed.

(** [os.path.splitext] and [str.lower] on the cases that distinguish them. *)
Example splitext_ex :
  PytubeMethods.splitext "/tmp/yt/clip.webm" = ("/tmp/yt/clip", ".webm")
  /\ PytubeMethods.splitext "/tmp/x.y/file" = ("/tmp/x.y/file", "")
  /\ PytubeMethods.splitext "a/.bashrc" = ("a/.bashrc", "")
  /\ PytubeMethods.splitext "a/..x.mp3" = ("a/..x", ".mp3")
  /\ PytubeMethods.splitext "a/b.c.d" = ("a/b.c", ".d")
  /\ PytubeMethods.splitext "a." = ("a", ".")
  /\ PytubeMethods.lower ".Mp3" = ".mp3".
Proof. repeat split. Qed.

(** The methods of the pytube version on a machine where pytube is broken
    and the HTTP endpoints answer: the metadata falls back to the title
    ["Unknown"] with the message of the exception, the captions come from
    the direct request when the track element has a child and from nowhere
    when it has none, and the run ends with the text of the alternative
    method. *)
Example pytube_methods_ex :
  let P := PytubeScenarios.online [PytubeMethods.mkTrack (Some "en") None 0]
             [Some " hello "; None; Some ""; Some "world"] (sample_details 1) in
  PytubeMethods.get_video_metadata P sample_url empty_world
  = (Ok (mkMetadata "Unknown" None None None None None None sample_url
           (Some "HTTP Error 400: Bad Request")), empty_world)
  /\ PytubeMethods.get_captions P "dQw4w9WgXcQ" empty_world = (Ok None, empty_world)
  /\ PytubeMethods.get_captions
       (PytubeScenarios.online [PytubeMethods.mkTrack (Some "en") None 1]
          [Some " hello "; None; Some ""; Some "world"] (sample_details 1))
       "dQw4w9WgXcQ" empty_world
     = (Ok (Some "hello world"), empty_world)
  /\ PytubeMethods.download_audio P sample_url empty_world = (Ok None, empty_world)
  /\ Pytube.process_youtube_url (PytubeMethods.service P) sample_url empty_world
     = (Ok (Some (Fixed.composite "A talk" "d"),
            mkMetadata "Unknown" None None None None None None sample_url
              (Some "HTTP Error 400: Bad Request")), empty_world).
Proof. repeat split. Qed.

(** A run of the pytube version that raises: the transcription fails, the
    removal of line 480 is refused and so is the one of line 491, in the
    handler; with doubles for the methods, and with the service's own
    methods. *)
Example pytube_refused_ex :
  Pytube.process_youtube_url
    (pytube_locked (minimal_metadata sample_url) "dQw4w9WgXcQ"
       "/tmp/yt/audio.mp3" (Error "no API key") (Error "PermissionError"))
    sample_url empty_world
  = (Raise (Error "PermissionError"),
     mkWorld (<["/tmp/yt/audio.mp3" := "ID3..."]> ∅)
             ["get_video_metadata"; "extract_video_id"; "download_audio"])
  /\ Pytube.process_youtube_url (PytubeMethods.service PytubeScenarios.read_only)
       sample_url empty_world
     = (Raise (Error "PermissionError"),
        mkWorld (<["/tmp/yt/audio.mp3" := "ID3..."]> ∅) []).
Proof. split; reflexivity. Qed.

(** The mirror strategy behind a client all of whose requests fail: the
    user agents of the second mirror are those of the first, reordered once
    more. *)
Example mirror_order_ex :
  Scenarios.visits Scenarios.rotate ["https://b.example"; "https://a.example"]
    ["agent/1.0"; "agent/2.0"; "agent/3.0"]
  = [("https://b.example", "agent/2.0"); ("https://b.example", "agent/3.0");
     ("https://b.example", "agent/1.0"); ("https://a.example", "agent/3.0");
     ("https://a.example", "agent/1.0"); ("https://a.example", "agent/2.0")].
Proof. reflexivity. Qed.

(** The transcript-API methods on a catalogue with a generated transcript
    only, and the audio download next to a yt-dlp that writes the file. *)
Example fixed_methods_ex :
  FixedMethods.get_transcript_with_youtube_transcript_api
    (Scenarios.catalogue (Raise Scenarios.no_transcript_found)
                         (Ok ["never gonna"; "give you up"]))
    "dQw4w9WgXcQ" empty_world
  = (Ok (Some "never gonna give you up"), empty_world)
  /\ FixedMethods.get_transcript_from_proxy_service (offline None)
       (Scenarios.catalogue (Raise Scenarios.no_transcript_found)
                            (Raise Scenarios.no_transcript_found))
       "dQw4w9WgXcQ" empty_world
     = (Ok None, empty_world)
  /\ FixedMethods.replace ".mp3" "" "/tmp/a.mp3s/audio-1.mp3" = "/tmp/as/audio-1"
  /\ fst (FixedMethods.download_audio_from_youtube (offline None)
            Scenarios.ydl_writes sample_url empty_world)
     = Ok (Some "/tmp/yt/audio-0a1b2c3d.mp3").
Proof. repeat split. Qed.

(* ===================================================================== *)
(** * Facts about the string primitives *)
(* ===================================================================== *)

Section TextFacts.
Local Open Scope list_scope.

Lemma match_prefix_app_space pat l r :
  rejects_space pat ->
  match_prefix pat (l ++ " "%char :: r) = match_prefix pat l.
Proof.
  intros Hpat. revert l.
  induction Hpat as [|p pat Hp _ IH]; intros l; [reflexivity|].
  destruct l as [|c l]; simpl.
  - now rewrite Hp.
  - now rewrite IH.
Qed.

Lemma search_app_space pat l r :
  pat <> [] -> rejects_space pat ->
  search pat (l ++ " "%char :: r) = search pat l || search pat r.
Proof.
  intros Hne Hpat.
  induction l as [|c l IH].
  - destruct pat as [|p pat]; [congruence|].
    simpl. inversion Hpat as [|? ? Hp _]; subst. now rewrite Hp.
  - change ((c :: l) ++ " "%char :: r) with (c :: (l ++ " "%char :: r)).
    cbn [search].
    rewrite IH.
    change (c :: l ++ " "%char :: r) with ((c :: l) ++ " "%char :: r).
    rewrite (match_prefix_app_space pat (c :: l) r Hpat).
    now rewrite orb_assoc.
Qed.

Lemma match_prefix_self p r : match_prefix (map is_char p) (p ++ r) = true.
Proof.
  induction p as [|c p IH]; [reflexivity|].
  simpl. unfold is_char at 1. now rewrite Ascii.eqb_refl.
Qed.

Lemma search_app_r pat l s : search pat s = true -> search pat (l ++ s) = true.
Proof.
  intros H. induction l as [|c l IH]; [exact H|].
  simpl. rewrite IH. apply orb_true_r.
Qed.

Lemma search_of_match pat s : match_prefix pat s = true -> search pat s = true.
Proof.
  destruct s; simpl; intros H; [exact H|]. now rewrite H.
Qed.

Lemma contains_mid p l r : contains p (l ++ p ++ r) = true.
Proof.
  unfold contains. apply search_app_r, search_of_match, match_prefix_self.
Qed.

(** ** [split] on a one-character separator *)

Lemma split_go_char_cons c x s :
  split_go [c] 0 (x :: s) =
  if Ascii.eqb c x
  then ([], let (f, fs) := split_go [c] 0 s in f :: fs)
  else let (f, fs) := split_go [c] 0 s in (x :: f, fs).
Proof.
  cbn [split_go startswith map match_prefix length Nat.sub].
  unfold is_char. now rewrite andb_true_r.
Qed.

Lemma split_char_no_sep c s : ~ In c s -> split [c] s = [s].
Proof.
  unfold split. induction s as [|x s IH]; intros Hc; [reflexivity|].
  rewrite split_go_char_cons.
  destruct (Ascii.eqb_spec c x) as [->|Hne].
  - exfalso. apply Hc. now left.
  - assert (Hs : ~ In c s) by (intros Hin; apply Hc; now right).
    specialize (IH Hs).
    destruct (split_go [c] 0 s) as [f fs]. now inversion IH.
Qed.

Lemma split_char_fields c s : Forall (fun f => ~ In c f) (split [c] s).
Proof.
  unfold split. induction s as [|x s IH].
  - simpl. constructor; [intros []|constructor].
  - rewrite split_go_char_cons.
    destruct (split_go [c] 0 s) as [f fs].
    destruct (Ascii.eqb_spec c x) as [->|Hne].
    + constructor; [intros []|exact IH].
    + inversion IH as [|? ? Hf Hfs]; subst.
      constructor; [|exact Hfs].
      intros [Heq|Hin]; [congruence|contradiction].
Qed.

Lemma split_char_app c l r :
  ~ In c l ->
  split [c] (l ++ c :: r) = l :: split [c] r.
Proof.
  unfold split. induction l as [|x l IH]; intros Hc.
  - change ([] ++ c :: r) with (c :: r).
    rewrite split_go_char_cons, Ascii.eqb_refl.
    now destruct (split_go [c] 0 r).
  - change ((x :: l) ++ c :: r) with (x :: (l ++ c :: r)).
    rewrite split_go_char_cons.
    destruct (Ascii.eqb_spec c x) as [->|Hne].
    + exfalso. apply Hc. now left.
    + assert (Hl : ~ In c l) by (intros Hin; apply Hc; now right).
      specialize (IH Hl).
      destruct (split_go [c] 0 (l ++ c :: r)) as [f fs].
      destruct (split_go [c] 0 r) as [g gs].
      now inversion IH.
Qed.

Lemma split_char_join c ls :
  ls <> [] -> Forall (fun f => ~ In c f) ls ->
  split [c] (join [c] ls) = ls.
Proof.
  intros Hne Hall. induction Hall as [|l ls Hl Hls IH]; [congruence|].
  destruct ls as [|l2 ls].
  - simpl. now apply split_char_no_sep.
  - change (join [c] (l :: l2 :: ls)) with (l ++ c :: join [c] (l2 :: ls)).
    rewrite split_char_app by exact Hl.
    now rewrite IH.
Qed.

(** ** [strip] *)

Lemma starts_solid_app l r : l <> [] -> starts_solid (l ++ r) = starts_solid l.
Proof. destruct l; [congruence|reflexivity]. Qed.

Lemma starts_solid_nonempty s : starts_solid s = true -> s <> [].
Proof. destruct s; [discriminate|congruence]. Qed.

Lemma lstrip_solid s : starts_solid s = true -> lstrip s = s.
Proof.
  destruct s as [|c s]; [reflexivity|]. simpl.
  now destruct (is_space c).
Qed.

Lemma lstrip_decompose s :
  exists p, s = p ++ lstrip s /\ forallb is_space p = true
            /\ (lstrip s = [] \/ starts_solid (lstrip s) = true).
Proof.
  induction s as [|c s (p & Hs & Hp & Hl)].
  - exists []. repeat split; now left.
  - simpl. destruct (is_space c) eqn:Hc.
    + exists (c :: p). repeat split.
      * simpl. now rewrite <- Hs.
      * simpl. now rewrite Hc, Hp.
      * exact Hl.
    + exists []. repeat split. right. simpl. now rewrite Hc.
Qed.

Lemma all_space_not_solid p : forallb is_space p = true -> starts_solid p = false.
Proof.
  destruct p as [|c p]; [reflexivity|]. simpl.
  intros H. apply andb_prop in H as [-> _]. reflexivity.
Qed.

Lemma forallb_rev {A} (f : A -> bool) l : forallb f (rev l) = forallb f l.
Proof.
  induction l as [|x l IH]; [reflexivity|].
  simpl. rewrite forallb_app, IH. simpl. rewrite andb_true_r. apply andb_comm.
Qed.

Lemma strip_stripped s : stripped (strip s).
Proof.
  unfold strip, rstrip.
  destruct (lstrip_decompose s) as (p & _ & _ & Ha).
  set (a := lstrip s) in *. clearbody a. clear p s.
  destruct Ha as [->|Ha]; [now left|].
  destruct (lstrip_decompose (rev a)) as (q & Hq & Hsp & Hb).
  set (b := lstrip (rev a)) in *. clearbody b.
  assert (Harev : a = rev b ++ rev q).
  { rewrite <- (rev_involutive a), Hq. apply rev_app_distr. }
  assert (Hbne : b <> []).
  { intros ->. simpl in Harev. subst a.
    rewrite all_space_not_solid in Ha; [discriminate|].
    now rewrite forallb_rev. }
  destruct Hb as [Hb|Hb]; [contradiction|].
  right. split.
  - rewrite <- Ha, Harev. symmetry. apply starts_solid_app.
    intros Hr. apply Hbne. rewrite <- (rev_involutive b), Hr. reflexivity.
  - now rewrite rev_involutive.
Qed.

Lemma strip_fixed s : stripped s -> strip s = s.
Proof.
  unfold strip, rstrip. intros [->|[H1 H2]]; [reflexivity|].
  rewrite (lstrip_solid s H1), (lstrip_solid (rev s) H2).
  apply rev_involutive.
Qed.

Lemma In_lstrip c s : In c (lstrip s) -> In c s.
Proof.
  induction s as [|x s IH]; [tauto|]. simpl.
  destruct (is_space x); [right; now apply IH|tauto].
Qed.

Lemma In_strip c s : In c (strip s) -> In c s.
Proof.
  unfold strip, rstrip. intros H.
  apply in_rev, In_lstrip in H. apply in_rev in H. now apply In_lstrip.
Qed.

(** ** [join] *)

Lemma join_cons_cons sep l l2 ls :
  join sep (l :: l2 :: ls) = l ++ sep ++ join sep (l2 :: ls).
Proof. reflexivity. Qed.

Lemma In_join c sep ls :
  In c (join sep ls) -> In c sep \/ exists l, In l ls /\ In c l.
Proof.
  induction ls as [|l ls IH]; [intros []|].
  destruct ls as [|l2 ls].
  - simpl. intros H. right. exists l. split; [now left|exact H].
  - rewrite join_cons_cons. intros H.
    apply in_app_or in H as [H|H]; [right; exists l; split; [now left|exact H]|].
    apply in_app_or in H as [H|H]; [now left|].
    destruct (IH H) as [Hs|(l' & Hl' & Hc)]; [now left|].
    right. exists l'. split; [now right|exact Hc].
Qed.

Lemma join_nonempty sep l ls : l <> [] -> join sep (l :: ls) <> [].
Proof.
  destruct ls; [trivial|]. rewrite join_cons_cons.
  destruct l; [congruence|discriminate].
Qed.

(** Lines that are not empty and stripped join into a stripped text. *)
Lemma join_stripped ls :
  Forall (fun l => l <> [] /\ stripped l) ls -> stripped (join SP ls).
Proof.
  intros Hall. destruct ls as [|l ls]; [now left|]. right.
  assert (Hsolid : forall l, l <> [] /\ stripped l ->
                     starts_solid l = true /\ starts_solid (rev l) = true).
  { intros l' [Hne [->|H]]; [congruence|exact H]. }
  split.
  - inversion Hall as [|? ? Hl _]; subst.
    destruct (Hsolid _ Hl) as [H1 _].
    destruct ls as [|l2 ls]; [exact H1|].
    rewrite join_cons_cons, starts_solid_app; [exact H1|apply Hl].
  - revert l Hall. induction ls as [|l2 ls IH]; intros l Hall.
    + inversion Hall as [|? ? Hl _]; subst. apply (Hsolid _ Hl).
    + inversion Hall as [|? ? Hl Hrest]; subst.
      rewrite join_cons_cons, !rev_app_distr, <- app_assoc.
      rewrite starts_solid_app; [now apply IH|].
      intros Hr. inversion Hrest as [|? ? Hl2 _]; subst.
      apply (join_nonempty SP l2 ls (proj1 Hl2)).
      apply (f_equal (@rev ascii)) in Hr.
      now rewrite rev_involutive in Hr.
Qed.

(** ** [re.sub(r'\s+', ' ', s)] *)

Lemma sub_ws_idem_both s :
  sub_ws false (sub_ws false s) = sub_ws false s
  /\ sub_ws true (sub_ws true s) = sub_ws true s.
Proof.
  induction s as [|c s [IHf IHt]]; [now split|].
  assert (Hsp : is_space " "%char = true) by reflexivity.
  split; cbn [sub_ws]; destruct (is_space c) eqn:Hc; cbn [sub_ws];
    rewrite ?Hsp, ?Hc, ?IHf, ?IHt; reflexivity.
Qed.

End TextFacts.

(* ===================================================================== *)
(** * Facts about the caption parsers *)
(* ===================================================================== *)

Section CaptionFacts.
Local Open Scope list_scope.

(** The loop of the parsers is a filter over the stripped lines. *)
Lemma collect_filter keep content :
  collect keep content = List.filter keep (map strip (split NL content)).
Proof.
  unfold collect.
  enough (H : forall ls acc,
             fold_left (fun lines line =>
                          let line := strip line in
                          if keep line then lines ++ [line] else lines) ls acc
             = acc ++ List.filter keep (map strip ls)) by apply (H _ []).
  induction ls as [|l ls IH]; intros acc; simpl.
  - now rewrite app_nil_r.
  - rewrite IH. destruct (keep (strip l)); [|reflexivity].
    now rewrite <- app_assoc.
Qed.

Lemma re_arrow_no_space s : re_arrow s = true -> ~ In " "%char s.
Proof.
  destruct s as [|a [|b [|c s]]]; try discriminate. cbn [re_arrow].
  unfold is_char. intros H.
  repeat (apply andb_prop in H as [H ?]).
  destruct (Ascii.eqb_spec "-"%char a); [subst|discriminate].
  destruct (Ascii.eqb_spec "-"%char b); [subst|discriminate].
  destruct (Ascii.eqb_spec ">"%char c); [subst|discriminate].
  destruct s as [|d [|e s]]; cbn [at_end] in *; try discriminate.
  - intros [|[|[|[]]]]; discriminate.
  - destruct (Ascii.eqb_spec d "010"%char); [subst|discriminate].
    intros [|[|[|[|[]]]]]; discriminate.
Qed.

Lemma at_end_no_space s : at_end s = true -> ~ In " "%char s.
Proof.
  destruct s as [|d [|e s]]; cbn [at_end]; try discriminate.
  - intros _ [].
  - destruct (Ascii.eqb_spec d "010"%char); [subst|discriminate].
    intros _ [|[]]; discriminate.
Qed.

Lemma digits_to_end_no_space s : digits_to_end s = true -> ~ In " "%char s.
Proof.
  induction s as [|c s IH]; [intros _ []|].
  cbn [digits_to_end]. destruct (is_digit c) eqn:Hc.
  - intros H [Heq|Hin]; [subst; discriminate|now apply IH].
  - apply at_end_no_space.
Qed.

Lemma re_index_no_space s : re_index s = true -> ~ In " "%char s.
Proof.
  destruct s as [|c s]; [discriminate|]. cbn [re_index].
  intros H. apply andb_prop in H as [Hc Hs].
  intros [Heq|Hin]; [subst; discriminate|].
  now apply (digits_to_end_no_space s).
Qed.

Lemma In_space_app l r : In " "%char (l ++ SP ++ r).
Proof. apply in_or_app. right. now left. Qed.

(** Neither test rejects a kept line once a space and more text follow it. *)
Lemma vtt_keep_app l r : vtt_keep l = true -> vtt_keep (l ++ SP ++ r) = true.
Proof.
  unfold vtt_keep, startswith, re_mmss, re_hhmmss, SP. intros H.
  change (l ++ [" "%char] ++ r) with (l ++ " "%char :: r).
  rewrite !match_prefix_app_space by (repeat constructor).
  repeat (apply andb_prop in H as [H ?]).
  destruct l as [|c l]; [discriminate|].
  destruct (re_arrow ((c :: l) ++ " "%char :: r)) eqn:Ha.
  - exfalso. apply (re_arrow_no_space _ Ha), (In_space_app (c :: l) r).
  - repeat (apply andb_true_intro; split); auto.
Qed.

Lemma srt_keep_app l r : srt_keep l = true -> srt_keep (l ++ SP ++ r) = true.
Proof.
  unfold srt_keep, re_mmss, SP. intros H.
  change (l ++ [" "%char] ++ r) with (l ++ " "%char :: r).
  rewrite !match_prefix_app_space by (repeat constructor).
  repeat (apply andb_prop in H as [H ?]).
  destruct l as [|c l]; [discriminate|].
  destruct (re_arrow ((c :: l) ++ " "%char :: r)) eqn:Ha.
  { exfalso. apply (re_arrow_no_space _ Ha), (In_space_app (c :: l) r). }
  destruct (re_index ((c :: l) ++ " "%char :: r)) eqn:Hi.
  { exfalso. apply (re_index_no_space _ Hi), (In_space_app (c :: l) r). }
  repeat (apply andb_true_intro; split); auto.
Qed.

(** The general argument: a line filter that rejects the empty line and is
    stable under [vtt_keep_app] yields a parser that leaves its own output
    unchanged. *)
Section Idempotence.
Variable keep : text -> bool.
Hypothesis keep_nonempty : keep [] = false.
Hypothesis keep_app : forall l r, keep l = true -> keep (l ++ SP ++ r) = true.

Lemma collected_lines content :
  Forall (fun l => (l <> [] /\ stripped l) /\ keep l = true
                   /\ ~ In "010"%char l)
         (collect keep content).
Proof.
  rewrite collect_filter.
  apply List.Forall_forall. intros l Hl.
  apply List.filter_In in Hl as [Hl Hk].
  apply in_map_iff in Hl as (raw & <- & Hraw).
  repeat split.
  - intros He. rewrite He in Hk. congruence.
  - apply strip_stripped.
  - exact Hk.
  - intros Hin. apply In_strip in Hin.
    pose proof (split_char_fields "010"%char content) as Hf. fold NL in Hf.
    rewrite List.Forall_forall in Hf. exact (Hf raw Hraw Hin).
Qed.

Lemma keep_join ls :
  ls <> [] -> Forall (fun l => keep l = true) ls -> keep (join SP ls) = true.
Proof.
  intros Hne Hall. destruct ls as [|l [|l2 ls]]; [congruence| |].
  - now inversion Hall.
  - rewrite join_cons_cons. apply keep_app. now inversion Hall.
Qed.

Lemma parse_join ls :
  Forall (fun l => (l <> [] /\ stripped l) /\ keep l = true
                   /\ ~ In "010"%char l) ls ->
  join SP (collect keep (join SP ls)) = join SP ls.
Proof.
  intros Hall. rewrite collect_filter.
  destruct ls as [|l0 ls0] eqn:Els.
  { cbn. now rewrite keep_nonempty. }
  rewrite <- Els in *. assert (Hne : ls <> []) by (rewrite Els; discriminate).
  clear Els. unfold NL.
  rewrite split_char_no_sep.
  - cbn [map List.filter].
    rewrite strip_fixed.
    + rewrite keep_join; [reflexivity|exact Hne|].
      eapply List.Forall_impl; [|exact Hall]. now intros l (_ & H & _).
    + apply join_stripped.
      eapply List.Forall_impl; [|exact Hall]. now intros l (H & _).
  - intros Hin. apply In_join in Hin as [Hin|(l & Hl & Hin)].
    + destruct Hin as [Hin|[]]. discriminate.
    + rewrite List.Forall_forall in Hall.
      destruct (Hall l Hl) as (_ & _ & Hno). now apply Hno.
Qed.

Lemma parse_idempotent content :
  join SP (collect keep (join SP (collect keep content)))
  = join SP (collect keep content).
Proof. apply parse_join, collected_lines. Qed.

End Idempotence.

Lemma parse_vtt_text_idempotent content :
  parse_vtt_text (parse_vtt_text content) = parse_vtt_text content.
Proof. apply (parse_idempotent vtt_keep); [reflexivity|apply vtt_keep_app]. Qed.

Lemma parse_srt_text_idempotent content :
  parse_srt_text (parse_srt_text content) = parse_srt_text content.
Proof. apply (parse_idempotent srt_keep); [reflexivity|apply srt_keep_app]. Qed.

Lemma chars_str s : chars (str s) = s.
Proof. apply list_ascii_of_string_of_list_ascii. Qed.

Lemma str_chars s : str (chars s) = s.
Proof. apply string_of_list_ascii_of_string. Qed.

(** ** What [strip] does to the lines of a WebVTT document *)

Lemma one_line_spec t : one_line t = true -> ~ In "010"%char t.
Proof.
  unfold one_line. intros H Hin.
  apply negb_true_iff in H.
  assert (Hex : existsb (is_char "010"%char) t = true).
  { apply existsb_exists. exists "010"%char. split; [exact Hin|reflexivity]. }
  congruence.
Qed.

Lemma lstrip_all_space ws : forallb is_space ws = true -> lstrip ws = [].
Proof.
  induction ws as [|c ws IH]; [reflexivity|]. simpl.
  intros H. apply andb_prop in H as [-> H]. now apply IH.
Qed.

Lemma strip_all_space ws : forallb is_space ws = true -> strip ws = [].
Proof. intros H. unfold strip. now rewrite lstrip_all_space. Qed.

Lemma lstrip_app_solid a c :
  is_space c = false -> lstrip (a ++ [c]) = lstrip a ++ [c].
Proof.
  intros Hc. induction a as [|x a IH]; simpl.
  - now rewrite Hc.
  - now destruct (is_space x).
Qed.

Lemma rstrip_cons_solid c s : is_space c = false -> rstrip (c :: s) = c :: rstrip s.
Proof.
  intros Hc. unfold rstrip. simpl.
  rewrite lstrip_app_solid by exact Hc.
  now rewrite rev_app_distr.
Qed.

Lemma match_prefix_rstrip pat t :
  solid_pattern pat -> match_prefix pat t = true ->
  match_prefix pat (rstrip t) = true.
Proof.
  intros Hpat. revert t.
  induction Hpat as [|p pat Hp _ IH]; intros t; [reflexivity|].
  destruct t as [|c t]; [discriminate|]. cbn [match_prefix].
  intros H. apply andb_prop in H as [Hc Ht].
  rewrite rstrip_cons_solid by (now apply Hp).
  cbn [match_prefix]. now rewrite Hc, IH.
Qed.

Lemma match_prefix_strip pat t :
  pat <> [] -> solid_pattern pat -> match_prefix pat t = true ->
  match_prefix pat (strip t) = true.
Proof.
  intros Hne Hpat H. unfold strip.
  rewrite lstrip_solid; [now apply match_prefix_rstrip|].
  destruct pat as [|p pat]; [congruence|].
  destruct t as [|c t]; [discriminate|].
  cbn in H |- *. apply andb_prop in H as [Hc _].
  inversion Hpat as [|? ? Hp _]; subst. now rewrite (Hp c Hc).
Qed.

Lemma is_char_solid a : is_space a = false ->
  forall c, is_char a c = true -> is_space c = false.
Proof.
  intros Ha c Hc. unfold is_char in Hc.
  destruct (Ascii.eqb_spec a c); [now subst|discriminate].
Qed.

Lemma is_digit_solid c : is_digit c = true -> is_space c = false.
Proof.
  unfold is_digit, is_space. cbv zeta. intros H.
  apply andb_prop in H as [H1 H2].
  apply Nat.leb_le in H1, H2.
  repeat (apply orb_false_intro);
    try (apply andb_false_iff; (left; apply Nat.leb_gt; lia) || (right; apply Nat.leb_gt; lia));
    apply Nat.eqb_neq; lia.
Qed.

Lemma mmss_solid :
  solid_pattern [is_digit; is_digit; is_char ":"%char; is_digit; is_digit].
Proof.
  repeat constructor; try exact is_digit_solid; now apply is_char_solid.
Qed.

Lemma webvtt_solid : solid_pattern (map is_char WEBVTT).
Proof. repeat constructor; now apply is_char_solid. Qed.

Lemma match_prefix_app_l pat pat' t :
  match_prefix (pat ++ pat') t = true -> match_prefix pat t = true.
Proof.
  revert t. induction pat as [|p pat IH]; intros t; [reflexivity|].
  destruct t as [|c t]; [discriminate|]. cbn [app match_prefix].
  intros H. apply andb_prop in H as [-> H]. now apply IH.
Qed.

Lemma re_hhmmss_mmss t : re_hhmmss t = true -> re_mmss t = true.
Proof.
  apply (match_prefix_app_l
           [is_digit; is_digit; is_char ":"%char; is_digit; is_digit]
           [is_char ":"%char; is_digit; is_digit]).
Qed.

(** The parser keeps exactly the lines of cue text. *)
Lemma vtt_keep_lines ls :
  forallb vtt_line_ok ls = true ->
  forallb plain_text (vtt_texts ls) = true ->
  List.filter vtt_keep (map strip (map vtt_render ls)) = vtt_texts ls.
Proof.
  induction ls as [|l ls IH]; [reflexivity|].
  cbn [forallb]. intros Hok. apply andb_prop in Hok as [Hl Hok].
  destruct l as [rest|t| |ws|t]; cbn [vtt_texts vtt_render map List.filter forallb];
    intros Hplain.
  - assert (H : startswith WEBVTT (strip (WEBVTT ++ rest)) = true).
    { apply match_prefix_strip;
        [discriminate|apply webvtt_solid|apply match_prefix_self]. }
    unfold vtt_keep. rewrite H, andb_false_r. now apply IH.
  - apply andb_prop in Hl as [_ Ht].
    assert (H : re_mmss (strip t) = true).
    { apply match_prefix_strip; [discriminate|apply mmss_solid|exact Ht]. }
    unfold vtt_keep. rewrite H. cbn [negb]. rewrite andb_false_r. now apply IH.
  - change (vtt_keep (strip (chars "-->"))) with false. now apply IH.
  - apply andb_prop in Hl as [_ Hws].
    rewrite strip_all_space by exact Hws.
    change (vtt_keep []) with false. now apply IH.
  - apply andb_prop in Hplain as [Ht Hplain].
    unfold plain_text in Ht.
    repeat (apply andb_prop in Ht as [Ht ?]).
    rewrite strip_fixed by (right; now split).
    assert (Hk : vtt_keep t = true).
    { unfold vtt_keep.
      destruct (re_hhmmss t) eqn:Hh.
      { apply re_hhmmss_mmss in Hh. rewrite Hh in *. discriminate. }
      destruct t; [discriminate|].
      repeat (apply andb_true_intro; split); auto. }
    rewrite Hk. f_equal. now apply IH.
Qed.

Lemma vtt_render_one_line ls :
  forallb vtt_line_ok ls = true ->
  Forall (fun f => ~ In "010"%char f) (map vtt_render ls).
Proof.
  induction ls as [|l ls IH]; [constructor|].
  cbn [forallb map]. intros H. apply andb_prop in H as [Hl Hok].
  constructor; [|now apply IH].
  destruct l as [rest|t| |ws|t]; cbn [vtt_render vtt_line_ok] in *.
  - intros Hin. apply in_app_or in Hin as [Hin|Hin].
    + cbn in Hin. repeat (destruct Hin as [Hin|Hin]; [discriminate|]). exact Hin.
    + now apply (one_line_spec rest).
  - apply andb_prop in Hl as [Hl _]. now apply one_line_spec.
  - cbn. intros Hin. repeat (destruct Hin as [Hin|Hin]; [discriminate|]). exact Hin.
  - apply andb_prop in Hl as [Hl _]. now apply one_line_spec.
  - apply andb_prop in Hl as [Hl _]. now apply one_line_spec.
Qed.

Lemma parse_vtt_document ls :
  forallb vtt_line_ok ls = true ->
  forallb plain_text (vtt_texts ls) = true ->
  parse_vtt_text (join NL (map vtt_render ls)) = join SP (vtt_texts ls).
Proof.
  intros Hok Hplain. unfold parse_vtt_text. rewrite collect_filter.
  destruct ls as [|l0 ls0] eqn:Els; [reflexivity|].
  rewrite <- Els in *. unfold NL.
  rewrite split_char_join.
  - now rewrite vtt_keep_lines.
  - rewrite Els. discriminate.
  - now apply vtt_render_one_line.
Qed.

Lemma search_join pat ls :
  pat <> [] -> rejects_space pat ->
  search pat (join SP ls) = existsb (search pat) ls.
Proof.
  intros Hne Hpat. induction ls as [|l ls IH].
  - destruct pat; [congruence|reflexivity].
  - destruct ls as [|l2 ls].
    + cbn [join existsb]. now rewrite orb_false_r.
    + rewrite join_cons_cons. unfold SP at 1.
      change (l ++ [" "%char] ++ join SP (l2 :: ls))
        with (l ++ " "%char :: join SP (l2 :: ls)).
      rewrite search_app_space by assumption.
      now rewrite IH.
Qed.

End CaptionFacts.

(* ===================================================================== *)
(** * The caption parser: WebVTT documents and idempotence *)
(* ===================================================================== *)

(** C5, as stated, fails: in a document made of a header, cue timings and two
    lines of cue text, the text line that starts with a time of day is
    dropped, and the time of day inside the other one stays in the output,
    which therefore is not the two text lines joined by a space and still
    holds a digits-colon pattern. *)
Lemma C5_counterexample :
  forallb vtt_line_ok vtt_sample = true
  /\ parse_vtt (vtt_document vtt_sample) = "See you at 10:30"
  /\ parse_vtt (vtt_document vtt_sample) <> str (join SP (vtt_texts vtt_sample))
  /\ has_digits_colon (parse_vtt (vtt_document vtt_sample)) = true.
Proof.
  repeat split; try (vm_compute; reflexivity).
  vm_compute. discriminate.
Qed.

(** C5 (amended): for every WebVTT input made of header lines, cue timing
    lines, lone cue arrows, blank lines and N lines of cue text, where each
    line of cue text has no whitespace at its ends and does not itself start
    with [WEBVTT] or with two digits, a colon and two digits, nor is a cue
    arrow, the WebVTT rule returns exactly those N lines, in order, joined by
    single spaces; and the output holds a digit followed by a colon only if
    one of the text lines does. *)
Theorem C5_webvtt_text_lines (ls : list VttLine) :
  forallb vtt_line_ok ls = true ->
  forallb plain_text (vtt_texts ls) = true ->
  parse_vtt (vtt_document ls) = str (join SP (vtt_texts ls))
  /\ (existsb (search digits_colon) (vtt_texts ls) = false ->
      has_digits_colon (parse_vtt (vtt_document ls)) = false).
Proof.
  intros Hok Hplain.
  assert (Heq : parse_vtt (vtt_document ls) = str (join SP (vtt_texts ls))).
  { unfold parse_vtt, vtt_document. rewrite chars_str.
    now rewrite parse_vtt_document. }
  split; [exact Heq|].
  intros Hnone. unfold has_digits_colon. rewrite Heq, chars_str.
  rewrite search_join; [exact Hnone|discriminate|repeat constructor].
Qed.

Lemma C5_webvtt_text_lines_witness :
  forallb vtt_line_ok vtt_plain_sample = true
  /\ forallb plain_text (vtt_texts vtt_plain_sample) = true
  /\ parse_vtt (vtt_document vtt_plain_sample) = "Hello there General Kenobi".
Proof.
  split; [reflexivity|]. split; [reflexivity|].
  apply (C5_webvtt_text_lines vtt_plain_sample); reflexivity.
Defined.

(** C6: the caption parser is idempotent: for every input text, each of the
    three rules (WebVTT, SRT, generic), and so the parser under any file
    name, returns its own output unchanged when it is run on it again. *)
Theorem C6_parser_idempotent (content : string) :
  parse_vtt (parse_vtt content) = parse_vtt content
  /\ parse_srt (parse_srt content) = parse_srt content
  /\ parse_generic (parse_generic content) = parse_generic content
  /\ forall subtitle_file,
       parse_subtitles subtitle_file (parse_subtitles subtitle_file content)
       = parse_subtitles subtitle_file content.
Proof.
  assert (Hv : parse_vtt (parse_vtt content) = parse_vtt content).
  { unfold parse_vtt. now rewrite chars_str, parse_vtt_text_idempotent. }
  assert (Hs : parse_srt (parse_srt content) = parse_srt content).
  { unfold parse_srt. now rewrite chars_str, parse_srt_text_idempotent. }
  assert (Hg : parse_generic (parse_generic content) = parse_generic content).
  { unfold parse_generic, parse_generic_text. rewrite chars_str.
    now rewrite (proj1 (sub_ws_idem_both _)). }
  repeat split; try assumption.
  intros f. unfold parse_subtitles.
  destruct (endswith (chars ".vtt") (chars f)); [exact Hv|].
  destruct (endswith (chars ".srt") (chars f)); [exact Hs|exact Hg].
Qed.

(* ===================================================================== *)
(** * Facts about the monad and the filesystem *)
(* ===================================================================== *)

Section EffectFacts.
Context {A B : Type}.

Lemma bind_Ok (c : M A) (k : A -> M B) w a w' :
  c w = (Ok a, w') -> bind c k w = k a w'.
Proof. unfold bind. now intros ->. Qed.

Lemma bind_Raise (c : M A) (k : A -> M B) w e w' :
  c w = (Raise e, w') -> bind c k w = (Raise e, w').
Proof. unfold bind. now intros ->. Qed.

Lemma try_except_Ok (c : M A) h w a w' :
  c w = (Ok a, w') -> try_except c h w = (Ok a, w').
Proof. unfold try_except, try_except_when. now intros ->. Qed.

Lemma try_except_Raise (c : M A) h w e w' :
  c w = (Raise e, w') -> try_except c h w = h e w'.
Proof. unfold try_except, try_except_when. now intros ->. Qed.

(** A handler that returns makes the whole statement return. *)
Lemma try_except_returns (c : M A) (x : A) w :
  exists a w', try_except c (fun _ => ret x) w = (Ok a, w').
Proof.
  unfold try_except, try_except_when, ret.
  destruct (c w) as [[a|e] w']; eauto.
Qed.

End EffectFacts.

Lemma path_exists_delete w path :
  path_exists (mkWorld (delete path (fs w)) (calls w)) path = false.
Proof.
  unfold path_exists. cbn [fs].
  rewrite lookup_delete_eq.
  rewrite bool_decide_eq_false_2; [apply andb_false_r|].
  intros [x Hx]. discriminate.
Qed.


(* ===================================================================== *)
(** * The temporary audio file *)
(* ===================================================================== *)


(* ===================================================================== *)
(** * The orchestrator *)
(* ===================================================================== *)

Section OrchestratorFacts.
Import Fixed.

Lemma falsy_not_longer n o : truthy o = false -> longer_than n o = false.
Proof.
  destruct o as [t|]; [|reflexivity]. cbn.
  now destruct (String.eqb t "").
Qed.

Lemma truthy_Some t : t <> "" -> truthy (Some t) = true.
Proof.
  intros H. cbn. destruct (String.eqb_spec t ""); [contradiction|reflexivity].
Qed.

(** The run of [process_youtube_url] once the metadata and the id are there. *)
Lemma process_acquire B self video_url md v w w1 w2 :
  fetch_metadata B video_url w = (Ok (Some md), w1) ->
  resolve_video_id self md video_url w1 = (Ok v, w2) ->
  truthy v = true ->
  process_youtube_url B self video_url w
  = acquire self md (get_or v "") video_url w2.
Proof.
  intros Hmeta Hid Hv. unfold process_youtube_url.
  rewrite (bind_Ok _ _ _ _ _ Hmeta). cbn [the_dict].
  unfold bind at 1. cbn [ret].
  rewrite (bind_Ok _ _ _ _ _ Hid).
  now rewrite Hv.
Qed.

(** A method whose text passes the gate ends the run. *)
Lemma acquire_accept1 self md vid url w o1 w1 :
  Self.get_transcript_with_youtube_transcript_api self vid w = (Ok o1, w1) ->
  longer_than 500 o1 = true ->
  acquire self md vid url w = (Ok (o1, md), w1).
Proof.
  intros H1 L1. unfold acquire.
  rewrite (bind_Ok _ _ _ _ _ H1), L1. reflexivity.
Qed.

Lemma acquire_accept2 self md vid url w o1 w1 o2 w2 :
  Self.get_transcript_with_youtube_transcript_api self vid w = (Ok o1, w1) ->
  longer_than 500 o1 = false ->
  Self.get_transcript_from_proxy_service self vid w1 = (Ok o2, w2) ->
  longer_than 500 o2 = true ->
  acquire self md vid url w = (Ok (o2, md), w2).
Proof.
  intros H1 L1 H2 L2. unfold acquire.
  rewrite (bind_Ok _ _ _ _ _ H1), L1, (bind_Ok _ _ _ _ _ H2), L2. reflexivity.
Qed.

Lemma acquire_accept3 self md vid url w o1 w1 o2 w2 o3 w3 :
  Self.get_transcript_with_youtube_transcript_api self vid w = (Ok o1, w1) ->
  longer_than 500 o1 = false ->
  Self.get_transcript_from_proxy_service self vid w1 = (Ok o2, w2) ->
  longer_than 500 o2 = false ->
  Self.get_full_transcript_with_enhanced_yt_dlp self url w2 = (Ok o3, w3) ->
  longer_than 500 o3 = true ->
  acquire self md vid url w = (Ok (o3, md), w3).
Proof.
  intros H1 L1 H2 L2 H3 L3. unfold acquire.
  rewrite (bind_Ok _ _ _ _ _ H1), L1, (bind_Ok _ _ _ _ _ H2), L2,
    (bind_Ok _ _ _ _ _ H3), L3.
  reflexivity.
Qed.

Lemma acquire_all self md vid url w o1 w1 o2 w2 o3 w3 o4 w4 :
  Self.get_transcript_with_youtube_transcript_api self vid w = (Ok o1, w1) ->
  longer_than 500 o1 = false ->
  Self.get_transcript_from_proxy_service self vid w1 = (Ok o2, w2) ->
  longer_than 500 o2 = false ->
  Self.get_full_transcript_with_enhanced_yt_dlp self url w2 = (Ok o3, w3) ->
  longer_than 500 o3 = false ->
  Self.get_transcript_from_invidious_with_enhanced_options self vid w3
  = (Ok o4, w4) ->
  acquire self md vid url w = (Ok (settle md o1 o2 o3 o4, md), w4).
Proof.
  intros H1 L1 H2 L2 H3 L3 H4. unfold acquire, settle, first_candidate.
  rewrite (bind_Ok _ _ _ _ _ H1), L1, (bind_Ok _ _ _ _ _ H2), L2,
    (bind_Ok _ _ _ _ _ H3), L3, (bind_Ok _ _ _ _ _ H4).
  destruct (longer_than 500 o4) eqn:L4; [reflexivity|].
  cbn [existsb List.filter].
  destruct (truthy o1), (truthy o2), (truthy o3), (truthy o4); reflexivity.
Qed.

(** A double called after others adds its name to theirs. *)
Lemma fake_called {X Y} name (out : Y) (x : X) names w :
  fake name out x (called names w) = (Ok out, called (names ++ [name])%list w).
Proof. unfold fake, called. cbn [fs calls]. now rewrite <- app_assoc. Qed.

Lemma chars_app a b : chars (a ++ b) = (chars a ++ chars b)%list.
Proof.
  unfold chars. induction a as [|c a IH]; [reflexivity|].
  simpl. now rewrite IH.
Qed.

Lemma str_in_prefix p b : str_in p (p ++ b) = true.
Proof.
  unfold str_in. rewrite chars_app.
  apply (contains_mid (chars p) [] (chars b)).
Qed.

Lemma str_in_app_r p a b : str_in p b = true -> str_in p (a ++ b) = true.
Proof.
  unfold str_in, contains. rewrite chars_app. apply search_app_r.
Qed.

Lemma stub_contents title author :
  str_in "Title:" (stub title author) = true
  /\ str_in "Unable to extract content" (stub title author) = true
  /\ str_in title (stub title author) = true
  /\ str_in author (stub title author) = true.
Proof.
  unfold stub. split; [|split; [|split]].
  - apply (str_in_prefix "Title:" (" " ++ _)).
  - do 7 apply str_in_app_r. reflexivity.
  - apply str_in_app_r, str_in_prefix.
  - do 4 apply str_in_app_r. apply str_in_prefix.
Qed.

End OrchestratorFacts.

(** C1 (the code's defect): when the extraction backend returns [None] for
    the metadata request, without raising, the variable [metadata] is still
    [None] at line 839 and [process_youtube_url] lets the [AttributeError] of
    [metadata.get] escape, for every URL and whatever the strategies would
    have done. *)
Theorem C1_no_info_escapes (B : Fixed.Backends) (self : Fixed.Self.t)
    (video_url user_agent : string) (w w1 w2 : World) :
  Fixed.get_random_user_agent B w = (Ok user_agent, w1) ->
  Fixed.extract_info B (Fixed.MetadataOpts user_agent) video_url w1
  = (Ok None, w2) ->
  Fixed.fetch_metadata B video_url w = (Ok None, w2)
  /\ Fixed.process_youtube_url B self video_url w = (Raise AttributeError, w2).
Proof.
  intros Hua Hinfo.
  assert (Hmeta : Fixed.fetch_metadata B video_url w = (Ok None, w2)).
  { unfold Fixed.fetch_metadata. apply try_except_Ok.
    now rewrite (bind_Ok _ _ _ _ _ Hua), (bind_Ok _ _ _ _ _ Hinfo). }
  split; [exact Hmeta|].
  unfold Fixed.process_youtube_url.
  rewrite (bind_Ok _ _ _ _ _ Hmeta). reflexivity.
Qed.

Lemma C1_no_info_escapes_witness :
  Fixed.process_youtube_url (offline None) (fakes None None None None None)
    sample_url empty_world
  = (Raise AttributeError, empty_world).
Proof.
  refine (proj2 (C1_no_info_escapes (offline None) (fakes None None None None None)
                   sample_url "agent/1.0" empty_world empty_world empty_world
                   _ _));
    reflexivity.
Defined.

(** C2: with the metadata fetched and the video id resolved, and the four
    strategies replaced by doubles that record their calls, a strategy's
    text longer than 500 characters is returned at once and the strategies
    after it are not called, and a result at or below the threshold (or
    [None]) does not end the run: the next strategy is called. *)
Theorem C2_threshold_gate (B : Fixed.Backends) (v o1 o2 o3 o4 vid : option string)
    (video_url : string) (md : Metadata) (w w1 w2 : World) :
  Fixed.fetch_metadata B video_url w = (Ok (Some md), w1) ->
  Fixed.resolve_video_id (fakes v o1 o2 o3 o4) md video_url w1 = (Ok vid, w2) ->
  truthy vid = true ->
  let run := Fixed.process_youtube_url B (fakes v o1 o2 o3 o4) video_url w in
  (longer_than 500 o1 = true ->
   run = (Ok (o1, md), called [method1] w2))
  /\ (longer_than 500 o1 = false -> longer_than 500 o2 = true ->
      run = (Ok (o2, md), called [method1; method2] w2))
  /\ (longer_than 500 o1 = false -> longer_than 500 o2 = false ->
      longer_than 500 o3 = true ->
      run = (Ok (o3, md), called [method1; method2; method3] w2))
  /\ (longer_than 500 o1 = false -> longer_than 500 o2 = false ->
      longer_than 500 o3 = false ->
      snd run = called [method1; method2; method3; method4] w2
      /\ (longer_than 500 o4 = true -> fst run = Ok (o4, md))).
Proof.
  intros Hmeta Hid Hvid run. subst run.
  rewrite (process_acquire _ _ _ _ _ _ _ _ Hmeta Hid Hvid).
  split; [|split; [|split]].
  - intros L1. now apply acquire_accept1.
  - intros L1 L2.
    apply (acquire_accept2 _ _ _ _ _ o1 (called [method1] w2));
      [reflexivity|assumption|apply (fake_called method2)|assumption].
  - intros L1 L2 L3.
    apply (acquire_accept3 _ _ _ _ _ o1 (called [method1] w2)
                           o2 (called [method1; method2] w2));
      [reflexivity|assumption|apply (fake_called method2)|assumption
      |apply (fake_called method3)|assumption].
  - intros L1 L2 L3.
    rewrite (acquire_all _ md _ video_url w2 o1 (called [method1] w2)
               o2 (called [method1; method2] w2)
               o3 (called [method1; method2; method3] w2)
               o4 (called [method1; method2; method3; method4] w2));
      [|reflexivity|assumption|apply (fake_called method2)|assumption
       |apply (fake_called method3)|assumption|apply (fake_called method4)].
    split; [reflexivity|].
    intros L4. cbn [fst]. unfold settle. now rewrite L4.
Qed.

Lemma C2_threshold_gate_witness :
  Fixed.process_youtube_url (offline (Some (sample_info 0)))
    (fakes None (Some (str_mul "a" 600)) None None None) sample_url empty_world
  = (Ok (Some (str_mul "a" 600),
         Fixed.metadata_of_info (sample_info 0) sample_url),
     called [method1] empty_world).
Proof.
  refine (proj1 (C2_threshold_gate (offline (Some (sample_info 0)))
                   None (Some (str_mul "a" 600)) None None None
                   (Some "dQw4w9WgXcQ") sample_url
                   (Fixed.metadata_of_info (sample_info 0) sample_url)
                   empty_world empty_world empty_world _ _ _) _);
    reflexivity.
Defined.

(** C3, as stated, fails: with 50 characters from the first strategy and 400
    from the fourth, and nothing from the other two, the run returns the 50
    characters of the first strategy, not the longer text. *)
Lemma C3_counterexample :
  Fixed.process_youtube_url (offline (Some (sample_info 0)))
    (fakes None (Some (str_mul "a" 50)) None None (Some (str_mul "b" 400)))
    sample_url empty_world
  = (Ok (Some (str_mul "a" 50),
         Fixed.metadata_of_info (sample_info 0) sample_url),
     called [method1; method2; method3; method4] empty_world)
  /\ (len (str_mul "a" 50) < len (str_mul "b" 400))%Z.
Proof. split; reflexivity. Qed.

(** C3 (amended): if all four strategies have run and none produced text
    longer than 500 characters, but at least one produced text that is not
    empty, [process_youtube_url] returns the candidate of the strategy of
    highest priority among those that are not empty, whatever the lengths. *)
Theorem C3_first_candidate (B : Fixed.Backends) (self : Fixed.Self.t)
    (video_url : string) (md : Metadata) (vid o1 o2 o3 o4 : option string)
    (w w1 w2 w3 w4 w5 w6 : World) :
  Fixed.fetch_metadata B video_url w = (Ok (Some md), w1) ->
  Fixed.resolve_video_id self md video_url w1 = (Ok vid, w2) ->
  truthy vid = true ->
  Fixed.Self.get_transcript_with_youtube_transcript_api self (get_or vid "") w2
  = (Ok o1, w3) ->
  Fixed.Self.get_transcript_from_proxy_service self (get_or vid "") w3
  = (Ok o2, w4) ->
  Fixed.Self.get_full_transcript_with_enhanced_yt_dlp self video_url w4
  = (Ok o3, w5) ->
  Fixed.Self.get_transcript_from_invidious_with_enhanced_options
    self (get_or vid "") w5 = (Ok o4, w6) ->
  forallb (fun o => negb (longer_than 500 o)) [o1; o2; o3; o4] = true ->
  existsb truthy [o1; o2; o3; o4] = true ->
  Fixed.process_youtube_url B self video_url w
  = (Ok (first_candidate [o1; o2; o3; o4], md), w6).
Proof.
  intros Hmeta Hid Hvid H1 H2 H3 H4 Hshort Hsome.
  cbn [forallb] in Hshort.
  repeat (apply andb_prop in Hshort as [?L Hshort]).
  apply negb_true_iff in L, L0, L1, L2.
  rewrite (process_acquire _ _ _ _ _ _ _ _ Hmeta Hid Hvid).
  rewrite (acquire_all _ md _ video_url w2 o1 w3 o2 w4 o3 w5 o4 w6)
    by assumption.
  unfold settle. now rewrite L2, Hsome.
Qed.

Lemma C3_first_candidate_witness :
  Fixed.process_youtube_url (offline (Some (sample_info 0)))
    (fakes None None (Some (str_mul "a" 50)) None (Some (str_mul "b" 400)))
    sample_url empty_world
  = (Ok (Some (str_mul "a" 50),
         Fixed.metadata_of_info (sample_info 0) sample_url),
     called [method1; method2; method3; method4] empty_world).
Proof.
  refine (C3_first_candidate (offline (Some (sample_info 0)))
            (fakes None None (Some (str_mul "a" 50)) None (Some (str_mul "b" 400)))
            sample_url (Fixed.metadata_of_info (sample_info 0) sample_url)
            (Some "dQw4w9WgXcQ") None (Some (str_mul "a" 50)) None
            (Some (str_mul "b" 400))
            empty_world empty_world empty_world
            (called [method1] empty_world)
            (called [method1; method2] empty_world)
            (called [method1; method2; method3] empty_world)
            (called [method1; method2; method3; method4] empty_world)
            _ _ _ _ _ _ _ _ _);
    reflexivity.
Defined.

(** C9: if every strategy returns [None] or the empty text,
    [process_youtube_url] returns as its transcript the stub made of the
    title and the author of the metadata (["Unknown"] for an absent author),
    which contains the literal substrings ["Title:"] and ["Unable to extract
    content"] together with that title and that author. *)
Theorem C9_stub_when_nothing (B : Fixed.Backends) (self : Fixed.Self.t)
    (video_url : string) (md : Metadata) (vid o1 o2 o3 o4 : option string)
    (w w1 w2 w3 w4 w5 w6 : World) :
  Fixed.fetch_metadata B video_url w = (Ok (Some md), w1) ->
  Fixed.resolve_video_id self md video_url w1 = (Ok vid, w2) ->
  truthy vid = true ->
  Fixed.Self.get_transcript_with_youtube_transcript_api self (get_or vid "") w2
  = (Ok o1, w3) ->
  Fixed.Self.get_transcript_from_proxy_service self (get_or vid "") w3
  = (Ok o2, w4) ->
  Fixed.Self.get_full_transcript_with_enhanced_yt_dlp self video_url w4
  = (Ok o3, w5) ->
  Fixed.Self.get_transcript_from_invidious_with_enhanced_options
    self (get_or vid "") w5 = (Ok o4, w6) ->
  existsb truthy [o1; o2; o3; o4] = false ->
  exists text,
    Fixed.process_youtube_url B self video_url w = (Ok (Some text, md), w6)
    /\ text = Fixed.stub (title md) (get_or (author md) "Unknown")
    /\ Fixed.str_in "Title:" text = true
    /\ Fixed.str_in "Unable to extract content" text = true
    /\ Fixed.str_in (title md) text = true
    /\ Fixed.str_in (get_or (author md) "Unknown") text = true.
Proof.
  intros Hmeta Hid Hvid H1 H2 H3 H4 Hnone.
  pose proof Hnone as Hn. cbn [existsb] in Hn.
  repeat (apply orb_false_elim in Hn as [?T Hn]).
  eexists. split; [|split; [reflexivity|apply stub_contents]].
  rewrite (process_acquire _ _ _ _ _ _ _ _ Hmeta Hid Hvid).
  rewrite (acquire_all _ md _ video_url w2 o1 w3 o2 w4 o3 w5 o4 w6);
    try assumption; try (now apply falsy_not_longer).
  unfold settle. now rewrite (falsy_not_longer 500 o4 T2), Hnone.
Qed.

Lemma C9_stub_when_nothing_witness :
  exists text,
    Fixed.process_youtube_url (offline (Some (sample_info 0)))
      (fakes None None (Some "") None None) sample_url empty_world
    = (Ok (Some text, Fixed.metadata_of_info (sample_info 0) sample_url),
       called [method1; method2; method3; method4] empty_world)
    /\ text = Fixed.stub "A talk" "A speaker"
    /\ Fixed.str_in "Title:" text = true
    /\ Fixed.str_in "Unable to extract content" text = true
    /\ Fixed.str_in "A talk" text = true
    /\ Fixed.str_in "A speaker" text = true.
Proof.
  refine (C9_stub_when_nothing (offline (Some (sample_info 0)))
            (fakes None None (Some "") None None)
            sample_url (Fixed.metadata_of_info (sample_info 0) sample_url)
            (Some "dQw4w9WgXcQ") None (Some "") None None
            empty_world empty_world empty_world
            (called [method1] empty_world)
            (called [method1; method2] empty_world)
            (called [method1; method2; method3] empty_world)
            (called [method1; method2; method3; method4] empty_world)
            _ _ _ _ _ _ _ _);
    reflexivity.
Defined.

(* ===================================================================== *)
(** * The description fallbacks *)
(* ===================================================================== *)

Section FallbackFacts.
Import Fixed.

Lemma filterM_none (paths : list string) w :
  forallb (fun p => negb (path_exists w p)) paths = true ->
  filterM os_path_exists paths w = (Ok [], w).
Proof.
  induction paths as [|p paths IH]; [reflexivity|].
  cbn [forallb filterM]. intros H. apply andb_prop in H as [Hp H].
  apply negb_true_iff in Hp.
  unfold bind at 1. unfold os_path_exists at 1. rewrite Hp.
  unfold bind. now rewrite (IH H).
Qed.

Lemma longer_nonempty n t : (0 <= n)%Z -> (n <? len t)%Z = true -> String.eqb t "" = false.
Proof.
  intros Hn H. apply Z.ltb_lt in H.
  destruct t; [unfold len in H; simpl in H; lia|reflexivity].
Qed.

(** Phase C of the subtitle/download strategy is reached when the backend
    gave an info dictionary with an id, no subtitle file is on the disk, the
    dictionary lists no English subtitles and the audio phase gave nothing. *)
Lemma yt_dlp_reaches_fallback B video_url info rid ua w w1 w2 w3 w4 :
  random_id B w = (Ok rid, w1) ->
  get_random_user_agent B w1 = (Ok ua, w2) ->
  extract_info B (SubtitleOpts (temp_dir B ++ "/" ++ "subs-" ++ rid) ua)
               video_url w2 = (Ok (Some info), w3) ->
  truthy (i_id info) = true ->
  forallb (fun p => negb (path_exists w3 p))
          (subtitle_candidates (temp_dir B ++ "/" ++ "subs-" ++ rid)) = true ->
  info_subtitles (Some info) = None ->
  audio_phase B video_url w3 = (Ok None, w4) ->
  get_full_transcript_with_enhanced_yt_dlp B video_url w
  = (Ok (Some (description_fallback (Some info)
                 (metadata_of_info info video_url))), w4).
Proof.
  intros Hrid Hua Hinfo Hid Hfiles Hsubs Haudio.
  unfold get_full_transcript_with_enhanced_yt_dlp.
  apply try_except_Ok.
  rewrite (bind_Ok _ _ _ _ _ Hrid), (bind_Ok _ _ _ _ _ Hua).
  erewrite bind_Ok;
    [|apply try_except_Ok; rewrite (bind_Ok _ _ _ _ _ Hinfo); reflexivity].
  cbn [metadata_of_info video_id]. rewrite Hid.
  unfold bind at 1. cbn [ret]. rewrite Hid. cbn [negb].
  rewrite (bind_Ok _ _ _ _ _ (filterM_none _ _ Hfiles)).
  rewrite Hsubs, (bind_Ok _ _ _ _ _ Haudio). reflexivity.
Qed.

(** The description fallback of the mirror strategy is reached when the
    videos endpoint answers 200 with details that list no captions. *)
Lemma mirror_reaches_fallback B instance ua vid response data w w1 w2 :
  requests_get B (instance ++ "/api/v1/videos/" ++ vid) ua instance w
  = (Ok response, w1) ->
  status_code response = 200%Z ->
  json_video B (body response) w1 = (Ok data, w2) ->
  v_captions data = None \/ v_captions data = Some [] ->
  details_step B instance ua vid w = (Ok (details_description data), w2).
Proof.
  intros Hget Hstatus Hjson Hcaps. unfold details_step.
  apply try_except_Ok.
  rewrite (bind_Ok _ _ _ _ _ Hget), Hstatus. cbn [Z.eqb Pos.eqb].
  rewrite (bind_Ok _ _ _ _ _ Hjson).
  destruct Hcaps as [-> | ->]; reflexivity.
Qed.

End FallbackFacts.

(** C4, as stated, fails for the subtitle/download strategy: with a
    description of 150 characters, no subtitles and no audio, it returns the
    title+description composite, not the stub. *)
Lemma C4_counterexample :
  fst (Fixed.get_full_transcript_with_enhanced_yt_dlp
         (offline (Some (sample_info 150))) sample_url empty_world)
  = Ok (Some (Fixed.composite "A talk" (str_mul "d" 150)))
  /\ len (str_mul "d" 150) = 150%Z.
Proof. split; vm_compute; reflexivity. Qed.

(** C4 (amended): the description fallback of the mirror strategy returns
    the title+description composite only when the description is longer than
    200 characters, and yields nothing for a shorter one; Phase C of the
    subtitle/download strategy returns the composite when the title is not
    empty and the description is longer than 100 characters (so also for one
    of 150), and the minimal stub of title and author otherwise. *)
Theorem C4_description_thresholds :
  (forall B video_url info rid ua w w1 w2 w3 w4,
      Fixed.random_id B w = (Ok rid, w1) ->
      Fixed.get_random_user_agent B w1 = (Ok ua, w2) ->
      Fixed.extract_info B
        (Fixed.SubtitleOpts (Fixed.temp_dir B ++ "/" ++ "subs-" ++ rid) ua)
        video_url w2 = (Ok (Some info), w3) ->
      truthy (Fixed.i_id info) = true ->
      forallb (fun p => negb (path_exists w3 p))
        (Fixed.subtitle_candidates (Fixed.temp_dir B ++ "/" ++ "subs-" ++ rid))
      = true ->
      Fixed.info_subtitles (Some info) = None ->
      Fixed.audio_phase B video_url w3 = (Ok None, w4) ->
      let title := get_or (Fixed.i_title info) "" in
      let description := get_or (Fixed.i_description info) "" in
      Fixed.get_full_transcript_with_enhanced_yt_dlp B video_url w
      = (Ok (Some (if negb (String.eqb title "") && (100 <? len description)%Z
                   then Fixed.composite title description
                   else Fixed.stub (get_or (Fixed.i_title info) "Unknown")
                                   (get_or (Fixed.i_uploader info) "Unknown"))),
         w4))
  /\ (forall B instance ua vid response data w w1 w2,
         Fixed.requests_get B (instance ++ "/api/v1/videos/" ++ vid) ua instance w
         = (Ok response, w1) ->
         Fixed.status_code response = 200%Z ->
         Fixed.json_video B (Fixed.body response) w1 = (Ok data, w2) ->
         Fixed.v_captions data = None \/ Fixed.v_captions data = Some [] ->
         let description := get_or (Fixed.v_description data) "" in
         Fixed.details_step B instance ua vid w
         = (Ok (if (200 <? len description)%Z
                then Some (Fixed.composite (get_or (Fixed.v_title data) "Unknown")
                                           description)
                else None),
            w2)).
Proof.
  split.
  - intros B video_url info rid ua w w1 w2 w3 w4 Hrid Hua Hinfo Hid Hfiles
           Hsubs Haudio title description.
    rewrite (yt_dlp_reaches_fallback _ _ _ _ _ _ _ _ _ _
               Hrid Hua Hinfo Hid Hfiles Hsubs Haudio).
    unfold Fixed.description_fallback. fold title description.
    cbn [Effects.title author Fixed.metadata_of_info get_or].
    destruct (100 <? len description)%Z eqn:Hlen.
    + rewrite (longer_nonempty 100 description) by (lia || exact Hlen).
      cbn [negb]. now rewrite andb_true_r.
    + now rewrite !andb_false_r.
  - intros B instance ua vid response data w w1 w2 Hget Hstatus Hjson Hcaps
           description.
    rewrite (mirror_reaches_fallback _ _ _ _ _ _ _ _ _ Hget Hstatus Hjson Hcaps).
    unfold Fixed.details_description. subst description.
    destruct (Fixed.v_description data) as [d|]; cbn [get_or]; [|reflexivity].
    destruct (200 <? len d)%Z eqn:Hlen.
    + rewrite (longer_nonempty 200 d) by (lia || exact Hlen). reflexivity.
    + now rewrite andb_false_r.
Qed.

Lemma C4_description_thresholds_witness :
  Fixed.get_full_transcript_with_enhanced_yt_dlp
    (offline (Some (sample_info 150))) sample_url empty_world
  = (Ok (Some (Fixed.composite "A talk" (str_mul "d" 150))), empty_world)
  /\ Fixed.get_full_transcript_with_enhanced_yt_dlp
       (offline (Some (sample_info 100))) sample_url empty_world
     = (Ok (Some (Fixed.stub "A talk" "A speaker")), empty_world)
  /\ Fixed.details_step (mirror_only (sample_details 201))
       "https://mirror.example" "agent/1.0" "dQw4w9WgXcQ" empty_world
     = (Ok (Some (Fixed.composite "A talk" (str_mul "d" 201))), empty_world)
  /\ Fixed.details_step (mirror_only (sample_details 200))
       "https://mirror.example" "agent/1.0" "dQw4w9WgXcQ" empty_world
     = (Ok None, empty_world).
Proof.
  split; [|split; [|split]].
  - refine (proj1 C4_description_thresholds
              (offline (Some (sample_info 150))) sample_url (sample_info 150)
              "0a1b2c3d" "agent/1.0" empty_world empty_world empty_world
              empty_world empty_world _ _ _ _ _ _ _); reflexivity.
  - refine (proj1 C4_description_thresholds
              (offline (Some (sample_info 100))) sample_url (sample_info 100)
              "0a1b2c3d" "agent/1.0" empty_world empty_world empty_world
              empty_world empty_world _ _ _ _ _ _ _); reflexivity.
  - refine (proj2 C4_description_thresholds
              (mirror_only (sample_details 201)) "https://mirror.example"
              "agent/1.0" "dQw4w9WgXcQ" (Fixed.mkResponse 200 "{...}")
              (sample_details 201) empty_world empty_world empty_world
              _ _ _ _); try reflexivity. now left.
  - refine (proj2 C4_description_thresholds
              (mirror_only (sample_details 200)) "https://mirror.example"
              "agent/1.0" "dQw4w9WgXcQ" (Fixed.mkResponse 200 "{...}")
              (sample_details 200) empty_world empty_world empty_world
              _ _ _ _); try reflexivity. now left.
Defined.

(* ===================================================================== *)
(** * The pytube implementation: summaries *)
(* ===================================================================== *)

Section PytubeFacts.
Import Pytube.

Lemma summarize_short self t m w :
  (len t <= m)%Z -> summarize_transcript self t m w = (Ok t, w).
Proof.
  intros H. unfold summarize_transcript.
  now rewrite (proj2 (Z.leb_le _ _) H).
Qed.

(** A transcript that is too long: the answer of the model is the result. *)
Lemma summarize_model self t m w s w' :
  (m < len t)%Z ->
  Self.chat_completion self t w = (Ok (Some s), w') ->
  summarize_transcript self t m w = (Ok s, w').
Proof.
  intros H Hc. unfold summarize_transcript.
  rewrite (proj2 (Z.leb_gt _ _) H).
  unfold try_except, try_except_when, bind, ret. now rewrite Hc.
Qed.

(** A transcript that is too long, when the model gives no text: the
    truncation. *)
Lemma summarize_truncates self t m w w' :
  (m < len t)%Z ->
  (Self.chat_completion self t w = (Ok None, w')
   \/ exists e, Self.chat_completion self t w = (Raise e, w')) ->
  summarize_transcript self t m w
  = (Ok (slice_to m t ++ "... [truncated due to length]"), w').
Proof.
  intros H Hc. unfold summarize_transcript.
  rewrite (proj2 (Z.leb_gt _ _) H).
  unfold try_except, try_except_when, bind, ret, raise.
  destruct Hc as [->|[e ->]]; reflexivity.
Qed.

Lemma summarize_returns self t m w :
  exists text w', summarize_transcript self t m w = (Ok text, w').
Proof.
  destruct (Z.le_gt_cases (len t) m) as [H|H].
  - exists t, w. now apply summarize_short.
  - destruct (Self.chat_completion self t w) as [[[s|]|e] w'] eqn:Hc.
    + exists s, w'. now apply summarize_model.
    + eexists _, w'. apply summarize_truncates; auto.
    + eexists _, w'. apply summarize_truncates; eauto.
Qed.



End PytubeFacts.



(* ===================================================================== *)
(** * The id of the video *)
(* ===================================================================== *)

Section SplitFacts.
Local Open Scope list_scope.

Lemma match_prefix_compatible pat a x :
  match_prefix pat (a ++ x) = true -> compatible pat a = true.
Proof.
  revert a. induction pat as [|p pat IH]; intros [|c a]; try reflexivity.
  cbn [app match_prefix compatible]. intros H.
  apply andb_prop in H as [-> H]. now apply IH.
Qed.

Lemma search_app_clear pat a b :
  clear_of pat a = true -> search pat (a ++ b) = search pat b.
Proof.
  induction a as [|c a IH]; [reflexivity|].
  cbn [clear_of]. intros H. apply andb_prop in H as [Hc H].
  change ((c :: a) ++ b) with (c :: (a ++ b)). cbn [search].
  rewrite (IH H).
  destruct (match_prefix pat (c :: a ++ b)) eqn:Hm; [|reflexivity].
  apply (match_prefix_compatible pat (c :: a) b) in Hm.
  rewrite Hm in Hc. discriminate.
Qed.

Lemma split_go_clear sep a s :
  clear_of (map is_char sep) a = true ->
  split_go sep 0 (a ++ s) = let (f, fs) := split_go sep 0 s in (a ++ f, fs).
Proof.
  induction a as [|c a IH].
  - intros _. cbn [app]. now destruct (split_go sep 0 s).
  - cbn [clear_of]. intros H. apply andb_prop in H as [Hc H].
    change ((c :: a) ++ s) with (c :: (a ++ s)). cbn [split_go].
    unfold startswith.
    destruct (match_prefix (map is_char sep) (c :: a ++ s)) eqn:Hm.
    + apply (match_prefix_compatible _ (c :: a) s) in Hm.
      rewrite Hm in Hc. discriminate.
    + rewrite (IH H). now destruct (split_go sep 0 s).
Qed.

Lemma split_go_skip sep x r :
  split_go sep (length x) (x ++ r) = split_go sep 0 r.
Proof. induction x as [|c x IH]; [reflexivity|exact IH]. Qed.

Lemma split_go_at_sep sep r :
  sep <> [] ->
  split_go sep 0 (sep ++ r)
  = ([], let (f, fs) := split_go sep 0 r in f :: fs).
Proof.
  destruct sep as [|c sep]; [congruence|]. intros _.
  change ((c :: sep) ++ r) with (c :: (sep ++ r)). cbn [split_go].
  change (c :: sep ++ r) with ((c :: sep) ++ r).
  unfold startswith. rewrite match_prefix_self.
  cbn [length]. rewrite Nat.sub_1_r. cbn [Nat.pred].
  now rewrite split_go_skip.
Qed.

(** The second field of a split is what follows the first occurrence of the
    separator, up to the next one. *)
Lemma split_second sep a r :
  sep <> [] -> clear_of (map is_char sep) a = true ->
  nth_error (split sep (a ++ sep ++ r)) 1 = Some (fst (split_go sep 0 r)).
Proof.
  intros Hne Hclear. unfold split.
  rewrite (split_go_clear _ _ _ Hclear), (split_go_at_sep _ _ Hne).
  now destruct (split_go sep 0 r).
Qed.

Lemma split_first sep s : nth_error (split sep s) 0 = Some (fst (split_go sep 0 s)).
Proof. unfold split. now destruct (split_go sep 0 s). Qed.

Lemma match_prefix_through sep a c r :
  match_prefix (map is_char sep) (a ++ c :: r) = true ->
  In c sep \/ (forall x, In x sep -> In x a).
Proof.
  revert sep. induction a as [|y a IH]; intros [|s sep];
    try solve [intros _; right; intros ? []].
  - cbn [app map match_prefix]. unfold is_char at 1. intros H.
    apply andb_prop in H as [H _].
    destruct (Ascii.eqb_spec s c); [subst|discriminate]. left. now left.
  - cbn [app map match_prefix]. unfold is_char at 1. intros H.
    apply andb_prop in H as [Hs H].
    destruct (Ascii.eqb_spec s y); [subst|discriminate].
    destruct (IH _ H) as [Hc|Hall]; [left; now right|].
    right. intros x [<-|Hx]; [now left|right; now apply Hall].
Qed.

Lemma match_prefix_within sep a :
  match_prefix (map is_char sep) a = true -> forall x, In x sep -> In x a.
Proof.
  revert a. induction sep as [|s sep IH]; intros a; [intros _ ? []|].
  destruct a as [|y a]; [discriminate|].
  cbn [map match_prefix]. unfold is_char at 1. intros H.
  apply andb_prop in H as [Hs H].
  destruct (Ascii.eqb_spec s y); [subst|discriminate].
  intros x [<-|Hx]; [now left|right; now apply (IH a)].
Qed.

(** A field runs through text in which the separator cannot occur because
    one of its characters, [z], is missing, and over a character [c] that the
    separator does not have. *)
Lemma first_field_through sep id c r z :
  In z sep -> ~ In z id -> ~ In c sep ->
  fst (split_go sep 0 (id ++ c :: r)) = id ++ c :: fst (split_go sep 0 r).
Proof.
  intros Hz Hid Hc. induction id as [|x id IH].
  - cbn [app split_go]. unfold startswith.
    destruct (match_prefix (map is_char sep) (c :: r)) eqn:Hm.
    + exfalso. destruct (match_prefix_through sep [] c r Hm) as [H|H];
        [now apply Hc|exact (H z Hz)].
    + now destruct (split_go sep 0 r).
  - change ((x :: id) ++ c :: r) with (x :: (id ++ c :: r)).
    cbn [split_go]. unfold startswith.
    destruct (match_prefix (map is_char sep) (x :: id ++ c :: r)) eqn:Hm.
    + exfalso. destruct (match_prefix_through sep (x :: id) c r Hm) as [H|H];
        [now apply Hc|exact (Hid (H z Hz))].
    + assert (Hid' : ~ In z id) by (intros Hin; apply Hid; now right).
      specialize (IH Hid').
      destruct (split_go sep 0 (id ++ c :: r)) as [f fs].
      cbn [fst] in *. now rewrite IH.
Qed.

Lemma first_field_all sep id z :
  In z sep -> ~ In z id -> fst (split_go sep 0 id) = id.
Proof.
  intros Hz Hid. induction id as [|x id IH]; [reflexivity|].
  cbn [split_go]. unfold startswith.
  destruct (match_prefix (map is_char sep) (x :: id)) eqn:Hm.
  - exfalso. exact (Hid (match_prefix_within sep _ Hm z Hz)).
  - assert (Hid' : ~ In z id) by (intros Hin; apply Hid; now right).
    specialize (IH Hid').
    destruct (split_go sep 0 id) as [f fs]. cbn [fst] in *. now rewrite IH.
Qed.

Lemma first_field_char c s :
  fst (split_go [c] 0 s) = take_while (fun x => negb (is_char c x)) s.
Proof.
  induction s as [|x s IH]; [reflexivity|].
  rewrite split_go_char_cons. cbn [take_while]. unfold is_char at 1.
  destruct (Ascii.eqb c x); cbn [negb].
  - now destruct (split_go [c] 0 s).
  - destruct (split_go [c] 0 s) as [f fs]. cbn [fst] in *. now rewrite IH.
Qed.

Lemma take_while_app p a r :
  forallb p a = true -> take_while p (a ++ r) = a ++ take_while p r.
Proof.
  induction a as [|x a IH]; [reflexivity|].
  cbn [forallb app take_while]. intros H. apply andb_prop in H as [-> H].
  now rewrite IH.
Qed.

Lemma take_while_all p a : forallb p a = true -> take_while p a = a.
Proof.
  intros H. rewrite <- (app_nil_r a) at 1.
  rewrite take_while_app by exact H. apply app_nil_r.
Qed.

Lemma take_while_stop p a c r :
  forallb p a = true -> p c = false -> take_while p (a ++ c :: r) = a.
Proof.
  intros Ha Hc. rewrite take_while_app by exact Ha.
  cbn [take_while]. rewrite Hc. apply app_nil_r.
Qed.

(** A pattern with a class that nothing in the text satisfies occurs nowhere
    in it. *)
Lemma match_prefix_classes pat s :
  match_prefix pat s = true -> Forall (fun p => exists c, In c s /\ p c = true) pat.
Proof.
  revert s. induction pat as [|p pat IH]; intros s; [constructor|].
  destruct s as [|c s]; [discriminate|]. cbn [match_prefix]. intros H.
  apply andb_prop in H as [Hc H]. constructor.
  - exists c. split; [now left|exact Hc].
  - eapply List.Forall_impl; [|exact (IH s H)].
    intros q (d & Hd & Hq). exists d. split; [now right|exact Hq].
Qed.

Lemma search_lacking pat s p :
  In p pat -> (forall c, In c s -> p c = false) -> search pat s = false.
Proof.
  intros Hp Hs.
  assert (Hm : forall t, (forall c, In c t -> In c s) -> match_prefix pat t = false).
  { intros t Ht. destruct (match_prefix pat t) eqn:Hm; [|reflexivity].
    apply match_prefix_classes in Hm. rewrite List.Forall_forall in Hm.
    destruct (Hm p Hp) as (c & Hc & Hpc).
    rewrite (Hs c (Ht c Hc)) in Hpc. discriminate. }
  induction s as [|x s IH].
  - cbn [search]. apply Hm. auto.
  - cbn [search]. rewrite (Hm (x :: s)) by auto. cbn [orb].
    apply IH.
    + intros c Hc. apply Hs. now right.
    + intros t Ht. apply Hm. intros c Hc. right. now apply Ht.
Qed.

End SplitFacts.

Section IdFacts.
Import Fixed Urls.
Local Open Scope list_scope.

Lemma index_split_second sep a r w :
  chars sep <> [] ->
  clear_of (map is_char (chars sep)) a = true ->
  index (str_split sep (str (a ++ chars sep ++ r))) 1 w
  = (Ok (str (fst (split_go (chars sep) 0 r))), w).
Proof.
  intros Hne Hclear. unfold index, str_split.
  now rewrite chars_str, nth_error_map, split_second.
Qed.

Lemma index_split_first sep t w :
  index (str_split sep (str t)) 0 w
  = (Ok (str (fst (split_go (chars sep) 0 t))), w).
Proof.
  unfold index, str_split. now rewrite chars_str, nth_error_map, split_first.
Qed.

(** What the alphabet of ids leaves out. *)
Lemma id_char_plain c :
  id_char c = true ->
  c <> "/"%char /\ c <> "="%char /\ c <> "?"%char /\ c <> "&"%char.
Proof.
  destruct c as [[] [] [] [] [] [] [] []]; vm_compute; intros H;
    try discriminate H; repeat split; discriminate.
Qed.

Lemma id_lacks id z :
  forallb id_char id = true ->
  z = "/"%char \/ z = "="%char \/ z = "?"%char \/ z = "&"%char ->
  ~ In z id /\ forallb (fun x => negb (is_char z x)) id = true.
Proof.
  intros Hid Hz. induction id as [|x id IH]; [split; [intros []|reflexivity]|].
  cbn [forallb] in Hid. apply andb_prop in Hid as [Hx Hid].
  destruct (IH Hid) as [Hin Hall].
  destruct (id_char_plain x Hx) as (H1 & H2 & H3 & H4).
  assert (Hne : z <> x).
  { destruct Hz as [-> | [-> | [-> | ->]]]; congruence. }
  split.
  - intros [Heq|H]; [congruence|contradiction].
  - cbn [forallb]. rewrite Hall. unfold is_char.
    destruct (Ascii.eqb_spec z x); [contradiction|reflexivity].
Qed.

(** The head of what may follow the id in a captured segment. *)
Lemma suffix_ok_head amp_only suffix :
  suffix_ok amp_only suffix = true ->
  suffix = []
  \/ exists c rest,
       suffix = c :: rest
       /\ (c = "&"%char \/ (amp_only = false /\ c = "?"%char))
       /\ forallb (fun x => negb (is_char "/"%char x)) rest = true.
Proof.
  destruct suffix as [|c rest]; [now left|]. cbn [suffix_ok]. intros H.
  apply andb_prop in H as [Hc Hrest]. right. exists c, rest.
  split; [reflexivity|]. split; [|exact Hrest].
  apply orb_prop in Hc as [Hc|Hc].
  - left. unfold is_char in Hc. now destruct (Ascii.eqb_spec "&"%char c).
  - right. apply andb_prop in Hc as [Hc Ha]. unfold is_char in Hc.
    destruct (Ascii.eqb_spec "?"%char c); [|discriminate].
    now destruct amp_only.
Qed.

Lemma tail_no_slash id suffix amp_only :
  forallb id_char id = true -> suffix_ok amp_only suffix = true ->
  forall c, In c (id ++ suffix) -> is_char "/"%char c = false.
Proof.
  intros Hid Hs c Hin.
  assert (Hgen : forall l, forallb (fun x => negb (is_char "/"%char x)) l = true ->
                           In c l -> is_char "/"%char c = false).
  { intros l Hl Hc. rewrite forallb_forall in Hl.
    now apply negb_true_iff, Hl. }
  apply in_app_or in Hin as [Hin|Hin].
  - apply (Hgen id); [|exact Hin].
    apply (id_lacks id "/"%char Hid). now left.
  - destruct (suffix_ok_head _ _ Hs) as [->|(d & rest & -> & Hd & Hrest)];
      [destruct Hin|].
    destruct Hin as [<-|Hin]; [|now apply (Hgen rest)].
    destruct Hd as [->|[_ ->]]; reflexivity.
Qed.

(** A guard on a marker that needs a slash is false when no occurrence can
    start before the id and neither the id nor the suffix has a slash. *)
Lemma guard_false p a id suffix amp_only :
  clear_of (map is_char p) a = true -> In "/"%char p ->
  forallb id_char id = true -> suffix_ok amp_only suffix = true ->
  contains p (a ++ id ++ suffix) = false.
Proof.
  intros Hclear Hp Hid Hs. unfold contains.
  rewrite (search_app_clear _ _ _ Hclear).
  apply (search_lacking _ _ (is_char "/"%char)).
  - now apply in_map.
  - now apply (tail_no_slash id suffix amp_only).
Qed.

(** The segment captured after a marker is the id and then some of the
    suffix, which starts as the suffix does. *)
Lemma captured_segment sep id suffix amp_only z :
  In z sep -> z = "/"%char \/ z = "="%char ->
  ~ In "&"%char sep -> ~ In "?"%char sep ->
  forallb id_char id = true -> suffix_ok amp_only suffix = true ->
  exists Y,
    fst (split_go sep 0 (id ++ suffix)) = id ++ Y
    /\ (Y = [] \/ exists c Y', Y = c :: Y'
                              /\ (c = "&"%char \/ (amp_only = false /\ c = "?"%char))).
Proof.
  intros Hz Hzv Hamp Hq Hid Hs.
  assert (Hzid : ~ In z id).
  { apply (id_lacks id z Hid). destruct Hzv as [->| ->]; auto. }
  destruct (suffix_ok_head _ _ Hs) as [->|(c & rest & -> & Hc & _)].
  - exists []. rewrite !app_nil_r. split; [|now left].
    now apply (first_field_all sep id z).
  - exists (c :: fst (split_go sep 0 rest)). split.
    + apply (first_field_through sep id c rest z); try assumption.
      destruct Hc as [->|[_ ->]]; assumption.
    + right. eauto.
Qed.

Lemma cut_amp id Y :
  forallb id_char id = true ->
  Y = [] \/ (exists Y', Y = "&"%char :: Y') ->
  take_while (fun x => negb (is_char "&"%char x)) (id ++ Y) = id.
Proof.
  intros Hid HY.
  assert (Hall : forallb (fun x => negb (is_char "&"%char x)) id = true).
  { apply (id_lacks id "&"%char Hid). auto. }
  destruct HY as [->|(Y' & ->)].
  - rewrite app_nil_r. now apply take_while_all.
  - now apply take_while_stop.
Qed.

Lemma cut_both id Y :
  forallb id_char id = true ->
  Y = [] \/ (exists c Y', Y = c :: Y' /\ (c = "&"%char \/ c = "?"%char)) ->
  take_while (fun x => negb (is_char "&"%char x))
    (take_while (fun x => negb (is_char "?"%char x)) (id ++ Y)) = id.
Proof.
  intros Hid HY.
  assert (Hq : forallb (fun x => negb (is_char "?"%char x)) id = true).
  { apply (id_lacks id "?"%char Hid). auto. }
  destruct HY as [->|(c & Y' & -> & [->| ->])].
  - rewrite app_nil_r, (take_while_all _ _ Hq).
    rewrite <- (app_nil_r id) at 1. apply cut_amp; auto.
  - rewrite (take_while_app _ _ _ Hq). apply cut_amp; [exact Hid|].
    right. cbn [take_while is_char]. cbn. eauto.
  - rewrite (take_while_stop _ _ _ _ Hq) by reflexivity.
    rewrite <- (app_nil_r id) at 1. apply cut_amp; auto.
Qed.

(** The three cuts of the branches for [youtu.be/], [embed/] and [v/]. *)
Lemma path_branch sep P id suffix w z :
  chars sep <> [] ->
  clear_of (map is_char (chars sep)) P = true ->
  In z (chars sep) -> z = "/"%char \/ z = "="%char ->
  ~ In "&"%char (chars sep) -> ~ In "?"%char (chars sep) ->
  forallb id_char id = true -> suffix_ok false suffix = true ->
  bind (index (str_split sep (str (P ++ chars sep ++ id ++ suffix))) 1)
       (fun a =>
          bind (index (str_split "?" a) 0)
               (fun b =>
                  bind (index (str_split "&" b) 0)
                       (fun video_id => ret (Some video_id)))) w
  = (Ok (Some (str id)), w).
Proof.
  intros Hne Hclear Hz Hzv Hamp Hq Hid Hs.
  rewrite (bind_Ok _ _ _ _ _ (index_split_second sep P _ w Hne Hclear)).
  rewrite (bind_Ok _ _ _ _ _ (index_split_first "?" _ w)).
  rewrite (bind_Ok _ _ _ _ _ (index_split_first "&" _ w)).
  change (chars "?") with ["?"%char]. change (chars "&") with ["&"%char].
  rewrite !first_field_char.
  destruct (captured_segment (chars sep) id suffix false z
              Hz Hzv Hamp Hq Hid Hs) as (Y & -> & HY).
  rewrite cut_both; [reflexivity|exact Hid|].
  destruct HY as [->|(c & Y' & -> & [->|[_ ->]])]; [now left| |]; right; eauto.
Qed.

(** The two cuts of the watch branch. *)
Lemma watch_branch P id suffix w :
  clear_of (map is_char (chars "v=")) P = true ->
  forallb id_char id = true -> suffix_ok true suffix = true ->
  bind (index (str_split "v=" (str (P ++ chars "v=" ++ id ++ suffix))) 1)
       (fun a =>
          bind (index (str_split "&" a) 0)
               (fun video_id => ret (Some video_id))) w
  = (Ok (Some (str id)), w).
Proof.
  intros Hclear Hid Hs.
  rewrite (bind_Ok _ _ _ _ _ (index_split_second "v=" P _ w ltac:(discriminate) Hclear)).
  rewrite (bind_Ok _ _ _ _ _ (index_split_first "&" _ w)).
  change (chars "&") with ["&"%char]. rewrite first_field_char.
  destruct (captured_segment (chars "v=") id suffix true "="%char) as (Y & -> & HY);
    try assumption.
  - cbn. auto.
  - now right.
  - cbn. intros [H|[H|[]]]; discriminate.
  - cbn. intros [H|[H|[]]]; discriminate.
  - rewrite cut_amp; [reflexivity|exact Hid|].
    destruct HY as [->|(c & Y' & -> & [->|[H _]])];
      [now left|right; eauto|discriminate].
Qed.

Lemma shape_short_link B P id suffix w :
  clear_of (map is_char (chars "youtu.be/")) P = true ->
  forallb id_char id = true -> suffix_ok false suffix = true ->
  extract_video_id B (str (P ++ chars "youtu.be/" ++ id ++ suffix)) w
  = (Ok (Some (str id)), w).
Proof.
  intros Hclear Hid Hs. unfold extract_video_id. apply try_except_Ok.
  unfold str_in. rewrite chars_str, contains_mid.
  apply (path_branch "youtu.be/" P id suffix w "/"%char); try assumption;
    try discriminate; cbn; try tauto;
    intros H; repeat (destruct H as [H|H]; [discriminate|]); exact H.
Qed.

Lemma shape_watch B P id suffix w :
  clear_of (map is_char (chars "youtu.be/")) (P ++ chars "youtube.com/watch?v=")
  = true ->
  clear_of (map is_char (chars "v=")) (P ++ chars "youtube.com/watch?") = true ->
  forallb id_char id = true -> suffix_ok true suffix = true ->
  extract_video_id B (str (P ++ chars "youtube.com/watch?v=" ++ id ++ suffix)) w
  = (Ok (Some (str id)), w).
Proof.
  intros H1 H2 Hid Hs. unfold extract_video_id. apply try_except_Ok.
  unfold str_in. rewrite !chars_str.
  set (U := P ++ chars "youtube.com/watch?v=" ++ id ++ suffix).
  assert (E1 : U = (P ++ chars "youtube.com/watch?v=") ++ id ++ suffix)
    by (unfold U; now rewrite <- app_assoc).
  assert (E2 : U = P ++ chars "youtube.com/watch" ++ chars "?v=" ++ id ++ suffix)
    by reflexivity.
  assert (E3 : U = (P ++ chars "youtube.com/watch?") ++ chars "v=" ++ id ++ suffix)
    by (unfold U; now rewrite <- app_assoc).
  assert (G1 : contains (chars "youtu.be/") U = false).
  { rewrite E1. apply (guard_false _ _ id suffix true); try assumption.
    cbn. tauto. }
  assert (G2 : contains (chars "youtube.com/watch") U = true)
    by (rewrite E2; apply contains_mid).
  assert (G3 : contains (chars "v=") U = true)
    by (rewrite E3; apply contains_mid).
  rewrite G1, G2, G3, E3. now apply watch_branch.
Qed.

Lemma shape_embed B P id suffix w :
  clear_of (map is_char (chars "youtu.be/")) (P ++ chars "youtube.com/embed/")
  = true ->
  clear_of (map is_char (chars "youtube.com/watch")) (P ++ chars "youtube.com/embed/")
  = true ->
  clear_of (map is_char (chars "embed/")) (P ++ chars "youtube.com/") = true ->
  forallb id_char id = true -> suffix_ok false suffix = true ->
  extract_video_id B (str (P ++ chars "youtube.com/embed/" ++ id ++ suffix)) w
  = (Ok (Some (str id)), w).
Proof.
  intros H1 H2 H3 Hid Hs. unfold extract_video_id. apply try_except_Ok.
  unfold str_in. rewrite !chars_str.
  set (U := P ++ chars "youtube.com/embed/" ++ id ++ suffix).
  assert (E1 : U = (P ++ chars "youtube.com/embed/") ++ id ++ suffix)
    by (unfold U; now rewrite <- app_assoc).
  assert (E3 : U = (P ++ chars "youtube.com/") ++ chars "embed/" ++ id ++ suffix)
    by (unfold U; now rewrite <- app_assoc).
  assert (G1 : contains (chars "youtu.be/") U = false).
  { rewrite E1. apply (guard_false _ _ id suffix false); try assumption.
    cbn. tauto. }
  assert (G2 : contains (chars "youtube.com/watch") U = false).
  { rewrite E1. apply (guard_false _ _ id suffix false); try assumption.
    cbn. tauto. }
  assert (G3 : contains (chars "youtube.com/embed/") U = true)
    by apply contains_mid.
  rewrite G1, G2, G3, E3.
  apply (path_branch "embed/" _ id suffix w "/"%char); try assumption;
    try discriminate; cbn; try tauto;
    intros H; repeat (destruct H as [H|H]; [discriminate|]); exact H.
Qed.

Lemma shape_old_embed B P id suffix w :
  clear_of (map is_char (chars "youtu.be/")) (P ++ chars "youtube.com/v/") = true ->
  clear_of (map is_char (chars "youtube.com/watch")) (P ++ chars "youtube.com/v/")
  = true ->
  clear_of (map is_char (chars "youtube.com/embed/")) (P ++ chars "youtube.com/v/")
  = true ->
  clear_of (map is_char (chars "v/")) (P ++ chars "youtube.com/") = true ->
  forallb id_char id = true -> suffix_ok false suffix = true ->
  extract_video_id B (str (P ++ chars "youtube.com/v/" ++ id ++ suffix)) w
  = (Ok (Some (str id)), w).
Proof.
  intros H1 H2 H3 H4 Hid Hs. unfold extract_video_id. apply try_except_Ok.
  unfold str_in. rewrite !chars_str.
  set (U := P ++ chars "youtube.com/v/" ++ id ++ suffix).
  assert (E1 : U = (P ++ chars "youtube.com/v/") ++ id ++ suffix)
    by (unfold U; now rewrite <- app_assoc).
  assert (E3 : U = (P ++ chars "youtube.com/") ++ chars "v/" ++ id ++ suffix)
    by (unfold U; now rewrite <- app_assoc).
  assert (G1 : contains (chars "youtu.be/") U = false).
  { rewrite E1. apply (guard_false _ _ id suffix false); try assumption.
    cbn. tauto. }
  assert (G2 : contains (chars "youtube.com/watch") U = false).
  { rewrite E1. apply (guard_false _ _ id suffix false); try assumption.
    cbn. tauto. }
  assert (G3 : contains (chars "youtube.com/embed/") U = false).
  { rewrite E1. apply (guard_false _ _ id suffix false); try assumption.
    cbn. tauto. }
  assert (G4 : contains (chars "youtube.com/v/") U = true)
    by apply contains_mid.
  rewrite G1, G2, G3, G4, E3.
  apply (path_branch "v/" _ id suffix w "/"%char); try assumption;
    try discriminate; cbn; try tauto;
    intros H; repeat (destruct H as [H|H]; [discriminate|]); exact H.
Qed.

End IdFacts.

(** X1: on the four supported shapes, after the usual beginnings of a URL,
    with an id over the id alphabet and a query suffix that starts with [&], or
    with [?] where the shape has none of its own, [extract_video_id] of the
    yt-dlp version returns exactly the id and leaves the backend alone. *)
Theorem extract_video_id_shapes (B : Fixed.Backends) (prefix : string)
    (sh : Urls.Shape) (id suffix : string) (w : World) :
  In prefix Urls.prefixes -> Urls.is_id id = true ->
  Urls.query_suffix sh suffix = true ->
  Fixed.extract_video_id B (Urls.url prefix sh id suffix) w = (Ok (Some id), w).
Proof.
  intros Hp Hid Hs. unfold Urls.url, Urls.is_id, Urls.query_suffix in *.
  rewrite <- (str_chars (prefix ++ _)), !chars_app.
  rewrite <- (str_chars id) at 2.
  assert (Hs' : Urls.suffix_ok false (chars suffix) = true).
  { destruct (chars suffix) as [|c rest]; [reflexivity|].
    cbn [Urls.suffix_ok] in *. apply andb_prop in Hs as [Hc Hrest].
    rewrite Hrest, andb_true_r.
    apply orb_prop in Hc as [->|Hc]; [reflexivity|].
    apply andb_prop in Hc as [-> _]. apply orb_true_r. }
  cbn in Hp.
  destruct sh; cbn [Urls.marker Urls.is_watch] in *.
  - repeat (destruct Hp as [<-|Hp]); try contradiction;
      apply shape_short_link; try assumption; reflexivity.
  - repeat (destruct Hp as [<-|Hp]); try contradiction;
      apply shape_watch; try assumption; reflexivity.
  - repeat (destruct Hp as [<-|Hp]); try contradiction;
      apply shape_embed; try assumption; reflexivity.
  - repeat (destruct Hp as [<-|Hp]); try contradiction;
      apply shape_old_embed; try assumption; reflexivity.
Qed.

(** The URL shapes, on a short link with a start time. *)
Lemma extract_video_id_shapes_witness :
  Fixed.extract_video_id (offline None) "https://youtu.be/dQw4w9WgXcQ?t=43"
    empty_world
  = (Ok (Some "dQw4w9WgXcQ"), empty_world).
Proof.
  refine (extract_video_id_shapes (offline None) "https://" Urls.ShortLink
            "dQw4w9WgXcQ" "?t=43" empty_world _ _ _);
    [simpl; tauto|reflexivity|reflexivity].
Defined.

(** C8 (the code's defect): on a watch URL whose 11-character id is followed
    by a [?...] suffix, [extract_video_id] of the yt-dlp version returns the
    id together with the suffix, because its watch branch cuts at [&] only.
    The three other branches of the same function cut at [?] and at [&], and
    so does the pattern of the pytube version, which returns the bare id for
    the same URL. *)
Theorem C8_watch_suffix_kept (B : Fixed.Backends)
    (video_id_of : string -> M string) (w : World) :
  Fixed.extract_video_id B "https://www.youtube.com/watch?v=dQw4w9WgXcQ?t=43" w
  = (Ok (Some "dQw4w9WgXcQ?t=43"), w)
  /\ Pytube.extract_video_id video_id_of
       "https://www.youtube.com/watch?v=dQw4w9WgXcQ?t=43" w
     = (Ok (Some "dQw4w9WgXcQ"), w)
  /\ Fixed.extract_video_id B "https://www.youtube.com/watch?v=dQw4w9WgXcQ&t=43" w
     = (Ok (Some "dQw4w9WgXcQ"), w)
  /\ Fixed.extract_video_id B "https://youtu.be/dQw4w9WgXcQ?t=43" w
     = (Ok (Some "dQw4w9WgXcQ"), w)
  /\ Fixed.extract_video_id B "https://www.youtube.com/embed/dQw4w9WgXcQ?t=43" w
     = (Ok (Some "dQw4w9WgXcQ"), w)
  /\ Fixed.extract_video_id B "https://www.youtube.com/v/dQw4w9WgXcQ?t=43" w
     = (Ok (Some "dQw4w9WgXcQ"), w).
Proof. repeat split; reflexivity. Qed.

(* ===================================================================== *)
(** * Further properties: the run of the yt-dlp version *)
(* ===================================================================== *)

Section LengthFacts.

Lemma length_append (a b : string) :
  String.length (a ++ b) = String.length a + String.length b.
Proof. induction a as [|c a IH]; [reflexivity|]. simpl. now rewrite IH. Qed.

Lemma length_substring n s :
  n <= String.length s -> String.length (substring 0 n s) = n.
Proof.
  revert s. induction n as [|n IH]; intros s Hn.
  - now destruct s.
  - destruct s as [|c s]; simpl in *; [lia|]. rewrite IH; lia.
Qed.

End LengthFacts.

Section RunFacts.
Context {A B : Type}.

(** A sequence that returns has run both of its parts. *)
Lemma bind_inv (c : M A) (k : A -> M B) w b w' :
  bind c k w = (Ok b, w') ->
  exists a w1, c w = (Ok a, w1) /\ k a w1 = (Ok b, w').
Proof.
  unfold bind. destruct (c w) as [[a|e] w1]; [eauto|discriminate].
Qed.

(** A statement whose handler returns [None] returns a value only from
    its body. *)
Lemma try_except_Some (c : M (option A)) w a w' :
  try_except c (fun _ => ret None) w = (Ok (Some a), w') ->
  c w = (Ok (Some a), w').
Proof.
  unfold try_except, try_except_when, ret.
  destruct (c w) as [[o|e] w1]; [trivial|discriminate].
Qed.

End RunFacts.

(** What the loop returns, one of its passes returned. *)
Lemma first_some_inv {A B} (P : B -> Prop) (f : A -> M (option B)) l w b w' :
  (forall x w b w', f x w = (Ok (Some b), w') -> P b) ->
  first_some f l w = (Ok (Some b), w') -> P b.
Proof.
  intros Hf. revert w. induction l as [|x l IH]; intros w; [discriminate|].
  cbn [first_some]. intros H.
  apply bind_inv in H as ([b0|] & w1 & Hx & H).
  - inversion H; subst. exact (Hf _ _ _ _ Hx).
  - exact (IH _ H).
Qed.


Section ResultFacts.
Import Fixed.

Lemma longer_truthy n o : longer_than n o = true -> truthy o = true.
Proof.
  destruct o as [t|]; [|discriminate]. cbn.
  now destruct (String.eqb t "").
Qed.

Lemma fetch_metadata_source B video_url w md w1 :
  fetch_metadata B video_url w = (Ok (Some md), w1) -> source_url md = video_url.
Proof.
  unfold fetch_metadata, try_except, try_except_when, bind, ret.
  destruct (get_random_user_agent B w) as [[ua|e] w0]; [|now intros [= <- _]].
  destruct (extract_info B (MetadataOpts ua) video_url w0) as [[[i|]|e] w2];
    intros [= <- _]; reflexivity.
Qed.

(** The four methods and the fallbacks of lines 849-898 never hand back an
    empty result. *)
Lemma acquire_result self md vid url w t md' w' :
  acquire self md vid url w = (Ok (t, md'), w') -> truthy t = true /\ md' = md.
Proof.
  unfold acquire. intros H.
  apply bind_inv in H as (o1 & w1 & _ & H).
  destruct (longer_than 500 o1) eqn:L1.
  { inversion H; subst. split; [now apply (longer_truthy 500)|reflexivity]. }
  apply bind_inv in H as (o2 & w2 & _ & H).
  destruct (longer_than 500 o2) eqn:L2.
  { inversion H; subst. split; [now apply (longer_truthy 500)|reflexivity]. }
  apply bind_inv in H as (o3 & w3 & _ & H).
  destruct (longer_than 500 o3) eqn:L3.
  { inversion H; subst. split; [now apply (longer_truthy 500)|reflexivity]. }
  apply bind_inv in H as (o4 & w4 & _ & H).
  destruct (longer_than 500 o4) eqn:L4.
  { inversion H; subst. split; [now apply (longer_truthy 500)|reflexivity]. }
  destruct (truthy o1) eqn:T1; [inversion H; subst; now split|].
  destruct (truthy o2) eqn:T2; [inversion H; subst; now split|].
  destruct (truthy o3) eqn:T3; [inversion H; subst; now split|].
  destruct (truthy o4) eqn:T4; [inversion H; subst; now split|].
  inversion H; subst. split; reflexivity.
Qed.

End ResultFacts.

(** X2: What a returned pair of [process_youtube_url] (yt-dlp version) looks
    like, for every service object and backend: the metadata is the one of
    the metadata block and names the input URL as its source; when the video
    id was resolved the transcript is a text that is not empty; and when it
    was not, the transcript is [None] and the run ended right after the id
    resolver, before any strategy. *)
Theorem process_result_invariants (B : Fixed.Backends) (self : Fixed.Self.t)
    (video_url : string) (w w' : World) (t : option string) (md : Metadata) :
  Fixed.process_youtube_url B self video_url w = (Ok (t, md), w') ->
  source_url md = video_url
  /\ exists w1 v w2,
       Fixed.fetch_metadata B video_url w = (Ok (Some md), w1)
       /\ Fixed.resolve_video_id self md video_url w1 = (Ok v, w2)
       /\ (if truthy v
           then truthy t = true
                /\ Fixed.acquire self md (get_or v "") video_url w2
                   = (Ok (t, md), w')
           else t = None /\ w' = w2).
Proof.
  unfold Fixed.process_youtube_url. intros H.
  apply bind_inv in H as (metadata & w1 & Hmeta & H).
  apply bind_inv in H as (md0 & w1' & Hdict & H).
  destruct metadata as [md1|]; [|discriminate].
  inversion Hdict; subst md0 w1'. clear Hdict.
  apply bind_inv in H as (v & w2 & Hid & H).
  destruct (truthy v) eqn:Hv; cbn [negb] in H.
  - destruct (acquire_result _ _ _ _ _ _ _ _ H) as [Ht ->].
    split; [exact (fetch_metadata_source _ _ _ _ _ Hmeta)|].
    exists w1, v, w2. rewrite Hv. auto.
  - inversion H; subst.
    split; [exact (fetch_metadata_source _ _ _ _ _ Hmeta)|].
    exists w1, v, w'. rewrite Hv. auto.
Qed.

Lemma process_result_invariants_witness :
  source_url (Fixed.metadata_of_info (sample_info 0) sample_url) = sample_url
  /\ exists w1 v w2,
       Fixed.fetch_metadata (offline (Some (sample_info 0))) sample_url empty_world
       = (Ok (Some (Fixed.metadata_of_info (sample_info 0) sample_url)), w1)
       /\ Fixed.resolve_video_id
            (fakes None (Some "short") None (Some (str_mul "c" 800)) None)
            (Fixed.metadata_of_info (sample_info 0) sample_url) sample_url w1
          = (Ok v, w2)
       /\ (if truthy v
           then truthy (Some (str_mul "c" 800)) = true
                /\ Fixed.acquire
                     (fakes None (Some "short") None (Some (str_mul "c" 800)) None)
                     (Fixed.metadata_of_info (sample_info 0) sample_url)
                     (get_or v "") sample_url w2
                   = (Ok (Some (str_mul "c" 800),
                          Fixed.metadata_of_info (sample_info 0) sample_url),
                      called [method1; method2; method3] empty_world)
           else Some (str_mul "c" 800) = None
                /\ called [method1; method2; method3] empty_world = w2).
Proof.
  apply (process_result_invariants (offline (Some (sample_info 0)))
           (fakes None (Some "short") None (Some (str_mul "c" 800)) None)
           sample_url empty_world).
  vm_compute. reflexivity.
Defined.

(* ===================================================================== *)
(** * Further properties: the id of the video, on any URL *)
(* ===================================================================== *)

Section MarkerFacts.
Import Fixed.
Local Open Scope list_scope.







Lemma lacks_char z t :
  (forall c, In c t -> negb (is_char z c) = true) ->
  str_in (String z "") (str t) = false.
Proof.
  intros H. unfold str_in, contains. rewrite chars_str.
  apply (search_lacking _ _ (is_char z)); [now left|].
  intros c Hc. now apply negb_true_iff, H.
Qed.



End MarkerFacts.



(* ===================================================================== *)
(** * Further properties: the transcript-API strategies and the whole run *)
(* ===================================================================== *)

Section ReturnFacts.
Import Fixed FixedMethods.

Lemma transcript_api_returns A video_id w :
  exists o w', get_transcript_with_youtube_transcript_api A video_id w = (Ok o, w').
Proof. apply try_except_returns. Qed.

Lemma proxy_service_returns B A video_id w :
  exists o w', get_transcript_from_proxy_service B A video_id w = (Ok o, w').
Proof. apply try_except_returns. Qed.

Lemma extract_video_id_returns B url w :
  exists o w', extract_video_id B url w = (Ok o, w').
Proof. apply try_except_returns. Qed.

Lemma yt_dlp_returns B url w :
  exists o w', get_full_transcript_with_enhanced_yt_dlp B url w = (Ok o, w').
Proof. apply try_except_returns. Qed.

Lemma mirror_returns B video_id w :
  exists o w',
    get_transcript_from_invidious_with_enhanced_options B video_id w = (Ok o, w').
Proof. apply try_except_returns. Qed.

Lemma fetch_metadata_returns B url w :
  exists m w', fetch_metadata B url w = (Ok m, w').
Proof. apply try_except_returns. Qed.

(** Lines 849-898 return when the four methods do. *)
Lemma acquire_returns self md vid url w :
  (forall v w, exists o w',
      Self.get_transcript_with_youtube_transcript_api self v w = (Ok o, w')) ->
  (forall v w, exists o w',
      Self.get_transcript_from_proxy_service self v w = (Ok o, w')) ->
  (forall u w, exists o w',
      Self.get_full_transcript_with_enhanced_yt_dlp self u w = (Ok o, w')) ->
  (forall v w, exists o w',
      Self.get_transcript_from_invidious_with_enhanced_options self v w
      = (Ok o, w')) ->
  exists t w', acquire self md vid url w = (Ok (t, md), w').
Proof.
  intros R1 R2 R3 R4. unfold acquire.
  destruct (R1 vid w) as (o1 & w1 & H1). rewrite (bind_Ok _ _ _ _ _ H1).
  destruct (longer_than 500 o1); [eauto|].
  destruct (R2 vid w1) as (o2 & w2 & H2). rewrite (bind_Ok _ _ _ _ _ H2).
  destruct (longer_than 500 o2); [eauto|].
  destruct (R3 url w2) as (o3 & w3 & H3). rewrite (bind_Ok _ _ _ _ _ H3).
  destruct (longer_than 500 o3); [eauto|].
  destruct (R4 vid w3) as (o4 & w4 & H4). rewrite (bind_Ok _ _ _ _ _ H4).
  destruct (longer_than 500 o4); [eauto|].
  destruct (truthy o1); [eauto|]. destruct (truthy o2); [eauto|].
  destruct (truthy o3); [eauto|]. destruct (truthy o4); eauto.
Qed.

End ReturnFacts.

(** X4: The only exception that [process_youtube_url] of the yt-dlp version
    lets out, with the service's own five methods and for every behaviour of
    the extraction backend, the transcript library, the mirrors, the
    speech-to-text packages and the filesystem, is the [AttributeError] of a
    metadata request answered with [None]; in every other run it returns a
    pair. *)
Theorem process_exception_safety (B : Fixed.Backends) (A : FixedMethods.Api)
    (video_url : string) (w : World) :
  (exists w1,
      Fixed.fetch_metadata B video_url w = (Ok None, w1)
      /\ Fixed.process_youtube_url B (FixedMethods.full_service B A) video_url w
         = (Raise AttributeError, w1))
  \/ (exists t md w',
         Fixed.process_youtube_url B (FixedMethods.full_service B A) video_url w
         = (Ok (t, md), w')).
Proof.
  unfold Fixed.process_youtube_url.
  destruct (fetch_metadata_returns B video_url w) as ([md|] & w1 & Hmeta);
    rewrite (bind_Ok _ _ _ _ _ Hmeta); [right|left; eauto].
  cbn [Fixed.the_dict]. unfold bind at 1. cbn [ret].
  assert (Hid : exists v w2,
             Fixed.resolve_video_id (FixedMethods.full_service B A) md video_url w1
             = (Ok v, w2)).
  { unfold Fixed.resolve_video_id. destruct (truthy (video_id md)); [eauto|].
    apply extract_video_id_returns. }
  destruct Hid as (v & w2 & Hid). rewrite (bind_Ok _ _ _ _ _ Hid).
  destruct (truthy v); cbn [negb]; [|eauto].
  destruct (acquire_returns (FixedMethods.full_service B A) md (get_or v "")
              video_url w2) as (t & w' & Hacq); [..|eauto].
  - intros; apply transcript_api_returns.
  - intros; apply proxy_service_returns.
  - intros; apply yt_dlp_returns.
  - intros; apply mirror_returns.
Qed.

(** X5: The two transcript-API methods differ in what they do when the lookup of
    the English transcript fails.  The first method goes on to the generated
    transcript only after a [NoTranscriptFound]: any other exception ends it
    with [None].  The proxied method goes on after every exception, and
    returns the entries of the generated transcript joined by single
    spaces. *)
Theorem transcript_lookup_failures (B : Fixed.Backends) (A : FixedMethods.Api)
    (video_id : string) :
  (forall tl e w w1 w2,
      FixedMethods.list_transcripts A video_id FixedMethods.Direct w = (Ok tl, w1) ->
      FixedMethods.find_transcript A tl ["en"] w1 = (Raise e, w2) ->
      FixedMethods.is_NoTranscriptFound A e = false ->
      FixedMethods.get_transcript_with_youtube_transcript_api A video_id w
      = (Ok None, w2))
  /\ (forall tl e t parts w w1 w2 w3 w4,
         FixedMethods.list_transcripts A video_id FixedMethods.Direct w
         = (Ok tl, w1) ->
         FixedMethods.find_transcript A tl ["en"] w1 = (Raise e, w2) ->
         FixedMethods.is_NoTranscriptFound A e = true ->
         FixedMethods.find_generated_transcript A tl ["en"] w2 = (Ok t, w3) ->
         FixedMethods.fetch_text A t w3 = (Ok parts, w4) ->
         FixedMethods.get_transcript_with_youtube_transcript_api A video_id w
         = (Ok (Some (FixedMethods.str_join " " parts)), w4))
  /\ (forall proxy tl e t parts w w0 w1 w2 w3 w4,
         FixedMethods.get_random_proxy A w = (Ok (Some proxy), w0) ->
         FixedMethods.list_transcripts A video_id (FixedMethods.Proxies proxy) w0
         = (Ok tl, w1) ->
         FixedMethods.find_transcript A tl ["en"] w1 = (Raise e, w2) ->
         FixedMethods.find_generated_transcript A tl ["en"] w2 = (Ok t, w3) ->
         FixedMethods.fetch_text A t w3 = (Ok parts, w4) ->
         FixedMethods.get_transcript_from_proxy_service B A video_id w
         = (Ok (Some (FixedMethods.str_join " " parts)), w4)).
Proof.
  split; [|split].
  - intros tl e w w1 w2 Hlist Hfind Hclass.
    unfold FixedMethods.get_transcript_with_youtube_transcript_api.
    erewrite try_except_Raise; [reflexivity|].
    rewrite (bind_Ok _ _ _ _ _ Hlist). unfold try_except_when.
    now rewrite (bind_Raise _ _ _ _ _ Hfind), Hclass.
  - intros tl e t parts w w1 w2 w3 w4 Hlist Hfind Hclass Hgen Hfetch.
    unfold FixedMethods.get_transcript_with_youtube_transcript_api.
    apply try_except_Ok.
    rewrite (bind_Ok _ _ _ _ _ Hlist). unfold try_except_when.
    rewrite (bind_Raise _ _ _ _ _ Hfind), Hclass.
    apply try_except_Ok.
    rewrite (bind_Ok _ _ _ _ _ Hgen). unfold FixedMethods.joined.
    now rewrite (bind_Ok _ _ _ _ _ Hfetch).
  - intros proxy tl e t parts w w0 w1 w2 w3 w4 Hproxy Hlist Hfind Hgen Hfetch.
    unfold FixedMethods.get_transcript_from_proxy_service.
    apply try_except_Ok.
    rewrite (bind_Ok _ _ _ _ _ Hproxy), (bind_Ok _ _ _ _ _ Hlist).
    erewrite try_except_Raise; [|exact (bind_Raise _ _ _ _ _ Hfind)].
    apply try_except_Ok.
    rewrite (bind_Ok _ _ _ _ _ Hgen). unfold FixedMethods.joined.
    now rewrite (bind_Ok _ _ _ _ _ Hfetch).
Qed.

Lemma transcript_lookup_failures_witness :
  FixedMethods.get_transcript_with_youtube_transcript_api
    (Scenarios.catalogue (Raise (Error "HTTP 429"))
                         (Ok ["never gonna"; "give you up"]))
    "dQw4w9WgXcQ" empty_world
  = (Ok None, empty_world)
  /\ FixedMethods.get_transcript_from_proxy_service (offline None)
       (Scenarios.catalogue (Raise (Error "HTTP 429"))
                            (Ok ["never gonna"; "give you up"]))
       "dQw4w9WgXcQ" empty_world
     = (Ok (Some "never gonna give you up"), empty_world).
Proof.
  destruct (transcript_lookup_failures (offline None)
              (Scenarios.catalogue (Raise (Error "HTTP 429"))
                                   (Ok ["never gonna"; "give you up"]))
              "dQw4w9WgXcQ") as (H1 & _ & H3).
  split.
  - refine (H1 tt (Error "HTTP 429") empty_world empty_world empty_world _ _ _);
      reflexivity.
  - refine (H3 (FixedMethods.mkProxy "http://proxy1.example.com:8080"
                                     "https://proxy1.example.com:8080")
               tt (Error "HTTP 429") ["never gonna"; "give you up"]
               ["never gonna"; "give you up"]
               empty_world empty_world empty_world empty_world empty_world
               empty_world _ _ _ _ _);
      reflexivity.
Defined.

(* ===================================================================== *)
(** * Further properties: the subtitle/download strategy *)
(* ===================================================================== *)

Section SubtitleFacts.
Import Fixed.

Lemma filterM_exists (paths : list string) w :
  filterM os_path_exists paths w = (Ok (List.filter (path_exists w) paths), w).
Proof.
  induction paths as [|p paths IH]; [reflexivity|].
  cbn [filterM List.filter]. unfold bind at 1. unfold os_path_exists at 1.
  unfold bind. rewrite IH. reflexivity.
Qed.

Lemma filter_map_head {X Y} (p : Y -> bool) (f : X -> Y) l x rest more :
  List.filter (fun a => p (f a)) l = x :: rest ->
  exists tail, List.filter p (map f l ++ more) = f x :: tail.
Proof.
  induction l as [|a l IH]; [discriminate|]. cbn [List.filter map app].
  destruct (p (f a)).
  - intros [= -> _]. eauto.
  - exact IH.
Qed.

Lemma read_existing path content w :
  path_exists w path = true -> fs w !! path = Some content ->
  read_file path w = (Ok content, w).
Proof.
  intros Hp Hc. unfold read_file. rewrite Hc.
  unfold path_exists in Hp. now destruct (String.eqb path "").
Qed.

End SubtitleFacts.

(** X6: A WebVTT subtitle file on the disk wins over every file of another
    format, and among the WebVTT files the languages are taken in the order
    [en], [en-US], [en-GB], [en-CA], [en-AU]: when the extraction backend
    gave an info dictionary with an id, the strategy returns the WebVTT parse
    of the first such file, whatever its length and whatever other subtitle
    files, subtitles in the dictionary or audio there are. *)
Theorem subtitle_file_priority (B : Fixed.Backends) (video_url rid ua : string)
    (info : Fixed.Info) (w w1 w2 w3 : World) (lang : string) (rest : list string)
    (content : string) :
  Fixed.random_id B w = (Ok rid, w1) ->
  Fixed.get_random_user_agent B w1 = (Ok ua, w2) ->
  Fixed.extract_info B
    (Fixed.SubtitleOpts (Fixed.temp_dir B ++ "/" ++ "subs-" ++ rid) ua)
    video_url w2 = (Ok (Some info), w3) ->
  truthy (Fixed.i_id info) = true ->
  List.filter
    (fun lang =>
       path_exists w3
         ((Fixed.temp_dir B ++ "/" ++ "subs-" ++ rid) ++ "." ++ lang ++ ".vtt"))
    Fixed.subtitle_langs = lang :: rest ->
  fs w3 !! ((Fixed.temp_dir B ++ "/" ++ "subs-" ++ rid) ++ "." ++ lang ++ ".vtt")
  = Some content ->
  Fixed.get_full_transcript_with_enhanced_yt_dlp B video_url w
  = (Ok (Some (parse_vtt content)), w3).
Proof.
  intros Hrid Hua Hinfo Hid Hfilter Hcontent.
  set (path := Fixed.temp_dir B ++ "/" ++ "subs-" ++ rid) in *.
  set (file := fun lang : string => path ++ "." ++ lang ++ ".vtt").
  change (List.filter (fun l => path_exists w3 (file l)) Fixed.subtitle_langs
          = lang :: rest) in Hfilter.
  change (fs w3 !! file lang = Some content) in Hcontent.
  assert (Hex : path_exists w3 (file lang) = true).
  { assert (Hin : In lang (List.filter (fun l => path_exists w3 (file l))
                             Fixed.subtitle_langs))
      by (rewrite Hfilter; now left).
    now apply List.filter_In in Hin as [_ Hin]. }
  unfold Fixed.get_full_transcript_with_enhanced_yt_dlp.
  apply try_except_Ok.
  rewrite (bind_Ok _ _ _ _ _ Hrid), (bind_Ok _ _ _ _ _ Hua).
  erewrite bind_Ok;
    [|apply try_except_Ok; rewrite (bind_Ok _ _ _ _ _ Hinfo); reflexivity].
  cbn [Fixed.metadata_of_info video_id]. rewrite Hid.
  unfold bind at 1. cbn [ret]. rewrite Hid. cbn [negb].
  rewrite (bind_Ok _ _ _ _ _ (filterM_exists _ _)).
  fold path.
  pose (others :=
          flat_map
            (fun ext =>
               map (fun lang => path ++ "." ++ lang ++ "." ++ ext)
                   Fixed.subtitle_langs)
            ["srt"; "ttml"; "srv1"; "srv2"; "srv3"]).
  change (Fixed.subtitle_candidates path)
    with (app (map file Fixed.subtitle_langs) others).
  destruct (filter_map_head (path_exists w3) file _ _ _ others Hfilter)
    as (tail & ->).
  rewrite (bind_Ok _ _ _ _ _ (read_existing _ _ _ Hex Hcontent)).
  unfold parse_subtitles.
  assert (Hvtt : endswith (chars ".vtt") (chars (file lang)) = true).
  { unfold file, endswith, startswith. rewrite !chars_app, !rev_app_distr.
    rewrite <- !app_assoc. apply match_prefix_self. }
  now rewrite Hvtt.
Qed.

Lemma subtitle_file_priority_witness :
  Fixed.get_full_transcript_with_enhanced_yt_dlp
    (offline (Some (sample_info 0))) sample_url
    (mkWorld (<["/tmp/yt/subs-0a1b2c3d.en.srt" := "1"]>
                (<["/tmp/yt/subs-0a1b2c3d.en-GB.vtt" := "WEBVTT"]> ∅)) [])
  = (Ok (Some (parse_vtt "WEBVTT")),
     mkWorld (<["/tmp/yt/subs-0a1b2c3d.en.srt" := "1"]>
                (<["/tmp/yt/subs-0a1b2c3d.en-GB.vtt" := "WEBVTT"]> ∅)) []).
Proof.
  refine (subtitle_file_priority (offline (Some (sample_info 0))) sample_url
            "0a1b2c3d" "agent/1.0" (sample_info 0) _ _ _ _ "en-GB" [] "WEBVTT"
            _ _ _ _ _ _);
    vm_compute; reflexivity.
Defined.

Section OriginFacts.
Import Fixed.

Lemma audio_phase_gate B video_url w t w' :
  audio_phase B video_url w = (Ok (Some t), w') -> (100 < len t)%Z.
Proof.
  unfold audio_phase. intros H.
  apply bind_inv in H as (audio_path & w1 & _ & H).
  apply bind_inv in H as (present & w2 & _ & H).
  destruct (truthy audio_path && present); [|discriminate].
  apply bind_inv in H as (transcript & w3 & _ & H).
  destruct (longer_than 100 transcript) eqn:Hlen; [|discriminate].
  inversion H; subst. cbn in Hlen. apply andb_prop in Hlen as [_ Hlen].
  now apply Z.ltb_lt.
Qed.

Lemma description_fallback_nonempty info md : description_fallback info md <> "".
Proof.
  unfold description_fallback, composite, stub.
  destruct (_ && _); discriminate.
Qed.

Lemma info_subtitles_nonempty info t : info_subtitles info = Some t -> t <> "".
Proof.
  unfold info_subtitles. destruct info as [i|]; [|discriminate].
  destruct (i_subtitles i) as [subs|]; [|discriminate].
  destruct (bool_decide (subs = ∅)); [discriminate|].
  destruct (List.filter _ subtitle_langs); [discriminate|].
  intros [= <-]; discriminate.
Qed.

(** The extraction block of lines 406-425: the dictionary that the backend
    returned, or none when it raised, and the metadata made of it. *)
Lemma extraction_block B opts video_url w info md w' :
  try_except
    (bind (extract_info B opts video_url)
       (fun info =>
          match info with
          | Some i => ret (info, metadata_of_info i video_url)
          | None => ret (info, default_metadata video_url)
          end))
    (fun _ => ret (None, default_metadata video_url)) w = (Ok (info, md), w') ->
  (extract_info B opts video_url w = (Ok info, w')
   \/ (info = None /\ exists e, extract_info B opts video_url w = (Raise e, w')))
  /\ md = match info with
          | Some i => metadata_of_info i video_url
          | None => default_metadata video_url
          end.
Proof.
  unfold try_except, try_except_when, bind, ret.
  destruct (extract_info B opts video_url w) as [[[i|]|e] w1];
    intros [= <- <- <-]; eauto.
Qed.

(** The steps after the id of the video, lines 436-508, for any list of
    candidate files. *)
Lemma origin_after_id B video_url info md (candidates : list string) w4 t w' :
  bind (filterM os_path_exists candidates)
    (fun potential_subtitle_files =>
       match potential_subtitle_files with
       | subtitle_file :: _ =>
           bind (read_file subtitle_file)
                (fun content => ret (Some (parse_subtitles subtitle_file content)))
       | [] =>
           match info_subtitles info with
           | Some t => ret (Some t)
           | None =>
               bind (audio_phase B video_url)
                 (fun transcript =>
                    match transcript with
                    | Some t => ret (Some t)
                    | None => ret (Some (description_fallback info md))
                    end)
           end
       end) w4 = (Ok (Some t), w') ->
  (exists file rest content,
      List.filter (path_exists w4) candidates = file :: rest
      /\ fs w4 !! file = Some content
      /\ t = parse_subtitles file content
      /\ w' = w4)
  \/ (List.filter (path_exists w4) candidates = []
      /\ t <> ""
      /\ ((info_subtitles info = Some t /\ w' = w4)
          \/ (info_subtitles info = None
              /\ audio_phase B video_url w4 = (Ok (Some t), w')
              /\ (100 < len t)%Z)
          \/ (info_subtitles info = None
              /\ audio_phase B video_url w4 = (Ok None, w')
              /\ t = description_fallback info md))).
Proof.
  intros H. rewrite (bind_Ok _ _ _ _ _ (filterM_exists _ _)) in H.
  destruct (List.filter (path_exists w4) candidates) as [|file rest].
  - right. split; [reflexivity|].
    destruct (info_subtitles info) as [s|] eqn:Hsubs.
    + unfold ret in H. injection H as <- <-.
      split; [exact (info_subtitles_nonempty _ _ Hsubs)|]. left. split; reflexivity.
    + apply bind_inv in H as (transcript & w6 & Haudio & H).
      destruct transcript as [a|]; unfold ret in H; injection H as <- <-.
      * pose proof (audio_phase_gate _ _ _ _ _ Haudio) as Hlen.
        split; [intros ->; unfold len in Hlen; simpl in Hlen; lia|].
        right. left. split; [reflexivity|]. split; [exact Haudio|exact Hlen].
      * split; [apply description_fallback_nonempty|].
        right. right. split; [reflexivity|]. split; [exact Haudio|reflexivity].
  - left. apply bind_inv in H as (content & w6 & Hread & H).
    unfold ret in H. injection H as <- <-.
    unfold read_file in Hread.
    destruct (fs w4 !! file) as [c|] eqn:Hc; [|discriminate].
    destruct (String.eqb file ""); [discriminate|].
    injection Hread as <- <-.
    exists file, rest, c. repeat split; reflexivity || exact Hc.
Qed.

End OriginFacts.

(** X25: where a text of the subtitle/download strategy comes from.  The run
    drew a random id and a user agent and asked the extraction backend for
    the info dictionary, which is none when the backend raised; the id of
    the video came from the dictionary or from [extract_video_id].  Then the
    text is, by order of priority: the parse of the first of the candidate
    subtitle files named after this random id that is on the disk, whatever
    the parse gives;
    the subtitles entry of this dictionary; the transcription that the audio
    phase of this run returned, which has more than 100 characters; or the
    fallback made from this dictionary and its metadata.  Only the parse of
    a file can be empty. *)
Theorem yt_dlp_text_origin (B : Fixed.Backends) (video_url : string)
    (w w' : World) (t : string) :
  Fixed.get_full_transcript_with_enhanced_yt_dlp B video_url w
  = (Ok (Some t), w') ->
  exists (rid ua : string) (info : option Fixed.Info) (w1 w2 w3 w4 : World),
    let subtitle_path := Fixed.temp_dir B ++ "/" ++ "subs-" ++ rid in
    let md := match info with
              | Some i => Fixed.metadata_of_info i video_url
              | None => Fixed.default_metadata video_url
              end in
    Fixed.random_id B w = (Ok rid, w1)
    /\ Fixed.get_random_user_agent B w1 = (Ok ua, w2)
    /\ (Fixed.extract_info B (Fixed.SubtitleOpts subtitle_path ua) video_url w2
        = (Ok info, w3)
        \/ (info = None
            /\ exists e,
                 Fixed.extract_info B (Fixed.SubtitleOpts subtitle_path ua)
                   video_url w2 = (Raise e, w3)))
    /\ ((truthy (video_id md) = true /\ w4 = w3)
        \/ (truthy (video_id md) = false
            /\ exists vid,
                 Fixed.extract_video_id B video_url w3 = (Ok vid, w4)
                 /\ truthy vid = true))
    /\ ((exists file rest content,
            List.filter (path_exists w4) (Fixed.subtitle_candidates subtitle_path)
            = file :: rest
            /\ fs w4 !! file = Some content
            /\ t = parse_subtitles file content
            /\ w' = w4)
        \/ (List.filter (path_exists w4) (Fixed.subtitle_candidates subtitle_path)
            = []
            /\ t <> ""
            /\ ((Fixed.info_subtitles info = Some t /\ w' = w4)
                \/ (Fixed.info_subtitles info = None
                    /\ Fixed.audio_phase B video_url w4 = (Ok (Some t), w')
                    /\ (100 < len t)%Z)
                \/ (Fixed.info_subtitles info = None
                    /\ Fixed.audio_phase B video_url w4 = (Ok None, w')
                    /\ t = Fixed.description_fallback info md)))).
Proof.
  unfold Fixed.get_full_transcript_with_enhanced_yt_dlp. intros H.
  apply try_except_Some in H.
  apply bind_inv in H as (rid & w1 & Hrid & H).
  apply bind_inv in H as (ua & w2 & Hua & H).
  apply bind_inv in H as ([info md] & w3 & Hblock & H).
  apply extraction_block in Hblock as [Hinfo Hmd].
  apply bind_inv in H as (vid & w4 & Hvid & H).
  exists rid, ua, info, w1, w2, w3, w4. cbv zeta. rewrite <- Hmd.
  split; [exact Hrid|]. split; [exact Hua|]. split; [exact Hinfo|].
  destruct (negb (truthy vid)) eqn:Htruthy; [discriminate|].
  apply negb_false_iff in Htruthy.
  split.
  - destruct (truthy (video_id md)) eqn:Hknown.
    + left. split; [reflexivity|]. unfold ret in Hvid. congruence.
    + right. split; [reflexivity|]. exists vid. split; [exact Hvid|exact Htruthy].
  - exact (origin_after_id B video_url info md _ w4 t w' H).
Qed.

Lemma yt_dlp_text_origin_witness :
  exists (rid ua : string) (info : option Fixed.Info) (w1 w2 w3 w4 : World),
    let subtitle_path :=
      Fixed.temp_dir (offline (Some (sample_info 150))) ++ "/" ++ "subs-" ++ rid in
    let md := match info with
              | Some i => Fixed.metadata_of_info i sample_url
              | None => Fixed.default_metadata sample_url
              end in
    Fixed.random_id (offline (Some (sample_info 150))) empty_world = (Ok rid, w1)
    /\ Fixed.get_random_user_agent (offline (Some (sample_info 150))) w1
       = (Ok ua, w2)
    /\ (Fixed.extract_info (offline (Some (sample_info 150)))
          (Fixed.SubtitleOpts subtitle_path ua) sample_url w2
        = (Ok info, w3)
        \/ (info = None
            /\ exists e,
                 Fixed.extract_info (offline (Some (sample_info 150)))
                   (Fixed.SubtitleOpts subtitle_path ua) sample_url w2
                 = (Raise e, w3)))
    /\ ((truthy (video_id md) = true /\ w4 = w3)
        \/ (truthy (video_id md) = false
            /\ exists vid,
                 Fixed.extract_video_id (offline (Some (sample_info 150)))
                   sample_url w3 = (Ok vid, w4)
                 /\ truthy vid = true))
    /\ ((exists file rest content,
            List.filter (path_exists w4) (Fixed.subtitle_candidates subtitle_path)
            = file :: rest
            /\ fs w4 !! file = Some content
            /\ Fixed.composite "A talk" (str_mul "d" 150)
               = parse_subtitles file content
            /\ empty_world = w4)
        \/ (List.filter (path_exists w4) (Fixed.subtitle_candidates subtitle_path)
            = []
            /\ Fixed.composite "A talk" (str_mul "d" 150) <> ""
            /\ ((Fixed.info_subtitles info
                 = Some (Fixed.composite "A talk" (str_mul "d" 150))
                 /\ empty_world = w4)
                \/ (Fixed.info_subtitles info = None
                    /\ Fixed.audio_phase (offline (Some (sample_info 150)))
                         sample_url w4
                       = (Ok (Some (Fixed.composite "A talk" (str_mul "d" 150))),
                          empty_world)
                    /\ (100 < len (Fixed.composite "A talk" (str_mul "d" 150)))%Z)
                \/ (Fixed.info_subtitles info = None
                    /\ Fixed.audio_phase (offline (Some (sample_info 150)))
                         sample_url w4 = (Ok None, empty_world)
                    /\ Fixed.composite "A talk" (str_mul "d" 150)
                       = Fixed.description_fallback info md)))).
Proof.
  apply (yt_dlp_text_origin (offline (Some (sample_info 150))) sample_url
           empty_world empty_world).
  vm_compute. reflexivity.
Defined.



Section TranscribeFacts.
Import Fixed Scenarios.


End TranscribeFacts.



Section DownloadFacts.
Import Fixed FixedMethods.
Local Open Scope list_scope.

(** [replace] gives back what precedes the extension. *)
Lemma replace_extension stem ext :
  chars ext <> [] ->
  clear_of (map is_char (chars ext)) (chars stem) = true ->
  replace ext "" (stem ++ ext) = stem.
Proof.
  intros Hne Hclear. unfold replace, split. rewrite chars_app.
  replace (chars stem ++ chars ext) with (chars stem ++ chars ext ++ [])
    by now rewrite app_nil_r.
  rewrite (split_go_clear _ _ _ Hclear), (split_go_at_sep _ _ Hne).
  cbn [split_go join chars list_ascii_of_string app].
  rewrite !app_nil_r. apply str_chars.
Qed.

End DownloadFacts.

Section DownloadPathFacts.
Import Fixed FixedMethods.

Lemma append_assoc (a b c : string) : (a ++ b) ++ c = a ++ b ++ c.
Proof.
  induction a as [|x a IH]; [reflexivity|].
  change (String x ((a ++ b) ++ c) = String x (a ++ b ++ c)). now f_equal.
Qed.

Lemma os_path_join_ext a b ext :
  os_path_join a (b ++ ext) = os_path_join a b ++ ext.
Proof.
  unfold os_path_join. destruct (String.eqb a ""); [reflexivity|].
  destruct (str_endswith "/" a); now rewrite !append_assoc.
Qed.

End DownloadPathFacts.

(** X9: [download_audio_from_youtube] never raises, and a path it returns ends
    in [.mp3] and names a file that exists when it returns. *)
Theorem download_audio_checked (B : Fixed.Backends)
    (ydl_download : string -> string -> string -> M unit) (video_url : string)
    (w : World) :
  exists (r : option string) (w' : World),
    FixedMethods.download_audio_from_youtube B ydl_download video_url w = (Ok r, w')
    /\ forall p, r = Some p ->
                 path_exists w' p = true /\ Fixed.str_endswith ".mp3" p = true.
Proof.
  unfold FixedMethods.download_audio_from_youtube, try_except, try_except_when.
  unfold bind at 1.
  destruct (Fixed.random_id B w) as [[rid|e] w1];
    [|exists None, w1; split; [reflexivity|discriminate]].
  unfold bind at 1.
  destruct (Fixed.get_random_user_agent B w1) as [[ua|e] w2];
    [|exists None, w2; split; [reflexivity|discriminate]].
  unfold bind at 1.
  destruct (ydl_download _ ua video_url w2) as [[[]|e] w3];
    [|exists None, w3; split; [reflexivity|discriminate]].
  unfold bind, os_path_exists, ret.
  match goal with
  | |- context [path_exists w3 ?p] => destruct (path_exists w3 p) eqn:Hp
  end.
  - eexists (Some _), w3. split; [reflexivity|].
    intros p [= <-]. split; [exact Hp|].
    unfold Fixed.str_endswith, endswith, startswith.
    rewrite chars_app, rev_app_distr. apply match_prefix_self.
  - exists None, w3. split; [reflexivity|discriminate].
Qed.

(** X10: When [.mp3] does not occur in the path before the extension, yt-dlp is
    given the path of the audio file without its extension as the output
    template, and the file that is looked for afterwards is that template
    with [.mp3] appended: the path [temp_dir/audio-<id>.mp3] itself. *)
Theorem download_audio_path (B : Fixed.Backends)
    (ydl_download : string -> string -> string -> M unit)
    (video_url rid ua : string) (w w1 w2 : World) :
  Fixed.random_id B w = (Ok rid, w1) ->
  Fixed.get_random_user_agent B w1 = (Ok ua, w2) ->
  clear_of (map is_char (chars ".mp3"))
    (chars (FixedMethods.os_path_join (Fixed.temp_dir B) ("audio-" ++ rid))) = true ->
  FixedMethods.download_audio_from_youtube B ydl_download video_url w
  = match ydl_download
            (FixedMethods.os_path_join (Fixed.temp_dir B) ("audio-" ++ rid))
            ua video_url w2 with
    | (Ok _, w3) =>
        (Ok (if path_exists w3
                  (FixedMethods.os_path_join (Fixed.temp_dir B)
                     ("audio-" ++ rid ++ ".mp3"))
             then Some (FixedMethods.os_path_join (Fixed.temp_dir B)
                          ("audio-" ++ rid ++ ".mp3"))
             else None), w3)
    | (Raise _, w3) => (Ok None, w3)
    end.
Proof.
  intros Hrid Hua Hclear.
  unfold FixedMethods.download_audio_from_youtube, try_except, try_except_when.
  rewrite (bind_Ok _ _ _ _ _ Hrid), (bind_Ok _ _ _ _ _ Hua).
  change ("audio-" ++ rid ++ ".mp3") with (("audio-" ++ rid) ++ ".mp3").
  rewrite os_path_join_ext.
  rewrite (replace_extension _ ".mp3" ltac:(discriminate) Hclear).
  unfold bind at 1.
  destruct (ydl_download _ ua video_url w2) as [[[]|e] w3]; [|reflexivity].
  unfold bind, os_path_exists, ret.
  now destruct (path_exists w3 _).
Qed.

Lemma download_audio_path_witness :
  FixedMethods.download_audio_from_youtube (offline None) Scenarios.ydl_writes
    sample_url empty_world
  = (Ok (Some "/tmp/yt/audio-0a1b2c3d.mp3"),
     mkWorld (<["/tmp/yt/audio-0a1b2c3d.mp3" := "ID3..."]> ∅) []).
Proof.
  refine (download_audio_path (offline None) Scenarios.ydl_writes sample_url
            "0a1b2c3d" "agent/1.0" empty_world empty_world empty_world _ _ _);
    reflexivity.
Defined.

(* ===================================================================== *)
(** * Further properties: the mirror strategy *)
(* ===================================================================== *)

Section MirrorGate.
Import Fixed.
Variable B : Backends.

Lemma parse_caption_gate caption_url content t :
  parse_caption caption_url content = Some t -> (100 < len t)%Z.
Proof.
  unfold parse_caption.
  assert (Hgate : forall x, (if (100 <? len x)%Z then Some x else None) = Some t ->
                            (100 < len t)%Z).
  { intros x. destruct (100 <? len x)%Z eqn:Hx; [|discriminate].
    intros [= <-]. now apply Z.ltb_lt. }
  destruct (_ || _); [apply Hgate|]. destruct (_ || _); apply Hgate.
Qed.

Lemma fetch_caption_gate attempts instance ua caption_url w t w' :
  fetch_caption B attempts instance ua caption_url w = (Ok (Some t), w') ->
  (100 < len t)%Z.
Proof.
  revert w. induction attempts as [|n IH]; intros w; [discriminate|].
  cbn [fetch_caption]. intros H.
  apply bind_inv in H as (o & w1 & Ho & H).
  destruct o as [t0| |]; [|discriminate|exact (IH _ H)].
  inversion H; subst t0 w1. clear H.
  unfold try_except, try_except_when, bind, ret in Ho.
  destruct (requests_get B caption_url ua instance w) as [[resp|e] w2];
    [|discriminate].
  destruct (status_code resp =? 200)%Z; [|discriminate].
  destruct (parse_caption caption_url (body resp)) as [t1|] eqn:Hp;
    [|discriminate].
  inversion Ho; subst. exact (parse_caption_gate _ _ _ Hp).
Qed.

Lemma try_captions_gate usable instance ua captions w t w' :
  try_captions B usable instance ua captions w = (Ok (Some t), w') ->
  (100 < len t)%Z.
Proof.
  unfold try_captions.
  apply (first_some_inv (fun t => (100 < len t)%Z)).
  intros item w0 t0 w0'. destruct (usable (c_url item)); [|discriminate].
  apply fetch_caption_gate.
Qed.

Lemma captions_step_gate instance ua response w t w' :
  captions_step B instance ua response w = (Ok (Some t), w') -> (100 < len t)%Z.
Proof.
  unfold captions_step. destruct (status_code response =? 200)%Z; [|discriminate].
  intros H. apply try_except_Some in H.
  apply bind_inv in H as (data & w1 & _ & H).
  destruct data as [[|item items]|]; try discriminate.
  exact (try_captions_gate _ _ _ _ _ _ _ H).
Qed.

Lemma composite_length title description :
  (len description < len (composite title description))%Z.
Proof.
  unfold composite, len. rewrite !length_append. cbn [String.length]. lia.
Qed.

Lemma details_description_gate data t :
  details_description data = Some t -> (200 < len t)%Z.
Proof.
  unfold details_description. destruct (v_description data) as [d|]; [|discriminate].
  destruct (negb (String.eqb d "")); [|discriminate]. cbn [andb].
  destruct (200 <? len d)%Z eqn:Hd; [|discriminate].
  intros [= <-]. apply Z.ltb_lt in Hd.
  pose proof (composite_length (get_or (v_title data) "Unknown") d). lia.
Qed.

Lemma details_step_gate instance ua video_id w t w' :
  details_step B instance ua video_id w = (Ok (Some t), w') -> (100 < len t)%Z.
Proof.
  unfold details_step. intros H. apply try_except_Some in H.
  apply bind_inv in H as (response & w1 & _ & H).
  destruct (status_code response =? 200)%Z; [|discriminate].
  apply bind_inv in H as (data & w2 & _ & H).
  apply bind_inv in H as (from_captions & w3 & Hc & H).
  destruct from_captions as [t0|].
  - inversion H; subst.
    destruct (v_captions data) as [[|c cs]|]; try discriminate.
    exact (try_captions_gate _ _ _ _ _ _ _ Hc).
  - inversion H as [Hd].
    pose proof (details_description_gate _ _ Hd). lia.
Qed.

Lemma try_instance_gate video_id instance ua w t w' :
  try_instance B video_id instance ua w = (Ok (Some t), w') -> (100 < len t)%Z.
Proof.
  unfold try_instance. intros H. apply try_except_Some in H.
  apply bind_inv in H as (response & w1 & _ & H).
  apply bind_inv in H as (from_captions & w2 & Hc & H).
  destruct from_captions as [t0|].
  - inversion H; subst. exact (captions_step_gate _ _ _ _ _ _ Hc).
  - exact (details_step_gate _ _ _ _ _ _ H).
Qed.

Lemma mirror_loop_gate video_id instances agents w t w' :
  mirror_loop B video_id instances agents w = (Ok (Some t), w') -> (100 < len t)%Z.
Proof.
  revert agents w. induction instances as [|instance instances IH];
    intros agents w; [discriminate|].
  cbn [mirror_loop]. intros H.
  apply bind_inv in H as (agents' & w1 & _ & H).
  apply bind_inv in H as (found & w2 & Hfound & H).
  destruct found as [t0|]; [|exact (IH _ _ H)].
  inversion H; subst t0 w2. revert Hfound.
  apply (first_some_inv (fun t => (100 < len t)%Z)).
  intros ua w3 t3 w3'. apply try_instance_gate.
Qed.

End MirrorGate.

(** X11: Whatever the mirrors answer, a text that the mirror strategy returns is
    longer than 100 characters: a caption text passed the gate of 100, and
    a title+description composite has a description of more than 200. *)
Theorem mirror_text_gate (B : Fixed.Backends) (video_id : string)
    (w w' : World) (t : string) :
  Fixed.get_transcript_from_invidious_with_enhanced_options B video_id w
  = (Ok (Some t), w') ->
  (100 < len t)%Z.
Proof.
  unfold Fixed.get_transcript_from_invidious_with_enhanced_options.
  intros H. apply try_except_Some in H.
  apply bind_inv in H as (instances & w1 & _ & H).
  exact (mirror_loop_gate B video_id instances _ w1 t w' H).
Qed.

Lemma mirror_text_gate_witness :
  (100 < len (Fixed.composite "A talk" (str_mul "d" 201)))%Z.
Proof.
  apply (mirror_text_gate (mirror_only (sample_details 201)) "dQw4w9WgXcQ"
           empty_world empty_world).
  reflexivity.
Defined.

Section ScriptedFacts.
Import Fixed Scenarios.
Variable B : Backends.
Variable script : nat -> res Response.
Hypothesis scripted_get : requests_get B = scripted script.

Lemma called_called a b w : called b (called a w) = called (a ++ b)%list w.
Proof. unfold called. cbn [fs calls]. now rewrite <- app_assoc. Qed.

Lemma called_nil w : called [] w = w.
Proof. unfold called. rewrite app_nil_r. now destruct w. Qed.

Lemma request_scripted url ua referer w :
  requests_get B url ua referer w
  = (script (List.length (calls w)), called [url] w).
Proof. now rewrite scripted_get. Qed.

Lemma calls_called names w :
  List.length (calls (called names w))
  = List.length (calls w) + List.length names.
Proof. unfold called. cbn [calls]. apply length_app. Qed.

(** The retry loop of lines 578-629 behind the scripted client. *)
Lemma fetch_caption_scripted budget instance ua url w :
  fetch_caption B budget instance ua url w
  = (Ok (match budget with
         | O => None
         | S _ =>
             match script (List.length (calls w)
                           + requests_made script (List.length (calls w)) budget
                           - 1) with
             | Ok response =>
                 if (status_code response =? 200)%Z
                 then parse_caption url (body response) else None
             | Raise _ => None
             end
         end),
     called (repeat url (requests_made script (List.length (calls w)) budget)) w).
Proof.
  revert w. induction budget as [|budget IH]; intros w.
  - cbn [fetch_caption requests_made repeat]. now rewrite called_nil.
  - cbn [fetch_caption requests_made].
    unfold try_except, try_except_when. unfold bind at 1. unfold bind at 1.
    rewrite request_scripted.
    set (n := List.length (calls w)).
    assert (Hretry :
              failed (script n) = true ->
              fetch_caption B budget instance ua url (called [url] w)
              = (Ok match script (n + S (requests_made script (S n) budget) - 1) with
                    | Ok response =>
                        if (status_code response =? 200)%Z
                        then parse_caption url (body response) else None
                    | Raise _ => None
                    end,
                 called (repeat url (S (requests_made script (S n) budget))) w)).
    { intros Hf. rewrite IH, calls_called. cbn [List.length repeat].
      fold n. replace (n + 1) with (S n) by lia.
      rewrite called_called. cbn [app]. f_equal. f_equal.
      destruct budget as [|budget'].
      - cbn [requests_made]. replace (n + 1 - 1) with n by lia.
        destruct (script n) as [response|e]; [|reflexivity].
        cbn [failed] in Hf. apply negb_true_iff in Hf. now rewrite Hf.
      - replace (n + S (requests_made script (S n) (S budget')) - 1)
          with (S n + requests_made script (S n) (S budget') - 1) by lia.
        reflexivity. }
    destruct (script n) as [response|e] eqn:Hs.
    + cbn [failed]. destruct (status_code response =? 200)%Z eqn:Hst; cbn [negb].
      * replace (n + 1 - 1) with n by lia. rewrite Hs, Hst.
        destruct (parse_caption url (body response)); reflexivity.
      * cbn [ret]. apply Hretry. cbn [failed]. now rewrite Hst.
    + cbn [failed ret]. apply Hretry. reflexivity.
Qed.

Lemma requests_made_bounds n budget :
  0 < budget -> 1 <= requests_made script n budget <= budget.
Proof.
  revert n. induction budget as [|budget IH]; intros n Hb; [lia|].
  cbn [requests_made]. destruct (failed (script n)); [|lia].
  destruct budget as [|budget']; [cbn; lia|].
  specialize (IH (S n) ltac:(lia)). lia.
Qed.

End ScriptedFacts.

(** X12: Behind an HTTP client that follows a script, a caption URL is requested
    at least once and at most three times, always the same URL; the loop
    stops at the first answer with status 200, whether or not its text passes
    the gate, and goes on after an exception or another status; the result is
    the gated parse of the last answer when that one has status 200, and
    [None] otherwise. *)
Theorem fetch_caption_budget (B : Fixed.Backends) (script : nat -> res Fixed.Response)
    (instance ua url : string) (w : World) :
  Fixed.requests_get B = Scenarios.scripted script ->
  let n := List.length (calls w) in
  let k := Scenarios.requests_made script n 3 in
  1 <= k <= 3
  /\ (Scenarios.failed (script n) = false -> k = 1)
  /\ Fixed.fetch_caption B 3 instance ua url w
     = (Ok match script (n + k - 1) with
           | Ok response =>
               if (Fixed.status_code response =? 200)%Z
               then Fixed.parse_caption url (Fixed.body response) else None
           | Raise _ => None
           end,
        called (repeat url k) w).
Proof.
  intros Hget n k. split; [|split].
  - apply requests_made_bounds. lia.
  - intros Hf. subst k. cbn [Scenarios.requests_made]. now rewrite Hf.
  - exact (fetch_caption_scripted B script Hget 3 instance ua url w).
Qed.

Lemma fetch_caption_budget_witness :
  1 <= Scenarios.requests_made Scenarios.flaky 0 3 <= 3
  /\ (Scenarios.failed (Scenarios.flaky 0) = false ->
      Scenarios.requests_made Scenarios.flaky 0 3 = 1)
  /\ Fixed.fetch_caption
       (Scenarios.mirrors (fun l => l) [] [] Scenarios.flaky None (sample_details 0))
       3 "https://mirror.example" "agent/1.0" "https://mirror.example/c.vtt"
       empty_world
     = (Ok None,
        called ["https://mirror.example/c.vtt"; "https://mirror.example/c.vtt";
                "https://mirror.example/c.vtt"] empty_world).
Proof.
  apply (fetch_caption_budget
           (Scenarios.mirrors (fun l => l) [] [] Scenarios.flaky None
              (sample_details 0))
           Scenarios.flaky "https://mirror.example" "agent/1.0"
           "https://mirror.example/c.vtt" empty_world).
  reflexivity.
Defined.

Section ExhaustFacts.
Import Fixed Scenarios.
Variable B : Backends.
Variable script : nat -> res Response.
Variable perm : list string -> list string.
Hypothesis recording_get : requests_get B = recording script.
Hypothesis fixed_shuffle : shuffle B = fun l => ret (perm l).
Hypothesis all_fail : forall n, failed (script n) = true.

Lemma request_recorded url ua referer w :
  requests_get B url ua referer w
  = (script (List.length (calls w)), called [request_line url ua] w).
Proof. now rewrite recording_get. Qed.

(** The requests of one (mirror, user agent) pair. *)
Lemma try_instance_failing video_id instance ua w :
  try_instance B video_id instance ua w
  = (Ok None,
     called (pair_requests script video_id (List.length (calls w)) (instance, ua))
            w).
Proof.
  unfold pair_requests, captions_url, videos_url.
  unfold try_instance, try_except, try_except_when.
  unfold bind at 1. rewrite request_recorded.
  pose proof (all_fail (List.length (calls w))) as Hfirst.
  destruct (script (List.length (calls w))) as [r|e]; [|reflexivity].
  cbn [failed] in Hfirst. apply negb_true_iff in Hfirst.
  unfold bind at 1. unfold captions_step. rewrite Hfirst. cbn [ret].
  unfold details_step, try_except, try_except_when.
  unfold bind at 1. rewrite request_recorded.
  match goal with
  | |- context [script ?n] => pose proof (all_fail n) as Hsecond;
                              destruct (script n) as [r'|e']
  end.
  - cbn [failed] in Hsecond. apply negb_true_iff in Hsecond.
    rewrite Hsecond. cbn [ret]. now rewrite called_called.
  - cbn [ret]. now rewrite called_called.
Qed.

Lemma trace_app video_id n a b :
  trace script video_id n (a ++ b)
  = (trace script video_id n a
     ++ trace script video_id (n + List.length (trace script video_id n a)) b)%list.
Proof.
  revert n. induction a as [|visit a IH]; intros n.
  - cbn [app trace List.length]. now rewrite Nat.add_0_r.
  - cbn [app trace]. rewrite IH, <- app_assoc. do 3 f_equal.
    rewrite length_app. lia.
Qed.

(** The loop over the user agents of a mirror. *)
Lemma agents_loop_failing video_id instance agents w :
  first_some (try_instance B video_id instance) agents w
  = (Ok None,
     called (trace script video_id (List.length (calls w))
               (map (pair instance) agents)) w).
Proof.
  revert w. induction agents as [|ua agents IH]; intros w.
  - cbn. now rewrite called_nil.
  - cbn [first_some map trace]. unfold bind.
    rewrite try_instance_failing, IH, calls_called, called_called.
    reflexivity.
Qed.

Lemma mirror_loop_failing video_id instances agents w :
  mirror_loop B video_id instances agents w
  = (Ok None,
     called (trace script video_id (List.length (calls w))
               (visits perm instances agents)) w).
Proof.
  revert agents w. induction instances as [|instance instances IH];
    intros agents w.
  - cbn. now rewrite called_nil.
  - cbn [mirror_loop visits]. rewrite fixed_shuffle.
    unfold bind at 1. cbn [ret]. unfold bind at 1.
    rewrite agents_loop_failing, IH, calls_called, called_called, trace_app.
    reflexivity.
Qed.

End ExhaustFacts.

(** X13: Behind an HTTP client that follows a script and records the user
    agent and the URL of every request, and with a fixed reordering in place
    of [random.shuffle]: when every request fails (it raises, or is answered
    with another status than 200), a (mirror, user agent) pair gives nothing
    after its captions request if that one raises, and after its captions
    and its videos request otherwise; and the strategy returns [None] after
    going through the mirrors in their reordered order and, for each mirror,
    through all the user agents in the order that one more reordering of the
    list, as the mirror before left it, gives. *)
Theorem mirror_exhausts (B : Fixed.Backends) (script : nat -> res Fixed.Response)
    (perm : list string -> list string) (video_id : string) (w : World) :
  Fixed.requests_get B = Scenarios.recording script ->
  Fixed.shuffle B = (fun l => ret (perm l)) ->
  (forall n, Scenarios.failed (script n) = true) ->
  (forall instance user_agent w0,
      Fixed.try_instance B video_id instance user_agent w0
      = (Ok None,
         called
           (Scenarios.request_line (Scenarios.captions_url video_id instance)
                                   user_agent
            :: match script (List.length (calls w0)) with
               | Raise _ => []
               | Ok _ =>
                   [Scenarios.request_line
                      (Scenarios.videos_url video_id instance) user_agent]
               end) w0))
  /\ Fixed.get_transcript_from_invidious_with_enhanced_options B video_id w
     = (Ok None,
        called
          (Scenarios.trace script video_id (List.length (calls w))
             (Scenarios.visits perm (perm (Fixed.invidious_instances B))
                               (Fixed.user_agents B))) w).
Proof.
  intros Hget Hshuffle Hall. split.
  - intros instance user_agent w0.
    exact (try_instance_failing B script Hget Hall video_id instance user_agent w0).
  - unfold Fixed.get_transcript_from_invidious_with_enhanced_options.
    apply try_except_Ok. rewrite Hshuffle. unfold bind at 1. cbn [ret].
    exact (mirror_loop_failing B script perm Hget Hshuffle Hall video_id _ _ w).
Qed.

Lemma mirror_exhausts_witness :
  Fixed.get_transcript_from_invidious_with_enhanced_options
    (Scenarios.observed_mirrors Scenarios.rotate
       ["https://a.example"; "https://b.example"] ["agent/1.0"; "agent/2.0"]
       Scenarios.failing)
    "dQw4w9WgXcQ" empty_world
  = (Ok None,
     called ["agent/2.0 GET https://b.example/api/v1/captions/dQw4w9WgXcQ";
             "agent/2.0 GET https://b.example/api/v1/videos/dQw4w9WgXcQ";
             "agent/1.0 GET https://b.example/api/v1/captions/dQw4w9WgXcQ";
             "agent/1.0 GET https://a.example/api/v1/captions/dQw4w9WgXcQ";
             "agent/1.0 GET https://a.example/api/v1/videos/dQw4w9WgXcQ";
             "agent/2.0 GET https://a.example/api/v1/captions/dQw4w9WgXcQ";
             "agent/2.0 GET https://a.example/api/v1/videos/dQw4w9WgXcQ"]
            empty_world).
Proof.
  refine (proj2 (mirror_exhausts
                   (Scenarios.observed_mirrors Scenarios.rotate
                      ["https://a.example"; "https://b.example"]
                      ["agent/1.0"; "agent/2.0"] Scenarios.failing)
                   Scenarios.failing Scenarios.rotate "dQw4w9WgXcQ" empty_world
                   _ _ _));
    [reflexivity|reflexivity|].
  intros [|[|[|n]]]; reflexivity.
Defined.

(* ===================================================================== *)
(** * Further properties: the caption parsers *)
(* ===================================================================== *)

Section OutputFacts.
Local Open Scope list_scope.

(** The joined lines of a line rule: one stripped line. *)
Lemma line_rule_output keep content :
  keep [] = false ->
  (forall l r, keep l = true -> keep (l ++ SP ++ r) = true) ->
  stripped (join SP (collect keep content))
  /\ ~ In "010"%char (join SP (collect keep content)).
Proof.
  intros Hne Happ.
  pose proof (collected_lines keep Hne content) as Hall.
  split.
  - apply join_stripped. eapply List.Forall_impl; [|exact Hall].
    now intros l (H & _).
  - intros Hin. apply In_join in Hin as [Hin|(l & Hl & Hin)].
    + destruct Hin as [Hin|[]]. discriminate.
    + rewrite List.Forall_forall in Hall.
      destruct (Hall l Hl) as (_ & _ & Hno). now apply Hno.
Qed.

Lemma is_char_space c : is_char " "%char c = true -> is_space c = true.
Proof.
  unfold is_char. destruct (Ascii.eqb_spec " "%char c); [now subst|discriminate].
Qed.

(** The generic rule leaves no two spaces in a row; after a whitespace
    character its output does not start with a space. *)
Lemma sub_ws_runs in_run s :
  search [is_char " "%char; is_char " "%char] (sub_ws in_run s) = false
  /\ (in_run = true -> match_prefix [is_char " "%char] (sub_ws in_run s) = false).
Proof.
  revert in_run. induction s as [|c s IH]; intros in_run; [now split|].
  cbn [sub_ws]. destruct (is_space c) eqn:Hc.
  - destruct in_run.
    + apply IH.
    + destruct (IH true) as [Hs Hp]. split; [|discriminate].
      cbn [search match_prefix].
      cbn [match_prefix] in Hp. rewrite (Hp eq_refl).
      rewrite andb_false_r. exact Hs.
  - destruct (IH false) as [Hs _].
    assert (Hnc : is_char " "%char c = false).
    { destruct (is_char " "%char c) eqn:H; [|reflexivity].
      apply is_char_space in H. congruence. }
    split.
    + cbn [search match_prefix]. rewrite Hnc. exact Hs.
    + intros _. cbn [match_prefix]. now rewrite Hnc.
Qed.

Lemma sub_ws_spaces in_run s c :
  In c (sub_ws in_run s) -> is_space c = true -> c = " "%char.
Proof.
  revert in_run. induction s as [|x s IH]; intros in_run; [intros []|].
  cbn [sub_ws]. destruct (is_space x) eqn:Hx.
  - destruct in_run; [apply IH|].
    intros [<-|H]; [reflexivity|now apply (IH true)].
  - intros [<-|H] Hc; [congruence|now apply (IH false)].
Qed.

End OutputFacts.

(** X14: The shape of what the caption parser returns, for every input: the
    WebVTT and the SRT rule return one line (no newline) without whitespace
    at its ends; the generic rule returns a text whose only whitespace
    characters are spaces, no two of them in a row. *)
Theorem parser_output_shape (content : string) :
  (Fixed.str_in Fixed.nl (parse_vtt content) = false
   /\ stripped (chars (parse_vtt content)))
  /\ (Fixed.str_in Fixed.nl (parse_srt content) = false
      /\ stripped (chars (parse_srt content)))
  /\ (Fixed.str_in "  " (parse_generic content) = false
      /\ forall c, In c (chars (parse_generic content)) ->
                   is_space c = true -> c = " "%char).
Proof.
  assert (Hline : forall keep,
             keep [] = false ->
             (forall l r, keep l = true -> keep (l ++ SP ++ r)%list = true) ->
             Fixed.str_in Fixed.nl (str (join SP (collect keep (chars content)))) = false
             /\ stripped (chars (str (join SP (collect keep (chars content)))))).
  { intros keep Hne Happ.
    destruct (line_rule_output keep (chars content) Hne Happ) as [Hs Hno].
    rewrite chars_str. split; [|exact Hs].
    apply (lacks_char "010"%char). intros c Hc.
    unfold is_char. destruct (Ascii.eqb_spec "010"%char c); [now subst|reflexivity]. }
  split; [|split].
  - apply (Hline vtt_keep); [reflexivity|apply vtt_keep_app].
  - apply (Hline srt_keep); [reflexivity|apply srt_keep_app].
  - unfold parse_generic, parse_generic_text. rewrite chars_str. split.
    + unfold Fixed.str_in, contains. rewrite chars_str.
      apply (sub_ws_runs false).
    + apply sub_ws_spaces.
Qed.

Section SrtFacts.
Import SrtDocs.
Local Open Scope list_scope.

Lemma digits_to_end_all n : forallb is_digit n = true -> digits_to_end n = true.
Proof.
  induction n as [|c n IH]; [reflexivity|]. cbn [forallb digits_to_end].
  intros H. apply andb_prop in H as [-> H]. now apply IH.
Qed.

Lemma digits_stripped n : n <> [] -> forallb is_digit n = true -> stripped n.
Proof.
  intros Hne Hn. right.
  assert (Hsolid : forall m, m <> [] -> forallb is_digit m = true ->
                             starts_solid m = true).
  { intros [|c m] Hm Hd; [congruence|]. cbn [forallb] in Hd.
    apply andb_prop in Hd as [Hc _]. cbn [starts_solid].
    now rewrite (is_digit_solid c Hc). }
  split; [now apply Hsolid|]. apply Hsolid.
  - intros Hr. apply Hne. apply (f_equal (@rev ascii)) in Hr.
    now rewrite rev_involutive in Hr.
  - now rewrite forallb_rev.
Qed.

Lemma digits_one_line n : forallb is_digit n = true -> ~ In "010"%char n.
Proof.
  intros Hn Hin. rewrite forallb_forall in Hn.
  specialize (Hn _ Hin). discriminate.
Qed.

(** The SRT rule keeps exactly the lines of cue text. *)
Lemma srt_keep_lines ls :
  forallb srt_line_ok ls = true ->
  forallb srt_plain_text (srt_texts ls) = true ->
  List.filter srt_keep (map strip (map srt_render ls)) = srt_texts ls.
Proof.
  induction ls as [|l ls IH]; [reflexivity|].
  cbn [forallb]. intros Hok. apply andb_prop in Hok as [Hl Hok].
  destruct l as [n|t|ws|t]; cbn [srt_texts srt_render map List.filter forallb];
    cbn [srt_line_ok] in Hl; intros Hplain.
  - apply andb_prop in Hl as [Hne Hn].
    assert (Hn' : n <> []) by (destruct n; [discriminate|congruence]).
    rewrite (strip_fixed n (digits_stripped n Hn' Hn)).
    assert (H : re_index n = true).
    { destruct n as [|c n]; [congruence|]. cbn [forallb] in Hn.
      apply andb_prop in Hn as [Hc Hn]. cbn [re_index].
      now rewrite Hc, digits_to_end_all. }
    unfold srt_keep. rewrite H. cbn [negb]. rewrite andb_false_r. now apply IH.
  - apply andb_prop in Hl as [_ Ht].
    assert (H : re_mmss (strip t) = true).
    { apply match_prefix_strip; [discriminate|apply mmss_solid|exact Ht]. }
    unfold srt_keep. rewrite H. cbn [negb]. rewrite andb_false_r. now apply IH.
  - apply andb_prop in Hl as [_ Hws].
    rewrite strip_all_space by exact Hws.
    change (srt_keep []) with false. now apply IH.
  - apply andb_prop in Hplain as [Ht Hplain].
    unfold srt_plain_text in Ht.
    repeat (apply andb_prop in Ht as [Ht ?]).
    rewrite strip_fixed by (right; now split).
    assert (Hk : srt_keep t = true).
    { unfold srt_keep. destruct t; [discriminate|].
      repeat (apply andb_true_intro; split); auto. }
    rewrite Hk. f_equal. now apply IH.
Qed.

Lemma srt_render_one_line ls :
  forallb srt_line_ok ls = true ->
  Forall (fun f => ~ In "010"%char f) (map srt_render ls).
Proof.
  induction ls as [|l ls IH]; [constructor|].
  cbn [forallb map]. intros H. apply andb_prop in H as [Hl Hok].
  constructor; [|now apply IH].
  destruct l as [n|t|ws|t]; cbn [srt_render srt_line_ok] in *;
    apply andb_prop in Hl as [Hl Hr];
    [now apply digits_one_line|now apply one_line_spec..].
Qed.

End SrtFacts.

(** X15: For every SubRip input made of cue numbers, cue timings, blank lines and
    N lines of cue text, where each line of cue text has no whitespace at
    its ends, is not a number and does not start with two digits, a colon and
    two digits, nor is a cue arrow, the SRT rule returns exactly those N
    lines, in order, joined by single spaces. *)
Theorem srt_text_lines (ls : list SrtDocs.SrtLine) :
  forallb SrtDocs.srt_line_ok ls = true ->
  forallb SrtDocs.srt_plain_text (SrtDocs.srt_texts ls) = true ->
  parse_srt (SrtDocs.srt_document ls) = str (join SP (SrtDocs.srt_texts ls)).
Proof.
  intros Hok Hplain. unfold parse_srt, SrtDocs.srt_document, parse_srt_text.
  rewrite chars_str, collect_filter.
  destruct ls as [|l0 ls0] eqn:Els; [reflexivity|].
  rewrite <- Els in *. unfold NL.
  rewrite split_char_join.
  - now rewrite srt_keep_lines.
  - rewrite Els. discriminate.
  - now apply srt_render_one_line.
Qed.

Lemma srt_text_lines_witness :
  parse_srt (SrtDocs.srt_document SrtDocs.srt_sample) = "Hello there General Kenobi".
Proof.
  apply (srt_text_lines SrtDocs.srt_sample); reflexivity.
Defined.

(* ===================================================================== *)
(** * Further properties: the id of the video in the pytube version *)
(* ===================================================================== *)

Section PytubeIdFacts.
Import Pytube Urls.
Local Open Scope list_scope.

Lemma take_while_forallb p s : forallb p (take_while p s) = true.
Proof.
  induction s as [|c s IH]; [reflexivity|]. cbn [take_while].
  destruct (p c) eqn:Hc; [|reflexivity]. cbn [forallb]. now rewrite Hc.
Qed.

Lemma match_alternatives_group alts s g :
  match_alternatives alts s = Some g -> g <> [] /\ forallb id_part g = true.
Proof.
  induction alts as [|alt alts IH]; [discriminate|]. cbn [match_alternatives].
  destruct (startswith alt s); [|exact IH].
  destruct (take_while id_part (skipn (length alt) s)) as [|c t] eqn:Ht;
    [exact IH|].
  intros [= <-]. split; [discriminate|].
  rewrite <- Ht. apply take_while_forallb.
Qed.

Lemma search_alternatives_unfold alts s :
  search_alternatives alts s
  = match match_alternatives alts s with
    | Some group => Some group
    | None => match s with
              | [] => None
              | _ :: s' => search_alternatives alts s'
              end
    end.
Proof. destruct s; reflexivity. Qed.

Lemma search_alternatives_group alts s g :
  search_alternatives alts s = Some g -> g <> [] /\ forallb id_part g = true.
Proof.
  induction s as [|c s IH]; rewrite search_alternatives_unfold;
    destruct (match_alternatives alts _) as [g'|] eqn:Hm;
    try discriminate; try (intros [= <-]; exact (match_alternatives_group _ _ _ Hm)).
  exact IH.
Qed.

Lemma str_nonempty g : g <> [] -> str g <> "".
Proof. destruct g; [congruence|discriminate]. Qed.

(** A text that starts with a marker is the marker and what follows. *)
Lemma startswith_split alt s :
  startswith alt s = true -> s = alt ++ skipn (length alt) s.
Proof.
  unfold startswith. revert s. induction alt as [|a alt IH]; intros s H.
  - reflexivity.
  - destruct s as [|c s]; [discriminate|]. cbn [map match_prefix] in H.
    apply andb_prop in H as [Hc H]. unfold is_char in Hc.
    apply Ascii.eqb_eq in Hc. subst c. cbn [length skipn app].
    f_equal. now apply IH.
Qed.

(** A text is its longest prefix in a class and what follows, which does
    not start in the class. *)
Lemma take_drop_while p s : s = take_while p s ++ drop_while p s.
Proof.
  induction s as [|c s IH]; [reflexivity|]. cbn [take_while drop_while].
  destruct (p c); [|reflexivity]. cbn [app]. now f_equal.
Qed.

Lemma drop_while_head p s c r : drop_while p s = c :: r -> p c = false.
Proof.
  induction s as [|d s IH]; [discriminate|]. cbn [drop_while].
  destruct (p d) eqn:Hd; [exact IH|]. now intros [= <- _].
Qed.

(** Where the group of a match is in the subject. *)
Lemma match_alternatives_origin alts s g :
  match_alternatives alts s = Some g ->
  exists alt rest,
    In alt alts /\ s = alt ++ g ++ rest
    /\ forall c r, rest = c :: r -> id_part c = false.
Proof.
  induction alts as [|alt alts IH]; [discriminate|]. cbn [match_alternatives].
  assert (Hnext : match_alternatives alts s = Some g ->
                  exists alt0 rest,
                    In alt0 (alt :: alts) /\ s = alt0 ++ g ++ rest
                    /\ forall c r, rest = c :: r -> id_part c = false).
  { intros H. destruct (IH H) as (alt0 & rest & Hin & Hs & Hrest).
    exists alt0, rest. split; [now right|]. auto. }
  destruct (startswith alt s) eqn:Hstart; [|exact Hnext].
  destruct (take_while id_part (skipn (length alt) s)) as [|c t] eqn:Ht;
    [exact Hnext|].
  intros [= <-].
  exists alt, (drop_while id_part (skipn (length alt) s)).
  split; [now left|]. split.
  - rewrite <- Ht, <- take_drop_while. now apply startswith_split.
  - intros c0 r. apply drop_while_head.
Qed.

Lemma search_alternatives_origin alts s g :
  search_alternatives alts s = Some g ->
  exists before alt rest,
    In alt alts /\ s = before ++ alt ++ g ++ rest
    /\ forall c r, rest = c :: r -> id_part c = false.
Proof.
  induction s as [|c s IH]; rewrite search_alternatives_unfold;
    destruct (match_alternatives alts _) as [g'|] eqn:Hm; try discriminate.
  - intros [= <-].
    destruct (match_alternatives_origin _ _ _ Hm) as (alt & rest & Hin & Hs & Hr).
    exists [], alt, rest. auto.
  - intros [= <-].
    destruct (match_alternatives_origin _ _ _ Hm) as (alt & rest & Hin & Hs & Hr).
    exists [], alt, rest. auto.
  - intros H. destruct (IH H) as (before & alt & rest & Hin & Hs & Hr).
    exists (c :: before), alt, rest. split; [exact Hin|]. split; [|exact Hr].
    cbn [app]. now f_equal.
Qed.

(** The same on strings, for the markers of the three patterns. *)
Lemma group_origin (markers : list string) youtube_url g :
  search_alternatives (map chars markers) (chars youtube_url) = Some g ->
  exists before marker after,
    In marker markers
    /\ youtube_url = (before ++ marker ++ str g ++ after)%string
    /\ forall c rest, after = String c rest -> id_part c = false.
Proof.
  intros H.
  destruct (search_alternatives_origin _ _ _ H)
    as (before & alt & rest & Hin & Hs & Hr).
  apply in_map_iff in Hin as (marker & <- & Hin).
  exists (str before), marker, (str rest). split; [exact Hin|]. split.
  - rewrite <- (str_chars youtube_url), Hs.
    rewrite <- (str_chars (str before ++ marker ++ str g ++ str rest)%string).
    now rewrite !chars_app, !chars_str.
  - intros c r Hafter. apply (Hr c (chars r)).
    rewrite <- (chars_str rest), Hafter. reflexivity.
Qed.

End PytubeIdFacts.

(** X16: An id that [extract_video_id] of the pytube version returns is either
    the one pytube gave for the URL, or the group of a match of one of the
    three patterns: then the world was left alone, and the URL holds one of
    the four markers followed by the id, which is not empty, holds none of
    [&], [?] and [/], and goes up to the end of the URL or to the first of
    these characters. *)
Theorem pytube_id_origin (video_id_of : string -> M string) (youtube_url : string)
    (w w' : World) (id : string) :
  Pytube.extract_video_id video_id_of youtube_url w = (Ok (Some id), w') ->
  (w' = w /\ id <> "" /\ forallb Pytube.id_part (chars id) = true
   /\ exists before marker after : string,
        In marker ["youtube.com/watch?v="; "youtu.be/"; "youtube.com/embed/";
                   "youtube.com/v/"]
        /\ youtube_url = before ++ marker ++ id ++ after
        /\ forall c rest, after = String c rest -> Pytube.id_part c = false)
  \/ video_id_of youtube_url w = (Ok id, w').
Proof.
  unfold Pytube.extract_video_id. intros H. apply try_except_Some in H.
  assert (Hgroup : forall markers g,
             incl markers ["youtube.com/watch?v="; "youtu.be/";
                           "youtube.com/embed/"; "youtube.com/v/"] ->
             Pytube.search_alternatives (map chars markers) (chars youtube_url)
             = Some g ->
             ret (Some (str g)) w = (Ok (Some id), w') ->
             w' = w /\ id <> "" /\ forallb Pytube.id_part (chars id) = true
             /\ exists before marker after : string,
                  In marker ["youtube.com/watch?v="; "youtu.be/";
                             "youtube.com/embed/"; "youtube.com/v/"]
                  /\ youtube_url = before ++ marker ++ id ++ after
                  /\ forall c rest,
                       after = String c rest -> Pytube.id_part c = false).
  { intros markers g Hincl Hg [= <- <-].
    destruct (search_alternatives_group _ _ _ Hg) as [Hne Hall].
    destruct (group_origin _ _ _ Hg) as (before & marker & after & Hin & Hurl & Hend).
    rewrite chars_str. split; [reflexivity|]. split; [now apply str_nonempty|].
    split; [exact Hall|].
    exists before, marker, after. split; [now apply Hincl|]. auto. }
  change [chars "youtube.com/watch?v="; chars "youtu.be/"]
    with (map chars ["youtube.com/watch?v="; "youtu.be/"]) in H.
  change [chars "youtube.com/embed/"] with (map chars ["youtube.com/embed/"]) in H.
  change [chars "youtube.com/v/"] with (map chars ["youtube.com/v/"]) in H.
  destruct (Pytube.search_alternatives
              (map chars ["youtube.com/watch?v="; "youtu.be/"])
              (chars youtube_url)) as [g|] eqn:H1.
  { left. refine (Hgroup _ _ _ H1 H). intros m [<-|[<-|[]]]; simpl; tauto. }
  destruct (Pytube.search_alternatives (map chars ["youtube.com/embed/"])
              (chars youtube_url)) as [g|] eqn:H2.
  { left. refine (Hgroup _ _ _ H2 H). intros m [<-|[]]; simpl; tauto. }
  destruct (Pytube.search_alternatives (map chars ["youtube.com/v/"])
              (chars youtube_url)) as [g|] eqn:H3.
  { left. refine (Hgroup _ _ _ H3 H). intros m [<-|[]]; simpl; tauto. }
  destruct (Pytube.search_user (chars youtube_url)); [discriminate|].
  right. apply try_except_Some in H.
  apply bind_inv in H as (v & w1 & Hv & [= <- <-]). exact Hv.
Qed.

Lemma pytube_id_origin_witness :
  (empty_world = empty_world /\ "dQw4w9WgXcQ" <> ""
   /\ forallb Pytube.id_part (chars "dQw4w9WgXcQ") = true
   /\ exists before marker after : string,
        In marker ["youtube.com/watch?v="; "youtu.be/"; "youtube.com/embed/";
                   "youtube.com/v/"]
        /\ "https://youtu.be/dQw4w9WgXcQ?t=43"
           = before ++ marker ++ "dQw4w9WgXcQ" ++ after
        /\ forall c rest, after = String c rest -> Pytube.id_part c = false)
  \/ (fun _ : string => raise (Error "unavailable") : M string)
       "https://youtu.be/dQw4w9WgXcQ?t=43" empty_world
     = (Ok "dQw4w9WgXcQ", empty_world).
Proof.
  apply (pytube_id_origin (fun _ => raise (Error "unavailable"))
           "https://youtu.be/dQw4w9WgXcQ?t=43" empty_world empty_world
           "dQw4w9WgXcQ").
  reflexivity.
Defined.

Section PytubeShapeFacts.
Import Pytube Urls.
Local Open Scope list_scope.

(** No alternative can start inside [a]. *)
Lemma match_alternatives_clear alts a s :
  a <> [] ->
  forallb (fun alt => negb (compatible (map is_char alt) a)) alts = true ->
  match_alternatives alts (a ++ s) = None.
Proof.
  intros Ha. induction alts as [|alt alts IH]; [reflexivity|].
  cbn [forallb match_alternatives]. intros H. apply andb_prop in H as [Hc H].
  unfold startswith.
  destruct (match_prefix (map is_char alt) (a ++ s)) eqn:Hm; [|now apply IH].
  apply match_prefix_compatible in Hm. rewrite Hm in Hc. discriminate.
Qed.

Lemma search_alternatives_skip alts a s :
  forallb (fun alt => clear_of (map is_char alt) a) alts = true ->
  search_alternatives alts (a ++ s) = search_alternatives alts s.
Proof.
  induction a as [|c a IH]; [reflexivity|]. intros H.
  rewrite search_alternatives_unfold.
  rewrite match_alternatives_clear; [| discriminate |].
  - change ((c :: a) ++ s) with (c :: (a ++ s)). cbn iota. apply IH.
    rewrite forallb_forall in H |- *. intros alt Halt.
    specialize (H alt Halt). cbn [clear_of] in H.
    now apply andb_prop in H as [_ H].
  - rewrite forallb_forall in H |- *. intros alt Halt.
    specialize (H alt Halt). cbn [clear_of] in H.
    now apply andb_prop in H as [H _].
Qed.

(** Every alternative needs a slash, and the text has none. *)
Lemma search_alternatives_lacking alts s :
  Forall (fun alt => In "/"%char alt) alts ->
  (forall c, In c s -> is_char "/"%char c = false) ->
  search_alternatives alts s = None.
Proof.
  intros Halts.
  assert (Hm : forall t, (forall c, In c t -> is_char "/"%char c = false) ->
                         match_alternatives alts t = None).
  { intros t Ht. induction Halts as [|alt alts Halt _ IH]; [reflexivity|].
    cbn [match_alternatives]. unfold startswith.
    destruct (match_prefix (map is_char alt) t) eqn:Hp; [|exact IH].
    pose proof (match_prefix_within alt t Hp "/"%char Halt) as Hin.
    specialize (Ht _ Hin). discriminate. }
  induction s as [|x s IH]; intros Hs;
    rewrite search_alternatives_unfold, (Hm _ Hs); [reflexivity|].
  apply IH. intros c Hc. apply Hs. now right.
Qed.

Lemma id_char_part id : forallb id_char id = true -> forallb id_part id = true.
Proof.
  intros Hid. apply forallb_forall. intros c Hc.
  rewrite forallb_forall in Hid. destruct (id_char_plain c (Hid c Hc)) as (H1 & _ & H3 & H4).
  unfold id_part, is_char.
  destruct (Ascii.eqb_spec "&"%char c); [congruence|].
  destruct (Ascii.eqb_spec "?"%char c); [congruence|].
  destruct (Ascii.eqb_spec "/"%char c); [congruence|reflexivity].
Qed.

(** The group of a match right before the id. *)
Lemma group_is_id id suffix :
  forallb id_char id = true -> suffix_ok false suffix = true ->
  take_while id_part (id ++ suffix) = id.
Proof.
  intros Hid Hs. apply id_char_part in Hid.
  destruct (suffix_ok_head _ _ Hs) as [->|(c & rest & -> & Hc & _)].
  - rewrite app_nil_r. now apply take_while_all.
  - apply take_while_stop; [exact Hid|].
    destruct Hc as [->|[_ ->]]; reflexivity.
Qed.

(** The search that finds the marker [m] after [P], where [m] is the
    alternative that matches there. *)
Lemma search_alternatives_hit alts P m id suffix :
  forallb (fun alt => clear_of (map is_char alt) P) alts = true ->
  (forall X g, take_while id_part X = g -> g <> [] ->
               match_alternatives alts (m ++ X) = Some g) ->
  id <> [] -> forallb id_char id = true -> suffix_ok false suffix = true ->
  search_alternatives alts (P ++ m ++ id ++ suffix) = Some id.
Proof.
  intros Hclear Hm Hne Hid Hs.
  rewrite (search_alternatives_skip _ _ _ Hclear), search_alternatives_unfold.
  now rewrite (Hm (id ++ suffix) id (group_is_id _ _ Hid Hs) Hne).
Qed.

Lemma match_at_marker alt X g :
  take_while id_part X = g -> g <> [] ->
  match_alternatives [alt] (alt ++ X) = Some g.
Proof.
  intros Hg Hne. cbn [match_alternatives]. unfold startswith.
  rewrite match_prefix_self.
  replace (skipn (length alt) (alt ++ X)) with X.
  - rewrite Hg. now destruct g.
  - clear. induction alt; [reflexivity|assumption].
Qed.

Lemma match_at_short_link X g :
  take_while id_part X = g -> g <> [] ->
  match_alternatives [chars "youtube.com/watch?v="; chars "youtu.be/"]
    (chars "youtu.be/" ++ X) = Some g.
Proof.
  intros Hg Hne.
  change (match_alternatives [chars "youtube.com/watch?v="; chars "youtu.be/"]
            (chars "youtu.be/" ++ X))
    with (match take_while id_part X with
          | [] => None
          | c :: t => Some (c :: t)
          end).
  rewrite Hg. now destruct g.
Qed.

Lemma match_at_watch X g :
  take_while id_part X = g -> g <> [] ->
  match_alternatives [chars "youtube.com/watch?v="; chars "youtu.be/"]
    (chars "youtube.com/watch?v=" ++ X) = Some g.
Proof.
  intros Hg Hne.
  change (match_alternatives [chars "youtube.com/watch?v="; chars "youtu.be/"]
            (chars "youtube.com/watch?v=" ++ X))
    with (match take_while id_part X with
          | [] => match_alternatives [chars "youtu.be/"]
                    (chars "youtube.com/watch?v=" ++ X)
          | c :: t => Some (c :: t)
          end).
  rewrite Hg. now destruct g.
Qed.

End PytubeShapeFacts.

Section PytubeShapes.
Import Pytube Urls.
Local Open Scope list_scope.

Lemma pattern_misses alts P id suffix :
  forallb (fun alt => clear_of (map is_char alt) P) alts = true ->
  Forall (fun alt => In "/"%char alt) alts ->
  forallb id_char id = true -> suffix_ok false suffix = true ->
  search_alternatives alts (P ++ id ++ suffix) = None.
Proof.
  intros Hclear Halts Hid Hs.
  rewrite (search_alternatives_skip _ _ _ Hclear).
  apply search_alternatives_lacking; [exact Halts|].
  now apply (tail_no_slash id suffix false).
Qed.

Lemma pytube_shape (video_id_of : string -> M string) P (sh : Shape) id suffix w :
  forallb (fun alt => clear_of (map is_char alt)
                        (match sh with
                         | ShortLink | Watch => P
                         | _ => P ++ chars (marker sh)
                         end))
          [chars "youtube.com/watch?v="; chars "youtu.be/"] = true ->
  forallb (fun alt => clear_of (map is_char alt)
                        (match sh with OldEmbed => P ++ chars (marker sh) | _ => P end))
          [chars "youtube.com/embed/"] = true ->
  forallb (fun alt => clear_of (map is_char alt) P) [chars "youtube.com/v/"] = true ->
  id <> [] -> forallb id_char id = true -> suffix_ok false suffix = true ->
  extract_video_id video_id_of (str (P ++ chars (marker sh) ++ id ++ suffix)) w
  = (Ok (Some (str id)), w).
Proof.
  intros H1 H2 H3 Hne Hid Hs. unfold extract_video_id. rewrite chars_str.
  apply try_except_Ok.
  assert (Hslash1 : Forall (fun alt => In "/"%char alt)
                      [chars "youtube.com/watch?v="; chars "youtu.be/"])
    by (repeat constructor; cbn; tauto).
  assert (Hslash2 : Forall (fun alt => In "/"%char alt) [chars "youtube.com/embed/"])
    by (repeat constructor; cbn; tauto).
  destruct sh; cbn [marker] in *.
  - rewrite (search_alternatives_hit _ P (chars "youtu.be/") id suffix H1
               match_at_short_link Hne Hid Hs).
    reflexivity.
  - rewrite (search_alternatives_hit _ P (chars "youtube.com/watch?v=") id suffix H1
               match_at_watch Hne Hid Hs).
    reflexivity.
  - rewrite (app_assoc P).
    rewrite (pattern_misses _ (P ++ chars "youtube.com/embed/") id suffix
               H1 Hslash1 Hid Hs).
    rewrite <- (app_assoc P).
    rewrite (search_alternatives_hit _ P (chars "youtube.com/embed/") id suffix H2
               (match_at_marker _) Hne Hid Hs).
    reflexivity.
  - rewrite (app_assoc P).
    rewrite (pattern_misses _ (P ++ chars "youtube.com/v/") id suffix
               H1 Hslash1 Hid Hs).
    rewrite (pattern_misses _ (P ++ chars "youtube.com/v/") id suffix
               H2 Hslash2 Hid Hs).
    rewrite <- (app_assoc P).
    rewrite (search_alternatives_hit _ P (chars "youtube.com/v/") id suffix H3
               (match_at_marker _) Hne Hid Hs).
    reflexivity.
Qed.

End PytubeShapes.

(** X17: On the four supported shapes, after the usual beginnings of a URL, with
    an id over the id alphabet that is not empty and a query suffix that
    starts with [&] or with [?], also on a watch URL, [extract_video_id] of
    the pytube version returns exactly the id, without asking pytube. *)
Theorem pytube_extract_video_id_shapes (video_id_of : string -> M string)
    (prefix : string) (sh : Urls.Shape) (id suffix : string) (w : World) :
  In prefix Urls.prefixes -> Urls.is_id id = true -> id <> "" ->
  Urls.suffix_ok false (chars suffix) = true ->
  Pytube.extract_video_id video_id_of (Urls.url prefix sh id suffix) w
  = (Ok (Some id), w).
Proof.
  intros Hp Hid Hne Hs. unfold Urls.url, Urls.is_id in *.
  rewrite <- (str_chars (prefix ++ _)), !chars_app.
  rewrite <- (str_chars id) at 2.
  assert (Hne' : chars id <> []) by (destruct id; [congruence|discriminate]).
  cbn in Hp.
  repeat (destruct Hp as [<-|Hp]); try contradiction; destruct sh;
    apply pytube_shape; try assumption; reflexivity.
Qed.

Lemma pytube_extract_video_id_shapes_witness :
  Pytube.extract_video_id (fun _ => raise (Error "unavailable"))
    "https://www.youtube.com/watch?v=dQw4w9WgXcQ?t=43" empty_world
  = (Ok (Some "dQw4w9WgXcQ"), empty_world).
Proof.
  refine (pytube_extract_video_id_shapes (fun _ => raise (Error "unavailable"))
            "https://www." Urls.Watch "dQw4w9WgXcQ" "?t=43" empty_world _ _ _ _);
    [simpl; tauto|reflexivity|discriminate|reflexivity].
Defined.

(* ===================================================================== *)
(** * Further properties: the run of the pytube version *)
(* ===================================================================== *)

Section PytubeRunFacts.
Import Pytube.

(** The cleanup of the handler of lines 487-491: it returns with the file
    gone, or the removal of line 491 is refused and its exception leaves the
    handler. *)
Lemma audio_handler_outcomes refuses audio_file w :
  (exists w',
      (bind (os_path_exists audio_file)
         (fun present =>
            if negb (String.eqb audio_file "") && present
            then bind (os_remove_on refuses audio_file) (fun _ => ret (@None string))
            else ret None)) w = (Ok None, w')
      /\ path_exists w' audio_file = false)
  \/ (exists e,
         (bind (os_path_exists audio_file)
            (fun present =>
               if negb (String.eqb audio_file "") && present
               then bind (os_remove_on refuses audio_file)
                         (fun _ => ret (@None string))
               else ret None)) w = (Raise e, w)
         /\ path_exists w audio_file = true
         /\ refuses audio_file w = Some e).
Proof.
  unfold bind, os_path_exists, os_remove_on, os_remove, ret.
  destruct (path_exists w audio_file) eqn:Hp.
  - assert (Hne : String.eqb audio_file "" = false).
    { unfold path_exists in Hp. now destruct (String.eqb audio_file ""). }
    rewrite Hne. cbn [negb andb].
    destruct (refuses audio_file w) as [e|] eqn:Hr.
    + right. exists e. auto.
    + left. rewrite Hp. eexists. split; [reflexivity|apply path_exists_delete].
  - left. rewrite andb_false_r. eexists. split; [reflexivity|exact Hp].
Qed.

(** A removal that returns has removed the file. *)
Lemma os_remove_on_gone refuses path w w' :
  os_remove_on refuses path w = (Ok tt, w') -> path_exists w' path = false.
Proof.
  unfold os_remove_on, os_remove.
  destruct (refuses path w); [discriminate|].
  destruct (path_exists w path); [|discriminate].
  intros [= <-]. apply path_exists_delete.
Qed.

(** Method 1 returns, or the removal in its handler is refused. *)
Lemma audio_method_cases (self : Self.t) audio_file w :
  (exists r w', audio_method self audio_file w = (Ok r, w'))
  \/ (exists e w',
         audio_method self audio_file w = (Raise e, w')
         /\ path_exists w' audio_file = true
         /\ Self.refuses self audio_file w' = Some e).
Proof.
  unfold audio_method.
  match goal with
  | |- context [try_except ?c ?h] => set (body := c); set (handler := h)
  end.
  destruct (body w) as [[r|e] w1] eqn:Hbody.
  - left. exists r, w1. exact (try_except_Ok _ _ _ _ _ Hbody).
  - rewrite (try_except_Raise _ _ _ _ _ Hbody). unfold handler.
    destruct (audio_handler_outcomes (Self.refuses self) audio_file w1)
      as [(w' & -> & _)|(e' & -> & Hex & Hr)].
    + left. eauto.
    + right. exists e', w1. auto.
Qed.

End PytubeRunFacts.

(** X18: Method 1 of the pytube orchestrator (lines 474-491), whatever the
    transcriber and the summariser do, has two outcomes.  It returns, and
    then, whenever it does not deliver a text, the audio file is gone when
    Method 2 starts.  Or it raises: then the audio file is still there, and
    the exception is the one with which the machine refuses its removal, the
    removal of line 491 being outside every [try]. *)
Theorem audio_method_outcomes (self : Pytube.Self.t) (audio_file : string)
    (w : World) :
  (exists (r : option string) (w' : World),
      Pytube.audio_method self audio_file w = (Ok r, w')
      /\ (r = None -> path_exists w' audio_file = false))
  \/ (exists (e : exn) (w' : World),
         Pytube.audio_method self audio_file w = (Raise e, w')
         /\ path_exists w' audio_file = true
         /\ Pytube.Self.refuses self audio_file w' = Some e).
Proof.
  destruct (audio_method_cases self audio_file w) as [(r & w' & Hrun)|Hraise];
    [|right; exact Hraise].
  left. exists r, w'. split; [exact Hrun|]. intros ->.
  unfold Pytube.audio_method in Hrun.
  match type of Hrun with
  | try_except ?c ?h w = _ => destruct (c w) as [[r|e] w1] eqn:Hbody
  end.
  - rewrite (try_except_Ok _ _ _ _ _ Hbody) in Hrun.
    injection Hrun as -> ->.
    apply bind_inv in Hbody as (tr & wa & _ & H).
    apply bind_inv in H as ([] & wb & Hrm & H).
    destruct (truthy tr).
    + apply bind_inv in H as (text & wc & _ & H). discriminate.
    + unfold ret in H. injection H as <-.
      exact (os_remove_on_gone _ _ _ _ Hrm).
  - rewrite (try_except_Raise _ _ _ _ _ Hbody) in Hrun.
    destruct (audio_handler_outcomes (Pytube.Self.refuses self) audio_file w1)
      as [(w2 & Hh & Hgone)|(e' & Hh & _)]; rewrite Hh in Hrun.
    + injection Hrun as <-. exact Hgone.
    + discriminate.
Qed.

(** X19: When summarising fails (the client raises, or its answer has no
    content), the text handed back for a transcript longer than a
    non-negative [max_length] is the first [max_length] characters and the
    29 characters of the truncation mark: it is longer than [max_length]. *)
Theorem truncation_exceeds_bound (self : Pytube.Self.t) (transcript : string)
    (max_length : Z) (w w1 : World) :
  (0 <= max_length < len transcript)%Z ->
  (Pytube.Self.chat_completion self transcript w = (Ok None, w1)
   \/ exists e, Pytube.Self.chat_completion self transcript w = (Raise e, w1)) ->
  exists text,
    Pytube.summarize_transcript self transcript max_length w = (Ok text, w1)
    /\ len text = (max_length + 29)%Z
    /\ substring 0 (Z.to_nat max_length) text
       = substring 0 (Z.to_nat max_length) transcript.
Proof.
  intros [Hm Hlen] Hchat.
  exists (Pytube.slice_to max_length transcript ++ "... [truncated due to length]").
  split; [|split].
  - unfold Pytube.summarize_transcript.
    rewrite (proj2 (Z.leb_gt _ _) Hlen).
    unfold try_except, try_except_when, bind, ret, raise.
    destruct Hchat as [->|[e ->]]; reflexivity.
  - unfold len in *. rewrite length_append. unfold Pytube.slice_to.
    rewrite (proj2 (Z.leb_le _ _) Hm), length_substring by lia.
    cbn [String.length]. lia.
  - unfold Pytube.slice_to. rewrite (proj2 (Z.leb_le _ _) Hm).
    set (n := Z.to_nat max_length).
    assert (Hn : n <= String.length transcript) by (unfold len in Hlen; lia).
    clearbody n. clear Hm Hlen Hchat. revert transcript Hn.
    induction n as [|n IH]; intros s Hn.
    + destruct s; reflexivity.
    + destruct s as [|c s]; [simpl in Hn; lia|]. simpl.
      f_equal. apply IH. simpl in Hn. lia.
Qed.

Lemma truncation_exceeds_bound_witness :
  exists text,
    Pytube.summarize_transcript
      (pytube_fakes (minimal_metadata sample_url) None None None None None None)
      "We're no strangers to love" 5 empty_world
    = (Ok text, called ["chat_completion"] empty_world)
    /\ len text = (5 + 29)%Z
    /\ substring 0 (Z.to_nat 5) text
       = substring 0 (Z.to_nat 5) "We're no strangers to love".
Proof.
  apply (truncation_exceeds_bound
           (pytube_fakes (minimal_metadata sample_url) None None None None None None)
           "We're no strangers to love" 5 empty_world
           (called ["chat_completion"] empty_world)).
  - vm_compute. split; [discriminate|reflexivity].
  - left. reflexivity.
Defined.

(* ===================================================================== *)
(** * Further properties: the methods of the pytube implementation *)
(* ===================================================================== *)

Section PytubeMethodFacts.
Import PytubeMethods.
Variable P : Backends.

(** A handler that returns makes the whole statement return. *)
Lemma try_except_total {X} (c : M X) (h : exn -> X) w :
  exists a w', try_except c (fun e => ret (h e)) w = (Ok a, w').
Proof.
  unfold try_except, try_except_when, ret.
  destruct (c w) as [[a|e] w']; eauto.
Qed.

Lemma read_metadata_source y video_url w m w' :
  read_metadata P y video_url w = (Ok m, w') -> source_url m = video_url.
Proof.
  unfold read_metadata. intros H.
  repeat (apply bind_inv in H as (? & ? & _ & H)).
  now inversion H.
Qed.

Lemma metadata_attempts_source attempts y video_url md w :
  source_url md = video_url ->
  exists md' w',
    metadata_attempts P attempts y video_url md w = (Ok md', w')
    /\ source_url md' = video_url.
Proof.
  intros Hmd. revert w. induction attempts as [|n IH]; intros w.
  - cbn. eauto.
  - cbn [metadata_attempts]. unfold try_except, try_except_when.
    unfold bind at 1. unfold bind at 1.
    destruct (read_metadata P y video_url w) as [[m|e] w1] eqn:Hread.
    + cbn [ret]. exists m, w1. split; [reflexivity|].
      exact (read_metadata_source _ _ _ _ _ Hread).
    + cbn [ret]. apply IH.
Qed.

Lemma get_video_metadata_returns video_url w :
  exists md w',
    get_video_metadata P video_url w = (Ok md, w')
    /\ source_url md = video_url.
Proof.
  unfold get_video_metadata, try_except, try_except_when.
  unfold bind at 1.
  destruct (new_youtube P video_url w) as [[y|e] w0]; [|cbn [ret]; eauto].
  destruct (metadata_attempts_source 3 y video_url
              (minimal_metadata video_url) w0 eq_refl)
    as (md & w1 & -> & Hsrc). eauto.
Qed.

End PytubeMethodFacts.

(** X20: [get_video_metadata] of the pytube version never raises and always
    names the input URL as the source; when the [YouTube] object cannot be
    created, the dictionary is the one of lines 230-234: the title
    ["Unknown"], the URL and the message of the exception. *)
Theorem get_video_metadata_safe (P : PytubeMethods.Backends) (video_url : string)
    (w : World) :
  exists (md : Metadata) (w' : World),
    PytubeMethods.get_video_metadata P video_url w = (Ok md, w')
    /\ source_url md = video_url
    /\ forall e w1,
         PytubeMethods.new_youtube P video_url w = (Raise e, w1) ->
         md = mkMetadata "Unknown" None None None None None None video_url
                (Some (PytubeMethods.str_of_exn P e))
         /\ w' = w1.
Proof.
  unfold PytubeMethods.get_video_metadata, try_except, try_except_when.
  unfold bind at 1.
  destruct (PytubeMethods.new_youtube P video_url w) as [[y|e] w1].
  - destruct (metadata_attempts_source P 3 y video_url
                (minimal_metadata video_url) w1 eq_refl)
      as (md & w' & -> & Hsrc).
    exists md, w'. split; [reflexivity|]. split; [exact Hsrc|discriminate].
  - eexists _, w1. split; [reflexivity|]. split; [reflexivity|].
    now intros e0 w0 [= <- <-].
Qed.

(** X21: [process_youtube_url] of the pytube version, with the service's own
    methods, has two outcomes, for every behaviour of pytube, pydub, the
    OpenAI client, the HTTP endpoints and the decoders.  It returns a pair
    whose metadata names the input URL as its source.  Or it raises: then
    the download of this run returned an audio file, Method 1 raised on it,
    the file is still there, and the exception is the one with which the
    machine refuses its removal. *)
Theorem pytube_process_outcomes (P : PytubeMethods.Backends)
    (video_url : string) (w : World) :
  (exists (t : option string) (md : Metadata) (w' : World),
      Pytube.process_youtube_url (PytubeMethods.service P) video_url w
      = (Ok (t, md), w')
      /\ source_url md = video_url)
  \/ (exists (md : Metadata) (vid : option string) (audio : string)
             (e : exn) (w1 w2 w3 w' : World),
         PytubeMethods.get_video_metadata P video_url w = (Ok md, w1)
         /\ Pytube.Self.extract_video_id (PytubeMethods.service P) video_url w1
            = (Ok vid, w2)
         /\ PytubeMethods.download_audio P video_url w2 = (Ok (Some audio), w3)
         /\ Pytube.audio_method (PytubeMethods.service P) audio w3 = (Raise e, w')
         /\ path_exists w' audio = true
         /\ PytubeMethods.refuses P audio w' = Some e
         /\ Pytube.process_youtube_url (PytubeMethods.service P) video_url w
            = (Raise e, w')).
Proof.
  set (self := PytubeMethods.service P).
  assert (Hdeliver : forall (md : Metadata) (o : option string) (w0 : World),
             exists t w',
               bind (Pytube.summarize_transcript self (get_or o "")
                       Pytube.default_max_length)
                    (fun processed_text => ret (Some processed_text, md)) w0
               = (Ok (t, md), w')).
  { intros md o w0.
    destruct (summarize_returns self (get_or o "") Pytube.default_max_length w0)
      as (text & w' & Hs).
    rewrite (bind_Ok _ _ _ _ _ Hs). cbn [ret]. eauto. }
  unfold Pytube.process_youtube_url.
  destruct (get_video_metadata_returns P video_url w) as (md & w1 & Hmd & Hsrc).
  change (PytubeMethods.get_video_metadata P)
    with (Pytube.Self.get_video_metadata self) in Hmd at 1.
  rewrite (bind_Ok _ _ _ _ _ Hmd).
  assert (Hid : exists vid w2,
             Pytube.Self.extract_video_id self video_url w1 = (Ok vid, w2))
    by apply try_except_returns.
  destruct Hid as (vid & w2 & Hid). rewrite (bind_Ok _ _ _ _ _ Hid).
  destruct (truthy vid); cbn [negb]; [|left; exists None, md, w2; auto].
  assert (Hdl : exists audio w3,
             Pytube.Self.download_audio self video_url w2 = (Ok audio, w3))
    by apply try_except_returns.
  destruct Hdl as (audio & w3 & Hdl). rewrite (bind_Ok _ _ _ _ _ Hdl).
  assert (Hrest : forall w4,
             exists t w',
               bind (Pytube.Self.get_captions self (get_or vid ""))
                 (fun captions =>
                    if truthy captions then
                      bind (Pytube.summarize_transcript self (get_or captions "")
                              Pytube.default_max_length)
                           (fun processed_text => ret (Some processed_text, md))
                    else
                      bind (Pytube.Self.get_youtube_transcript_api self
                              (get_or vid ""))
                        (fun alt_transcript =>
                           if truthy alt_transcript then
                             bind (Pytube.summarize_transcript self
                                     (get_or alt_transcript "")
                                     Pytube.default_max_length)
                                  (fun processed_text =>
                                     ret (Some processed_text, md))
                           else ret (None, md))) w4
               = (Ok (t, md), w')).
  { intros w4.
    assert (Hcap : exists c w5,
               Pytube.Self.get_captions self (get_or vid "") w4 = (Ok c, w5))
      by apply try_except_returns.
    destruct Hcap as (c & w5 & Hcap). rewrite (bind_Ok _ _ _ _ _ Hcap).
    destruct (truthy c); [apply Hdeliver|].
    assert (Halt : exists a w6,
               Pytube.Self.get_youtube_transcript_api self (get_or vid "") w5
               = (Ok a, w6))
      by apply try_except_returns.
    destruct Halt as (a & w6 & Halt). rewrite (bind_Ok _ _ _ _ _ Halt).
    destruct (truthy a); [apply Hdeliver|]. cbn [ret]. eauto. }
  destruct (truthy audio) eqn:Haudio.
  - destruct audio as [audio|]; [|discriminate]. cbn [get_or].
    destruct (audio_method_cases self audio w3)
      as [(r & w4 & Ham)|(e & w4 & Ham & Hex & Hr)].
    + rewrite (bind_Ok _ _ _ _ _ Ham).
      destruct r as [processed_text|]; [left; cbn [ret]; eauto|].
      destruct (Hrest w4) as (t & w' & ->). left. eauto.
    + right. exists md, vid, audio, e, w1, w2, w3, w4.
      rewrite (bind_Raise _ _ _ _ _ Ham). auto 10.
  - unfold bind at 1. cbn [ret].
    destruct (Hrest w3) as (t & w' & ->). left. eauto.
Qed.



(** X23: The description fallback of the alternative method of the pytube
    version (lines 432-435) has no length gate: when the first mirror
    answers with details that list no captions, a title and a description
    that are not empty give the composite at once, whatever their lengths,
    and no other mirror is asked. *)
Theorem alt_description_ungated (P : PytubeMethods.Backends) (video_id : string)
    (response : Fixed.Response) (data : Fixed.VideoDetails) (w w1 w2 : World) :
  PytubeMethods.requests_get P
    ("https://invidious.snopyta.org" ++ "/api/v1/videos/" ++ video_id) w
  = (Ok response, w1) ->
  Fixed.status_code response = 200%Z ->
  PytubeMethods.json_video P (Fixed.body response) w1 = (Ok data, w2) ->
  Fixed.v_captions data = None \/ Fixed.v_captions data = Some [] ->
  get_or (Fixed.v_title data) "" <> "" ->
  get_or (Fixed.v_description data) "" <> "" ->
  PytubeMethods.get_youtube_transcript_api P video_id w
  = (Ok (Some (Fixed.composite (get_or (Fixed.v_title data) "")
                               (get_or (Fixed.v_description data) ""))), w2).
Proof.
  intros Hget Hstatus Hjson Hcaps Htitle Hdesc.
  assert (Htry : PytubeMethods.try_instance P video_id
                   "https://invidious.snopyta.org" w
                 = (Ok (Some (Fixed.composite (get_or (Fixed.v_title data) "")
                                (get_or (Fixed.v_description data) ""))), w2)).
  { unfold PytubeMethods.try_instance. apply try_except_Ok.
    rewrite (bind_Ok _ _ _ _ _ Hget), Hstatus. cbn [Z.eqb Pos.eqb].
    rewrite (bind_Ok _ _ _ _ _ Hjson).
    assert (Hnone : PytubeMethods.instance_captions P video_id
                      "https://invidious.snopyta.org" data w2 = (Ok None, w2)).
    { unfold PytubeMethods.instance_captions.
      destruct Hcaps as [-> | ->]; reflexivity. }
    rewrite (bind_Ok _ _ _ _ _ Hnone).
    destruct (String.eqb_spec (get_or (Fixed.v_title data) "") "");
      [contradiction|].
    destruct (String.eqb_spec (get_or (Fixed.v_description data) "") "");
      [contradiction|].
    reflexivity. }
  unfold PytubeMethods.get_youtube_transcript_api. apply try_except_Ok.
  cbn [PytubeMethods.instances first_some].
  now rewrite (bind_Ok _ _ _ _ _ Htry).
Qed.

Lemma alt_description_ungated_witness :
  PytubeMethods.get_youtube_transcript_api
    (PytubeScenarios.online [] [] (sample_details 1)) "dQw4w9WgXcQ" empty_world
  = (Ok (Some (Fixed.composite "A talk" "d")), empty_world).
Proof.
  refine (alt_description_ungated
            (PytubeScenarios.online [] [] (sample_details 1)) "dQw4w9WgXcQ"
            (Fixed.mkResponse 200 "...") (sample_details 1)
            empty_world empty_world empty_world _ _ _ _ _ _);
    try reflexivity; try discriminate.
  now left.
Defined.

(** X24: The conversion step of [download_audio] (lines 97-114) always returns a
    path.  A file whose extension is [.mp3] in any letter case is returned
    as it is and nothing is touched.  A path other than the downloaded file
    is the downloaded path with its extension replaced by [.mp3], and then
    the downloaded file has been removed. *)
Theorem to_mp3_result (P : PytubeMethods.Backends) (audio_file : string)
    (w : World) :
  exists (p : string) (w' : World),
    PytubeMethods.to_mp3 P audio_file w = (Ok (Some p), w')
    /\ (PytubeMethods.lower (snd (PytubeMethods.splitext audio_file)) = ".mp3" ->
        p = audio_file /\ w' = w)
    /\ (p <> audio_file ->
        p = fst (PytubeMethods.splitext audio_file) ++ ".mp3"
        /\ path_exists w' audio_file = false).
Proof.
  unfold PytubeMethods.to_mp3.
  destruct (PytubeMethods.splitext audio_file) as [base ext]. cbn [fst snd].
  destruct (String.eqb_spec (PytubeMethods.lower ext) ".mp3") as [He|He];
    cbn [negb].
  - exists audio_file, w. split; [reflexivity|]. split; [auto|congruence].
  - unfold try_except, try_except_when. unfold bind at 1.
    destruct (PytubeMethods.convert_to_mp3 P audio_file (base ++ ".mp3") w)
      as [[[]|e] w1].
    + unfold bind, os_remove_on, os_remove.
      destruct (PytubeMethods.refuses P audio_file w1) as [e|].
      { exists audio_file, w1. split; [reflexivity|]. split; congruence. }
      destruct (path_exists w1 audio_file) eqn:Hp.
      * eexists _, _. split; [reflexivity|]. split; [congruence|].
        intros _. split; [reflexivity|apply path_exists_delete].
      * exists audio_file, w1. split; [reflexivity|]. split; congruence.
    + exists audio_file, w1. split; [reflexivity|]. split; congruence.
Qed.
